(** * lite-hmrc: a shallow embedding of the mail interchange core

    The development follows the Python sources
    - [mail/libraries/builders.py]        (module [Builders]),
    - [mail/libraries/mailbox_service.py] (module [MailboxService]),
    - [mail/tasks.py]                     (module [Tasks]).

    Python [str] and [bytes] values are [string]s, Python [int]s are [Z],
    a raised exception is the [Raise] case of [result], and the Django
    tables are lists of rows kept in the order of their manager. *)

From Stdlib Require Import ZArith List String Ascii Bool Lia Arith.
From Stdlib Require Import Decimal DecimalString.
Import ListNotations.

Open Scope list_scope.
Open Scope string_scope.

(* ===================================================================== *)
(** * Python prelude: exceptions, list indexing, [str] methods            *)
(* ===================================================================== *)

Module Py.

(** The exception classes the modelled code raises or lets through. *)
Inductive exn : Type :=
| IndexError (msg : string)
| TypeError (msg : string)
| AttributeError (msg : string)
| ValueError (msg : string)
| UnicodeDecodeError
| error_proto
| MultipleObjectsReturned
| DoesNotExist
| DatabaseError
| EdifactValidationError
| Exception_ (msg : string).

Inductive result (A : Type) : Type :=
| Ok (a : A)
| Raise (e : exn).

Arguments Ok {A} a.
Arguments Raise {A} e.

Definition bind {A B : Type} (r : result A) (k : A -> result B) : result B :=
  match r with
  | Ok a => k a
  | Raise e => Raise e
  end.

Definition is_ok {A : Type} (r : result A) : bool :=
  match r with Ok _ => true | Raise _ => false end.

(** [l[i]] for a non-negative literal index. *)
Definition get_item {A : Type} (l : list A) (i : nat) : result A :=
  match nth_error l i with
  | Some x => Ok x
  | None => Raise (IndexError "list index out of range")
  end.

(** The list [l] with position [i] replaced, when [i] is in range. *)
Fixpoint update {A : Type} (l : list A) (i : nat) (x : A) : list A :=
  match l, i with
  | [], _ => []
  | _ :: t, O => x :: t
  | h :: t, S j => h :: update t j x
  end.

(** [l[i] = x] for a non-negative literal index. *)
Definition set_item {A : Type} (l : list A) (i : nat) (x : A) : result (list A) :=
  if Nat.ltb i (List.length l) then Ok (update l i x)
  else Raise (IndexError "list assignment index out of range").

(** [c in s] for a one-character [c]. *)
Fixpoint has_char (c : ascii) (s : string) : bool :=
  match s with
  | EmptyString => false
  | String a s' => Ascii.eqb a c || has_char c s'
  end.

(** [s.split(sep)] for a one-character separator. *)
Fixpoint split (sep : ascii) (s : string) : list string :=
  match s with
  | EmptyString => [EmptyString]
  | String c s' =>
      if Ascii.eqb c sep then EmptyString :: split sep s'
      else match split sep s' with
           | [] => [String c EmptyString]
           | h :: t => String c h :: t
           end
  end.

(** [s.split(sep, 1)] for a one-character separator. *)
Fixpoint split_once (sep : ascii) (s : string) : list string :=
  match s with
  | EmptyString => [EmptyString]
  | String c s' =>
      if Ascii.eqb c sep then [EmptyString; s']
      else match split_once sep s' with
           | [] => [String c EmptyString]
           | h :: t => String c h :: t
           end
  end.

(** [sep.join(l)]. *)
Fixpoint join (sep : string) (l : list string) : string :=
  match l with
  | [] => EmptyString
  | [x] => x
  | x :: t => x ++ sep ++ join sep t
  end.

(** [s.replace(c, "")] for a one-character [c]. *)
Fixpoint remove_char (c : ascii) (s : string) : string :=
  match s with
  | EmptyString => EmptyString
  | String a s' =>
      if Ascii.eqb a c then remove_char c s' else String a (remove_char c s')
  end.

Fixpoint lstrip (c : ascii) (s : string) : string :=
  match s with
  | EmptyString => EmptyString
  | String a s' => if Ascii.eqb a c then lstrip c s' else s
  end.

Fixpoint rstrip (c : ascii) (s : string) : string :=
  match s with
  | EmptyString => EmptyString
  | String a s' =>
      match rstrip c s' with
      | EmptyString => if Ascii.eqb a c then EmptyString else String a EmptyString
      | r => String a r
      end
  end.

(** [s.strip(c)] for a one-character [c]. *)
Definition strip (c : ascii) (s : string) : string := rstrip c (lstrip c s).

(** [str(n)] for an [int]. *)
Definition str (n : Z) : string := NilZero.string_of_int (Z.to_int n).

Fixpoint repeat_char (c : ascii) (n : nat) : string :=
  match n with
  | O => EmptyString
  | S k => String c (repeat_char c k)
  end.

(** [s.rjust(w, "0")]. *)
Definition zfill_left (w : nat) (s : string) : string :=
  repeat_char "0" (w - String.length s) ++ s.

(** ["{:0wd}".format(n)]: sign-aware zero padding to width [w]. *)
Definition format_0d (w : nat) (n : Z) : string :=
  if (n <? 0)%Z then String "-" (zfill_left (w - 1) (str (- n)))
  else zfill_left w (str n).

Definition newline : ascii := "010"%char.
Definition backslash : ascii := "\"%char.
Definition underscore : ascii := "_"%char.
Definition dquote : ascii := "034"%char.

(** What an f-string writes for a value that may be [None]. *)
Definition fmt (v : option string) : string :=
  match v with
  | Some s => s
  | None => "None"
  end.

(** The separators of [s.split()]: the ASCII white space of [str]. *)
Definition is_space (c : ascii) : bool :=
  let n := nat_of_ascii c in
  (Nat.leb 9 n && Nat.leb n 13) || (Nat.leb 28 n && Nat.leb n 32).

Fixpoint split_ws_aux (cur : option string) (s : string) : list string :=
  match s with
  | EmptyString => match cur with Some w => [w] | None => [] end
  | String c s' =>
      if is_space c then
        match cur with
        | Some w => w :: split_ws_aux None s'
        | None => split_ws_aux None s'
        end
      else
        split_ws_aux (Some (match cur with Some w => w ++ String c "" | None => String c "" end)) s'
  end.

(** [s.split()]. *)
Definition split_ws (s : string) : list string := split_ws_aux None s.

Fixpoint mapM {A B : Type} (f : A -> result B) (l : list A) : result (list B) :=
  match l with
  | [] => Ok []
  | x :: t =>
      match f x with
      | Raise e => Raise e
      | Ok y => match mapM f t with
                | Raise e => Raise e
                | Ok ys => Ok (y :: ys)
                end
      end
  end.

End Py.

Export Py.

Notation "x <- r ;; k" := (Py.bind r (fun x => k))
  (at level 61, r at next level, right associativity).

(* ===================================================================== *)
(** * The domain rows and the settings the code reads                     *)
(* ===================================================================== *)

Module Models.

(** Modelled from the spec: [mail/enums.py] is not among the sources.  The
    lifecycle of a batch is AwaitingReply, ReplyReceived, ReplySent
    (section 4.3); the code names the last two [REPLY_RECEIVED] and
    [REPLY_SENT]. *)
Inductive ReceptionStatusEnum : Type :=
| REPLY_PENDING
| REPLY_RECEIVED
| REPLY_SENT.

(** Modelled from the spec: the extract kinds of section 3. *)
Inductive ExtractTypeEnum : Type :=
| LICENCE_DATA
| LICENCE_REPLY
| USAGE_DATA.

(** Modelled from the spec: the ledger statuses of section 3; a fresh row
    is neither Read nor Unprocessable. *)
Inductive MailReadStatuses : Type :=
| UNREAD
| READ
| UNPROCESSABLE.

Inductive SourceEnum : Type :=
| SPIRE
| LITE.

Definition ReceptionStatusEnum_eqb (a b : ReceptionStatusEnum) : bool :=
  match a, b with
  | REPLY_PENDING, REPLY_PENDING
  | REPLY_RECEIVED, REPLY_RECEIVED
  | REPLY_SENT, REPLY_SENT => true
  | _, _ => false
  end.

(** Modelled from the spec: [mail/models.py] is not among the sources; each
    record has the fields the code under study reads or writes. *)
Record Mail : Type := mkMail {
  mail_id : nat;
  extract_type : ExtractTypeEnum;
  status : ReceptionStatusEnum;
  edi_filename : option string;
  edi_data : option string;
  sent_filename : option string;
  sent_data : option string;
  response_filename : option string;
  response_data : option string;
  raw_data : string
}.

Record LicenceData : Type := mkLicenceData {
  ld_mail : nat;
  hmrc_run_number : Z;
  source_run_number : option Z;
  source : SourceEnum;
  licence_ids : string
}.

Record LicencePayload : Type := mkLicencePayload {
  reference : string;
  is_processed : bool;
  skip : bool
}.

Record UsageData : Type := mkUsageData {
  usage_id : string;
  ud_mail : nat;
  has_spire_data : bool;
  lite_accepted_licences : list string;
  lite_rejected_licences : list string;
  lite_sent_at : option Z;
  lite_response : option string;
  lite_payload : option string
}.

(** A row of the task queue of the background-task library. *)
Record Task : Type := mkTask {
  queue : string;
  task_params : string;
  attempts : Z;
  run_at : Z
}.

Record MailReadStatus : Type := mkMailReadStatus {
  message_id : string;
  message_num : string;
  mailbox : string;
  read_status : MailReadStatuses
}.

(** [EmailMessageDto]; [None] fields are Python [None]. *)
Record EmailMessageDto : Type := mkDto {
  run_number : option Z;
  sender : option string;
  receiver : option string;
  subject : option string;
  body : option string;
  attachment : option (list (option string));
  dto_raw_data : option string
}.

(** The tables, each in the order of its manager; rows are never deleted by
    the code under study, and a created row goes last. *)
Record DB : Type := mkDB {
  mails : list Mail;
  licence_datas : list LicenceData;
  licence_payloads : list LicencePayload;
  usage_datas : list UsageData;
  tasks : list Task
}.

(** [conf.settings], as far as the code reads it. *)
Record Settings : Type := mkSettings {
  EMAIL_USER : string;
  SPIRE_FROM_ADDRESS : string;
  MAX_ATTEMPTS : Z
}.

Definition set_mails (db : DB) (ms : list Mail) : DB :=
  mkDB ms (licence_datas db) (licence_payloads db) (usage_datas db) (tasks db).

Definition set_licence_datas (db : DB) (l : list LicenceData) : DB :=
  mkDB (mails db) l (licence_payloads db) (usage_datas db) (tasks db).

Definition set_licence_payloads (db : DB) (l : list LicencePayload) : DB :=
  mkDB (mails db) (licence_datas db) l (usage_datas db) (tasks db).

Definition set_usage_datas (db : DB) (l : list UsageData) : DB :=
  mkDB (mails db) (licence_datas db) (licence_payloads db) l (tasks db).

Definition set_tasks (db : DB) (l : list Task) : DB :=
  mkDB (mails db) (licence_datas db) (licence_payloads db) (usage_datas db) l.

(** The primary key an auto-increment column gives the next row. *)
Definition next_mail_id (ms : list Mail) : nat :=
  S (fold_right Nat.max 0 (map mail_id ms)).

(** [instance.save()] of a [Mail]: the row with that key takes every field
    of the in-memory instance. *)
Definition save_mail (m : Mail) (ms : list Mail) : list Mail :=
  map (fun r => if Nat.eqb (mail_id r) (mail_id m) then m else r) ms.

Definition save_usage_data (u : UsageData) (us : list UsageData) : list UsageData :=
  map (fun r => if String.eqb (usage_id r) (usage_id u) then u else r) us.

Definition find_mail (i : nat) (ms : list Mail) : option Mail :=
  find (fun r => Nat.eqb (mail_id r) i) ms.

End Models.

Export Models.

(* ===================================================================== *)
(** * mail/libraries/builders.py: run-number stamping                     *)
(* ===================================================================== *)

Module Builders.

(** [build_sent_filename]: field 4 of the underscore-delimited name. *)
Definition build_sent_filename (filename : string) (run_number : Z) : result string :=
  let filename := split underscore filename in
  filename <- set_item filename 4 (str run_number) ;;
  Ok (join "_" filename).

(** [build_sent_file_data]: field 6 of the backslash-delimited first line;
    the remainder after the first newline is appended as it is. *)
Definition build_sent_file_data (file_data : string) (run_number : Z) : result string :=
  let file_data_lines := split_once newline file_data in
  file_data_line_1 <- get_item file_data_lines 0 ;;
  let file_data_line_1 := split backslash file_data_line_1 in
  file_data_line_1 <- set_item file_data_line_1 6 (str run_number) ;;
  let file_data_line_1 := join (String backslash "") file_data_line_1 in
  rest <- get_item file_data_lines 1 ;;
  Ok (file_data_line_1 ++ String newline "" ++ rest).

(** [django.utils.timezone.now()], as far as the file name uses it. *)
Record datetime : Type := mkDatetime {
  year : Z; month : Z; day : Z; hour : Z; minute : Z
}.

(** The collaborators of [builders.py] that are not repository code under
    study: the EDIFACT converter, [json.dumps], [unidecode] and the base64
    encoder behind [MIMEApplication]. *)
Record Externals : Type := mkExternals {
  licences_to_edifact : list LicencePayload -> Z -> result string;
  json_dumps : list string -> string;
  unidecode : string -> string;
  b64encode : string -> string
}.

Section WithExternals.

Variable ext : Externals.
Variable settings : Settings.

Definition build_licence_data_file (now : datetime) (licences : list LicencePayload)
    (run_number : Z) : result (string * string) :=
  let file_name :=
    "CHIEF_LIVE_SPIRE_licenceData_" ++ str run_number ++ "_"
      ++ format_0d 4 (year now) ++ format_0d 2 (month now) ++ format_0d 2 (day now)
      ++ format_0d 2 (hour now) ++ format_0d 2 (minute now) in
  file_content <- licences_to_edifact ext licences run_number ;;
  Ok (file_name, file_content).

(** The run number [build_licence_data_mail] takes from the last row. *)
Definition next_run_number (lds : list LicenceData) : Z :=
  match last (map Some lds) None with
  | Some last_lite_update => (hmrc_run_number last_lite_update + 1)%Z
  | None => 1%Z
  end.

Definition build_licence_data_mail (now : datetime) (licences : list LicencePayload)
    (db : DB) : result (Mail * DB) :=
  let run_number := next_run_number (licence_datas db) in
  fc <- build_licence_data_file now licences run_number ;;
  let mail :=
    mkMail (next_mail_id (mails db)) LICENCE_DATA REPLY_PENDING
           (Some (fst fc)) (Some (snd fc)) None None None None "See Licence Payload" in
  let db := set_mails db (mails db ++ [mail])%list in
  let licence_ids := json_dumps ext (map reference licences) in
  let db :=
    set_licence_datas db
      (licence_datas db ++ [mkLicenceData (mail_id mail) run_number None LITE licence_ids])%list in
  Ok (mail, db).

(** An [email.message.Message]: its header list, in order, and its payload.
    A header value may be Python [None]. *)
Inductive Message : Type :=
| mkMessage (headers : list (string * option string)) (payload : Payload)
with Payload : Type :=
| Text (s : string)
| Parts (ps : list Message).

Definition headers (m : Message) : list (string * option string) :=
  match m with mkMessage h _ => h end.

Definition payload (m : Message) : Payload :=
  match m with mkMessage _ p => p end.

(** [msg[k] = v]: the header goes last, with the value as it is. *)
Definition setitem (m : Message) (k : string) (v : option string) : Message :=
  mkMessage (headers m ++ [(k, v)])%list (payload m).

(** [msg.add_header(k, v)] without parameters: the header goes last; its
    value is the text, and the empty text for [None]. *)
Definition add_header (m : Message) (k : string) (v : option string) : Message :=
  mkMessage (headers m ++ [(k, Some (match v with
                                     | Some s => s
                                     | None => EmptyString
                                     end))])%list
            (payload m).

Definition set_payload (m : Message) (s : string) : Message :=
  mkMessage (headers m) (Text s).

Definition attach (m part : Message) : Message :=
  match payload m with
  | Parts ps => mkMessage (headers m) (Parts (ps ++ [part])%list)
  | Text _ => mkMessage (headers m) (Parts [part])
  end.

(** [msg.get_all(k)]: the values of every header named [k], in order. *)
Definition get_all (m : Message) (k : string) : list (option string) :=
  map snd (filter (fun kv => String.eqb (fst kv) k) (headers m)).

(** [msg[k]]: the first header named [k]. *)
Definition get_header (m : Message) (k : string) : option (option string) :=
  hd_error (get_all m k).

Definition MIMEMultipart : Message :=
  mkMessage [("Content-Type", Some "multipart/mixed"); ("MIME-Version", Some "1.0")]
            (Parts []).

(** [MIMEText(text, "plain", "iso-8859-1")] for a text of line feeds only,
    which quoted-printable leaves as it is. *)
Definition MIMEText_plain_latin1 (text : string) : Message :=
  mkMessage
    [("Content-Type",
      Some ("text/plain; charset=" ++ String dquote "iso-8859-1" ++ String dquote ""));
     ("MIME-Version", Some "1.0");
     ("Content-Transfer-Encoding", Some "quoted-printable")]
    (Text text).

(** [MIMEApplication(data)]: the default encoder stores the base64 text
    and sets the transfer encoding. *)
Definition MIMEApplication (data : string) : Message :=
  mkMessage
    [("Content-Type", Some "application/octet-stream");
     ("MIME-Version", Some "1.0");
     ("Content-Transfer-Encoding", Some "base64")]
    (Text (b64encode ext data)).

(** [unidecode(x, errors="replace")]; [None] has no [encode]. *)
Definition unidecode_py (x : option string) : result string :=
  match x with
  | Some s => Ok (unidecode ext s)
  | None => Raise (AttributeError "'NoneType' object has no attribute 'encode'")
  end.

Definition _validate_dto (email_message_dto : option EmailMessageDto) : result unit :=
  match email_message_dto with
  | None => Raise (TypeError "None email_message_dto received!")
  | Some dto =>
      match attachment dto with
      | None => Raise (TypeError "None file attachment received!")
      | Some _ => Ok tt
      end
  end.

Definition build_email_message (email_message_dto : option EmailMessageDto) : result Message :=
  _ <- _validate_dto email_message_dto ;;
  match email_message_dto with
  | None => Raise (AttributeError "'NoneType' object has no attribute 'attachment'")
  | Some dto =>
      match attachment dto with
      | None => Raise (TypeError "'NoneType' object is not subscriptable")
      | Some att =>
          content <- get_item att 1 ;;
          file <- unidecode_py content ;;
          let multipart_msg := MIMEMultipart in
          let multipart_msg := setitem multipart_msg "From" (Some (EMAIL_USER settings)) in
          let multipart_msg := setitem multipart_msg "To" (receiver dto) in
          let multipart_msg := setitem multipart_msg "Subject" (subject dto) in
          let multipart_msg := setitem multipart_msg "name" (subject dto) in
          let multipart_msg :=
            attach multipart_msg
                   (MIMEText_plain_latin1 (String newline (String newline ""))) in
          let payload := MIMEApplication file in
          let payload := set_payload payload file in
          filename <- get_item att 0 ;;
          let payload :=
            add_header payload "Content-Disposition"
              (Some ("attachment; filename=" ++ String dquote (fmt filename)
                       ++ String dquote "")) in
          let payload := add_header payload "Content-Transfer-Encoding" (Some "7bit") in
          let payload := add_header payload "name" (subject dto) in
          let multipart_msg := attach multipart_msg payload in
          Ok multipart_msg
      end
  end.

End WithExternals.

End Builders.

Export Builders.

(* ===================================================================== *)
(** * mail/libraries/mailbox_service.py: the deduplication ledger         *)
(* ===================================================================== *)

Module MailboxService.

(** A POP3 session as the code uses it: [list()], the header lines of
    [top(num, 0)] and [retr(num)]. *)
Record POP3 : Type := mkPOP3 {
  pop3_list : result (list string);
  pop3_top : string -> result (list string);
  pop3_retr : string -> result string
}.

(** The codecs and the DTO parser of [mail.libraries.helpers]. *)
Record Helpers : Type := mkHelpers {
  decode_utf8 : string -> result string;
  encode_utf8 : string -> string;
  decode_default : string -> result string;
  to_mail_message_dto : string -> result EmailMessageDto
}.

Definition MESSAGE_ID_FIELD : string := "Message-ID:".

Section WithHelpers.

Variable hlp : Helpers.
Variable settings : Settings.

(** The [for index, item in enumerate(msg_header[1])] loop of
    [get_message_id]; [all] is the whole header, [index] the position of
    the head of [rest]. *)
Fixpoint scan_headers (all : list string) (index : nat) (rest : list string)
    (message_id : option string) : result (option string) :=
  match rest with
  | [] => Ok message_id
  | item :: rest' =>
      line <- decode_utf8 hlp item ;;
      match split " " line with
      | [f0; f1] =>
          if String.eqb f0 MESSAGE_ID_FIELD then
            let value := remove_char ">" (remove_char "<" f1) in
            mid <- get_item (split "@" value) 0 ;;
            scan_headers all (S index) rest' (Some mid)
          else scan_headers all (S index) rest' message_id
      | [f0] =>
          if String.eqb f0 MESSAGE_ID_FIELD then
            next <- get_item all (index + 1) ;;
            value <- decode_utf8 hlp next ;;
            let value := strip " " (remove_char ">" (remove_char "<" value)) in
            mid <- get_item (split "@" value) 0 ;;
            scan_headers all (S index) rest' (Some mid)
          else scan_headers all (S index) rest' message_id
      | _ => scan_headers all (S index) rest' message_id
      end
  end.

(** [from_address not in msg_header[1]]: membership in the list of header
    lines, that is equality with a whole line. *)
Definition sender_line_present (msg_header : list string) : bool :=
  existsb (String.eqb (encode_utf8 hlp (SPIRE_FROM_ADDRESS settings))) msg_header.

Definition get_message_id (pop3_connection : POP3) (listing_msg : string)
    : result (option string * string) :=
  msg_num <- get_item (split_ws listing_msg) 0 ;;
  msg_header <- pop3_top pop3_connection msg_num ;;
  if negb (sender_line_present msg_header) then Ok (None, msg_num)
  else
    message_id <- scan_headers msg_header 0 msg_header None ;;
    Ok (message_id, msg_num).

Definition is_final (s : MailReadStatuses) : bool :=
  match s with
  | READ | UNPROCESSABLE => true
  | UNREAD => false
  end.

Definition get_read_messages (mailbox_config : string) (ledger : list MailReadStatus)
    : list string :=
  map message_id
      (filter (fun m => String.eqb (mailbox m) mailbox_config && is_final (read_status m))
              ledger).

Definition same_key (id num mbox : string) (r : MailReadStatus) : bool :=
  String.eqb (message_id r) id && String.eqb (message_num r) num
    && String.eqb (mailbox r) mbox.

(** The rows matching a key, with their position in the table. *)
Fixpoint lookup_rows (id num mbox : string) (i : nat) (ledger : list MailReadStatus)
    : list (nat * MailReadStatus) :=
  match ledger with
  | [] => []
  | r :: t =>
      if same_key id num mbox r then (i, r) :: lookup_rows id num mbox (S i) t
      else lookup_rows id num mbox (S i) t
  end.

(** [MailReadStatus.objects.get_or_create(message_id=, message_num=,
    mailbox=)]: the row, its position, and the table afterwards. *)
Definition get_or_create (id num mbox : string) (ledger : list MailReadStatus)
    : result (nat * MailReadStatus * list MailReadStatus) :=
  match lookup_rows id num mbox 0 ledger with
  | [] =>
      let row := mkMailReadStatus id num mbox UNREAD in
      Ok (List.length ledger, row, (ledger ++ [row])%list)
  | [(i, row)] => Ok (i, row, ledger)
  | _ => Raise MultipleObjectsReturned
  end.

Definition set_status (r : MailReadStatus) (s : MailReadStatuses) : MailReadStatus :=
  mkMailReadStatus (message_id r) (message_num r) (mailbox r) s.

(** [mark_status(status)] when the variable [read_status] of the generator
    holds the row [row] stored at [pk]. *)
Definition mark_status (pk : nat) (row : MailReadStatus) (s : MailReadStatuses)
    (ledger : list MailReadStatus) : list MailReadStatus :=
  update ledger pk (set_status row s).

(** What the consumer does with a yielded pair before it asks for the next
    one: call [mark_status] or not. *)
Inductive reaction : Type :=
| Mark (s : MailReadStatuses)
| Leave.

(** [isinstance(e, ValueError)]: what [except ValueError] catches;
    [UnicodeDecodeError] is a subclass of [ValueError]. *)
Definition is_ValueError (e : exn) : bool :=
  match e with
  | ValueError _ | UnicodeDecodeError => true
  | _ => false
  end.

(** What happened to a listed message that was not filtered out; the last
    case is the message at which an exception ended the generator. *)
Inductive event : Type :=
| FetchFailed (id num : string) (pk : nat) (row : MailReadStatus)
| Unprocessable (id num : string) (pk : nat) (row : MailReadStatus)
| Yielded (id num : string) (pk : nat) (row : MailReadStatus)
          (dto : EmailMessageDto) (r : reaction)
| Interrupted (id num : string) (e : exn).

Definition event_id (e : event) : string :=
  match e with
  | FetchFailed id _ _ _ | Unprocessable id _ _ _ | Yielded id _ _ _ _ _
  | Interrupted id _ _ => id
  end.

(** The message number of the event. *)
Definition event_num (e : event) : string :=
  match e with
  | FetchFailed _ num _ _ | Unprocessable _ num _ _ | Yielded _ num _ _ _ _
  | Interrupted _ num _ => num
  end.

(** The event moves its identifier to Read or Unprocessable. *)
Definition finalizing (e : event) : bool :=
  match e with
  | FetchFailed _ _ _ _ => false
  | Unprocessable _ _ _ _ => true
  | Yielded _ _ _ _ _ (Mark s) => is_final s
  | Yielded _ _ _ _ _ Leave => false
  | Interrupted _ _ _ => false
  end.

(** What one pass through the body of the [for] loop does: nothing (the
    message is filtered out), end the generator with an exception, or
    handle the message and go on. *)
Inductive body_result : Type :=
| Skip
| Abort (ev : event) (ledger : list MailReadStatus) (e : exn)
| Emit (ev : event) (ledger : list MailReadStatus).

(** The body of [for message_id, message_num in mail_message_ids], with a
    consumer that reacts to a yielded pair before it resumes the
    generator. *)
Definition loop_body (pop3_connection : POP3) (mailbox_config : string)
    (read_messages : list string) (consume : EmailMessageDto -> reaction)
    (item : option string * string) (ledger : list MailReadStatus) : body_result :=
  match item with
  | (None, _) => Skip
  | (Some message_id, message_num) =>
      if existsb (String.eqb message_id) read_messages then Skip
      else
        match get_or_create message_id message_num mailbox_config ledger with
        | Raise e => Abort (Interrupted message_id message_num e) ledger e
        | Ok (pk, row, ledger) =>
            match pop3_retr pop3_connection message_num with
            | Raise error_proto =>
                Emit (FetchFailed message_id message_num pk row) ledger
            | Raise e => Abort (Interrupted message_id message_num e) ledger e
            | Ok m =>
                match to_mail_message_dto hlp m with
                | Raise e =>
                    if is_ValueError e then
                      Emit (Unprocessable message_id message_num pk row)
                           (mark_status pk row UNPROCESSABLE ledger)
                    else Abort (Interrupted message_id message_num e) ledger e
                | Ok mail_message =>
                    let r := consume mail_message in
                    Emit (Yielded message_id message_num pk row mail_message r)
                         (match r with
                          | Mark s => mark_status pk row s ledger
                          | Leave => ledger
                          end)
                end
            end
        end
  end.

(** The outcome of running the generator: the table, the events in order,
    and the exception that ended it early, if any. *)
Definition outcome : Type := (list MailReadStatus * list event * option exn)%type.

Definition then_event (e : event) (o : outcome) : outcome :=
  match o with
  | (l, evs, x) => (l, e :: evs, x)
  end.

(** The [for] loop of [get_message_iterator]. *)
Fixpoint iterate (pop3_connection : POP3) (mailbox_config : string)
    (read_messages : list string) (consume : EmailMessageDto -> reaction)
    (mail_message_ids : list (option string * string))
    (ledger : list MailReadStatus) : outcome :=
  match mail_message_ids with
  | [] => (ledger, [], None)
  | item :: rest =>
      match loop_body pop3_connection mailbox_config read_messages consume item ledger with
      | Skip =>
          iterate pop3_connection mailbox_config read_messages consume rest ledger
      | Abort ev ledger e => (ledger, [ev], Some e)
      | Emit ev ledger =>
          then_event ev
            (iterate pop3_connection mailbox_config read_messages consume rest ledger)
      end
  end.

(** [mail_message_ids] of [get_message_iterator]. *)
Definition list_message_ids (pop3_connection : POP3)
    : result (list (option string * string)) :=
  mails <- pop3_list pop3_connection ;;
  mapM (fun m => line <- decode_default hlp m ;; get_message_id pop3_connection line)
       mails.

(** [get_message_iterator], run to its end.  The mailbox configuration row
    of a user name is identified with that name. *)
Definition get_message_iterator (pop3_connection : POP3) (username : string)
    (consume : EmailMessageDto -> reaction) (ledger : list MailReadStatus) : outcome :=
  match list_message_ids pop3_connection with
  | Raise e => (ledger, [], Some e)
  | Ok mail_message_ids =>
      let read_messages := get_read_messages username ledger in
      iterate pop3_connection username read_messages consume mail_message_ids ledger
  end.

(** A sequence of polls of one mailbox: each has its own session and
    consumer; the events of all polls, in order, and the final table. *)
Fixpoint polls (username : string)
    (sessions : list (POP3 * (EmailMessageDto -> reaction)))
    (ledger : list MailReadStatus) : list (list event) * list MailReadStatus :=
  match sessions with
  | [] => ([], ledger)
  | (conn, consume) :: rest =>
      match get_message_iterator conn username consume ledger with
      | (ledger', evs, _) =>
          let r := polls username rest ledger' in
          (evs :: fst r, snd r)
      end
  end.

End WithHelpers.

End MailboxService.

Export MailboxService.

(* ===================================================================== *)
(** * mail/tasks.py: the schedulers and the single-flight guard           *)
(* ===================================================================== *)

Module Tasks.

Definition USAGE_FIGURES_QUEUE : string := "usage_figures_queue".
Definition LICENCE_DATA_TASK_QUEUE : string := "licences_updates_queue".

(** The text [f'[["{lite_usage_data_id}"], {{}}]'] the code looks tasks up
    by. *)
Definition task_params_of (lite_usage_data_id : string) : string :=
  "[[" ++ String dquote lite_usage_data_id ++ String dquote "], {}]".

Definition hex_digit (n : nat) : ascii :=
  nth n ["0"; "1"; "2"; "3"; "4"; "5"; "6"; "7"; "8"; "9"; "a"; "b"; "c"; "d"; "e"; "f"]%char
      "0"%char.

(** What [json.dumps] writes for one character of a [str] whose code points
    are below 256 ([ensure_ascii] is on): the quote and the backslash are
    escaped, the characters from the space to the tilde stand for
    themselves, the others are written with their short escape or as
    [\u00xx]. *)
Definition json_escape (c : ascii) : string :=
  let n := nat_of_ascii c in
  if Ascii.eqb c dquote then String backslash (String dquote "")
  else if Ascii.eqb c backslash then String backslash (String backslash "")
  else if Nat.eqb n 8 then String backslash "b"
  else if Nat.eqb n 9 then String backslash "t"
  else if Nat.eqb n 10 then String backslash "n"
  else if Nat.eqb n 12 then String backslash "f"
  else if Nat.eqb n 13 then String backslash "r"
  else if Nat.leb 32 n && Nat.leb n 126 then String c ""
  else String backslash
              ("u00" ++ String (hex_digit (n / 16)) (String (hex_digit (n mod 16)) "")).

Fixpoint json_chars (s : string) : string :=
  match s with
  | EmptyString => EmptyString
  | String c s' => json_escape c ++ json_chars s'
  end.

(** [json.dumps(((lite_usage_data_id,), {}), sort_keys=True)]: the text the
    task library stores in [task_params] for a call with that one
    argument. *)
Definition json_dumps_args (lite_usage_data_id : string) : string :=
  "[[" ++ String dquote (json_chars lite_usage_data_id) ++ String dquote "], {}]".

(** The text has no character [json.dumps] writes differently. *)
Fixpoint json_plain (s : string) : bool :=
  match s with
  | EmptyString => true
  | String c s' =>
      Nat.leb 32 (nat_of_ascii c) && Nat.leb (nat_of_ascii c) 126
        && negb (Ascii.eqb c dquote) && negb (Ascii.eqb c backslash) && json_plain s'
  end.

(** The collaborators of [tasks.py] that are not under study: the request
    DTO builder of [data_processors], and [send] and [update_mail] of the
    routing controller.  [send] adds to the mails that left the system. *)
Record Collaborators : Type := mkCollaborators {
  build_request_mail_message_dto : DB -> Mail -> result EmailMessageDto;
  send : EmailMessageDto -> list EmailMessageDto -> result (list EmailMessageDto);
  update_mail : Mail -> EmailMessageDto -> DB -> result DB
}.

(** The database, the mails sent so far, and whether the rows of the
    pending licences can be locked ([select_for_update(nowait=True)]). *)
Record World : Type := mkWorld {
  db : DB;
  outbox : list EmailMessageDto;
  lock_free : bool
}.

(** What a task body returns: [None] or [True]. *)
Inductive ret : Type :=
| RetNone
| RetTrue.

(** A [UsageData] instance in memory: its columns, and the related [Mail]
    instance when the attribute [mail] was read before (the instance keeps
    the related object it loaded). *)
Record UsageDataInstance : Type := mkUsageDataInstance {
  columns : UsageData;
  mail_cache : option Mail
}.


Section WithCollaborators.

Variable ext : Externals.
Variable col : Collaborators.
Variable settings : Settings.

(** Calling the function decorated with [@background(queue=
    USAGE_FIGURES_QUEUE, schedule=0)] does not run its body: the task
    library stores a task row that has made no attempt and may run from
    [now + schedule], with the arguments of the call as JSON text. *)
Definition send_licence_usage_figures_to_lite_api (now : Z) (lite_usage_data_id : string)
    (schedule : Z) (d : DB) : DB :=
  set_tasks d
    (tasks d ++ [mkTask USAGE_FIGURES_QUEUE (json_dumps_args lite_usage_data_id) 0
                        (now + schedule)%Z])%list.

(** [Task.objects.filter(queue=USAGE_FIGURES_QUEUE, task_params=...)]. *)
Definition tasks_of (lite_usage_data_id : string) (d : DB) : list Task :=
  filter (fun t => String.eqb (queue t) USAGE_FIGURES_QUEUE
                   && String.eqb (task_params t) (task_params_of lite_usage_data_id))
         (tasks d).

Definition schedule_licence_usage_figures_for_lite_api (now : Z)
    (lite_usage_data_id : string) (d : DB) : DB :=
  match tasks_of lite_usage_data_id d with
  | _ :: _ => d
  | [] => send_licence_usage_figures_to_lite_api now lite_usage_data_id 0 d
  end.







(** [save()] of a row read from the table: an update of the row with that
    key, or an insert when there is none. *)
Definition save_usage (u : UsageData) (us : list UsageData) : list UsageData :=
  if existsb (fun r => String.eqb (usage_id r) (usage_id u)) us
  then save_usage_data u us
  else (us ++ [u])%list.

(** [save()] of a [Mail] instance: every column of the instance is written
    to the row with its key, or the row is inserted when there is none. *)
Definition save_mail_instance (m : Mail) (ms : list Mail) : list Mail :=
  if existsb (fun r => Nat.eqb (mail_id r) (mail_id m)) ms
  then save_mail m ms
  else (ms ++ [m])%list.

(** [lite_usage_data.mail]: the instance loaded before, or else the row the
    foreign key points to. *)
Definition related_mail (lite_usage_data : UsageDataInstance) (d : DB) : result Mail :=
  match mail_cache lite_usage_data with
  | Some mail => Ok mail
  | None =>
      match find_mail (ud_mail (columns lite_usage_data)) (mails d) with
      | Some mail => Ok mail
      | None => Raise DoesNotExist
      end
  end.

(** [save_response]: the status is set on the related instance and that
    instance is saved, then the usage data. *)
Definition save_response (now : Z) (lite_usage_data : UsageDataInstance)
    (accepted_licences rejected_licences : list string) (response : string) (d : DB)
    : result DB :=
  let row :=
    mkUsageData (usage_id (columns lite_usage_data)) (ud_mail (columns lite_usage_data))
                (has_spire_data (columns lite_usage_data))
                accepted_licences rejected_licences (Some now) (Some response)
                (lite_payload (columns lite_usage_data)) in
  d <- (if negb (has_spire_data row) then
          mail <- related_mail lite_usage_data d ;;
          let mail :=
            mkMail (mail_id mail) (extract_type mail) REPLY_RECEIVED
                   (edi_filename mail) (edi_data mail) (sent_filename mail)
                   (sent_data mail) (response_filename mail) (response_data mail)
                   (raw_data mail) in
          Ok (set_mails d (save_mail_instance mail (mails d)))
        else Ok d) ;;
  Ok (set_usage_datas d (save_usage row (usage_datas d))).

Definition _get_pending_mail (d : DB) : list nat :=
  map mail_id
      (filter (fun m => negb (ReceptionStatusEnum_eqb (status m) REPLY_SENT)) (mails d)).

Definition _is_email_slot_free (d : DB) : bool :=
  match _get_pending_mail d with
  | [] => true
  | _ :: _ => false
  end.

Definition unprocessed (l : LicencePayload) : bool :=
  negb (is_processed l) && negb (skip l).

(** The block under [with transaction.atomic()]: the mails sent, and either
    the database to commit with whether the block ran to its end, or the
    exception that rolls it back. *)
Definition atomic_block (now : datetime) (w : World)
    : list EmailMessageDto * result (DB * bool) :=
  if negb (lock_free w) then (outbox w, Raise DatabaseError)
  else
    let licences := filter unprocessed (licence_payloads (db w)) in
    match licences with
    | [] => (outbox w, Ok (db w, false))
    | _ :: _ =>
        match build_licence_data_mail ext now licences (db w) with
        | Raise e => (outbox w, Raise e)
        | Ok (mail, d) =>
            match build_request_mail_message_dto col d mail with
            | Raise e => (outbox w, Raise e)
            | Ok mail_dto =>
                match send col mail_dto (outbox w) with
                | Raise e => (outbox w, Raise e)
                | Ok sent =>
                    match update_mail col mail mail_dto d with
                    | Raise e => (sent, Raise e)
                    | Ok d =>
                        (sent,
                         Ok (set_licence_payloads d
                               (map (fun l =>
                                       if unprocessed l
                                       then mkLicencePayload (reference l) true (skip l)
                                       else l)
                                    (licence_payloads d)),
                             true))
                    end
                end
            end
        end
    end.

(** The body of the task [send_licence_data_to_hmrc]. *)
Definition send_licence_data_to_hmrc (now : datetime) (w : World) : World * result ret :=
  if negb (_is_email_slot_free (db w)) then (w, Ok RetNone)
  else
    match atomic_block now w with
    | (sent, Ok (d, true)) => (mkWorld d sent (lock_free w), Ok RetTrue)
    | (sent, Ok (d, false)) => (mkWorld d sent (lock_free w), Ok RetNone)
    | (sent, Raise EdifactValidationError) =>
        (mkWorld (db w) sent (lock_free w), Raise EdifactValidationError)
    | (sent, Raise _) => (mkWorld (db w) sent (lock_free w), Ok RetNone)
    end.

End WithCollaborators.

End Tasks.

Export Tasks.

Example build_sent_filename_ex :
  Builders.build_sent_filename "CHIEF_LIVE_SPIRE_licenceData_7_202401011030" 8
  = Ok "CHIEF_LIVE_SPIRE_licenceData_8_202401011030".
Proof. reflexivity. Qed.

Example build_sent_filename_short :
  Builders.build_sent_filename "a_b_c_d" 8
  = Raise (IndexError "list assignment index out of range").
Proof. reflexivity. Qed.

Example format_ex : Py.format_0d 4 2024 ++ Py.format_0d 2 1 = "202401".
Proof. reflexivity. Qed.

(* ===================================================================== *)
(** * Facts about the Python prelude                                      *)
(* ===================================================================== *)

Section ListUpdate.

Context {A : Type}.

Lemma update_length (l : list A) (i : nat) (x : A) :
  List.length (update l i x) = List.length l.
Proof.
  revert i; induction l as [|h t IH]; intros [|i]; simpl; auto.
Qed.

Lemma update_nth_same (l : list A) (i : nat) (x : A) :
  i < List.length l -> nth_error (update l i x) i = Some x.
Proof.
  revert i; induction l as [|h t IH]; intros [|i] H; simpl in *; try lia; auto.
  apply IH; lia.
Qed.

Lemma update_nth_other (l : list A) (i j : nat) (x : A) :
  j <> i -> nth_error (update l i x) j = nth_error l j.
Proof.
  revert i j; induction l as [|h t IH]; intros [|i] [|j] H; simpl; auto.
  congruence.
Qed.

Lemma update_Forall (P : A -> Prop) (l : list A) (i : nat) (x : A) :
  Forall P l -> P x -> Forall P (update l i x).
Proof.
  intros Hl Hx; revert i; induction Hl as [|h t Hh Ht IH]; intros [|i]; simpl; auto.
Qed.

Lemma update_idem (l : list A) (i : nat) (x : A) :
  update (update l i x) i x = update l i x.
Proof.
  revert i; induction l as [|h t IH]; intros [|i]; simpl; auto.
  now rewrite IH.
Qed.

Lemma update_not_nil (l : list A) (i : nat) (x : A) :
  l <> [] -> update l i x <> [].
Proof.
  destruct l, i; simpl; congruence.
Qed.

Lemma update_In (l : list A) (i : nat) (x y : A) :
  In y (update l i x) -> y = x \/ In y l.
Proof.
  revert i; induction l as [|h t IH]; intros [|i]; simpl; auto.
  - intros [->|H]; auto.
  - intros [->|H]; auto. destruct (IH _ H); auto.
Qed.

Lemma update_In_inv (l : list A) (i : nat) (x y : A) :
  In y l -> In y (update l i x) \/ nth_error l i = Some y.
Proof.
  revert i; induction l as [|h t IH]; intros [|i]; simpl; auto.
  - intros [->|H]; auto.
  - intros [->|H]; auto. destruct (IH i H); auto.
Qed.

Lemma update_In_new (l : list A) (i : nat) (x : A) :
  i < List.length l -> In x (update l i x).
Proof.
  intros H. eapply nth_error_In. now apply update_nth_same.
Qed.

Lemma set_item_ok (l : list A) (i : nat) (x : A) :
  i < List.length l -> set_item l i x = Ok (update l i x).
Proof.
  intros H. unfold set_item.
  destruct (Nat.ltb_spec i (List.length l)); [reflexivity | lia].
Qed.

Lemma set_item_out_of_range (l : list A) (i : nat) (x : A) :
  List.length l <= i ->
  set_item l i x = Raise (IndexError "list assignment index out of range").
Proof.
  intros H. unfold set_item.
  destruct (Nat.ltb_spec i (List.length l)); [lia | reflexivity].
Qed.

End ListUpdate.

Section SplitJoin.

Variable sep : ascii.

Local Abbreviation clean := (fun f => has_char sep f = false).

Lemma split_not_nil (s : string) : split sep s <> [].
Proof.
  destruct s as [|c s]; simpl; [congruence|].
  destruct (Ascii.eqb c sep); [congruence|].
  destruct (split sep s); congruence.
Qed.

Lemma split_length_pos (s : string) : 1 <= List.length (split sep s).
Proof.
  pose proof (split_not_nil s). destruct (split sep s); simpl; [congruence | lia].
Qed.

Lemma join_split (s : string) : join (String sep "") (split sep s) = s.
Proof.
  induction s as [|c s IH]; simpl; [reflexivity|].
  destruct (Ascii.eqb_spec c sep) as [->|Hc].
  - pose proof (split_not_nil s) as Hn.
    destruct (split sep s) as [|h t] eqn:E; [congruence|].
    simpl in *. now rewrite IH.
  - pose proof (split_not_nil s) as Hn.
    destruct (split sep s) as [|h t] eqn:E; [congruence|].
    destruct t; simpl in *; now rewrite <- IH.
Qed.

Lemma split_fields_clean (s : string) : Forall clean (split sep s).
Proof.
  induction s as [|c s IH]; simpl; [repeat constructor|].
  destruct (Ascii.eqb_spec c sep) as [->|Hc].
  - constructor; auto.
  - destruct (split sep s) as [|h t]; constructor.
    + simpl. destruct (Ascii.eqb_spec c sep); [congruence | reflexivity].
    + constructor.
    + simpl. inversion IH; subst.
      destruct (Ascii.eqb_spec c sep); [congruence | assumption].
    + now inversion IH.
Qed.

Lemma split_clean (s : string) : has_char sep s = false -> split sep s = [s].
Proof.
  induction s as [|c s IH]; simpl; [reflexivity|].
  destruct (Ascii.eqb c sep); simpl; [discriminate|].
  intros H. now rewrite (IH H).
Qed.

Lemma split_app_sep (x r : string) :
  has_char sep x = false -> split sep (x ++ String sep r) = x :: split sep r.
Proof.
  induction x as [|c x IH]; simpl.
  - intros _. now rewrite Ascii.eqb_refl.
  - destruct (Ascii.eqb c sep); simpl; [discriminate|].
    intros H. now rewrite (IH H).
Qed.

Lemma split_join (l : list string) :
  l <> [] -> Forall clean l -> split sep (join (String sep "") l) = l.
Proof.
  intros Hn Hl. induction Hl as [|x t Hx Ht IH]; [congruence|].
  destruct t as [|y t].
  - simpl. now apply split_clean.
  - change (join (String sep "") (x :: y :: t))
      with (x ++ String sep (join (String sep "") (y :: t))).
    rewrite split_app_sep by assumption. f_equal. apply IH. congruence.
Qed.

Lemma has_char_app (a b : string) :
  has_char sep (a ++ b) = has_char sep a || has_char sep b.
Proof.
  induction a as [|c a IH]; simpl; [reflexivity|].
  now rewrite IH, orb_assoc.
Qed.

Lemma split_once_clean (s : string) :
  has_char sep s = false -> split_once sep s = [s].
Proof.
  induction s as [|c s IH]; simpl; [reflexivity|].
  destruct (Ascii.eqb c sep); simpl; [discriminate|].
  intros H. now rewrite (IH H).
Qed.

Lemma split_once_app_sep (x r : string) :
  has_char sep x = false -> split_once sep (x ++ String sep r) = [x; r].
Proof.
  induction x as [|c x IH]; simpl.
  - intros _. now rewrite Ascii.eqb_refl.
  - destruct (Ascii.eqb c sep); simpl; [discriminate|].
    intros H. now rewrite (IH H).
Qed.

Lemma split_once_found (s : string) :
  has_char sep s = true ->
  exists line rest,
    split_once sep s = [line; rest] /\ s = line ++ String sep rest
    /\ has_char sep line = false.
Proof.
  induction s as [|c s IH]; simpl; [discriminate|].
  destruct (Ascii.eqb_spec c sep) as [->|Hc]; simpl.
  - intros _. exists "", s. repeat split.
  - intros H. destruct (IH H) as (line & rest & E & -> & Hl).
    rewrite E. exists (String c line), rest. repeat split.
    simpl. destruct (Ascii.eqb_spec c sep); [congruence | assumption].
Qed.

End SplitJoin.

Section DecimalText.

(** The characters [str] can write. *)
Definition is_num_char (c : ascii) : bool :=
  existsb (Ascii.eqb c) ["0"; "1"; "2"; "3"; "4"; "5"; "6"; "7"; "8"; "9"; "-"]%char.

Variable c : ascii.
Hypothesis c_not_num : is_num_char c = false.

Lemma uint_text_clean (d : Decimal.uint) :
  has_char c (NilEmpty.string_of_uint d) = false.
Proof.
  unfold is_num_char in c_not_num. simpl in c_not_num.
  repeat (apply orb_false_elim in c_not_num; destruct c_not_num as [? c_not_num]).
  induction d; cbn [has_char NilEmpty.string_of_uint]; auto;
    rewrite IHd, orb_false_r, Ascii.eqb_sym; assumption.
Qed.

Lemma str_clean (n : Z) : has_char c (str n) = false.
Proof.
  assert (H0 : Ascii.eqb "0"%char c = false /\ Ascii.eqb "-"%char c = false).
  { unfold is_num_char in c_not_num. simpl in c_not_num.
    repeat (apply orb_false_elim in c_not_num; destruct c_not_num as [? c_not_num]).
    split; rewrite Ascii.eqb_sym; assumption. }
  destruct H0 as [Hz Hm].
  assert (Hu : forall d, has_char c (NilZero.string_of_uint d) = false).
  { intros d. unfold NilZero.string_of_uint.
    destruct d; try apply uint_text_clean.
    cbn [has_char]. now rewrite Hz. }
  unfold str, NilZero.string_of_int.
  destruct (Z.to_int n); [apply Hu|].
  cbn [has_char]. now rewrite Hm, Hu.
Qed.

Lemma repeat_zero_clean (k : nat) : has_char c (repeat_char "0" k) = false.
Proof.
  assert (Hz : Ascii.eqb "0"%char c = false).
  { unfold is_num_char in c_not_num. simpl in c_not_num.
    apply orb_false_elim in c_not_num. rewrite Ascii.eqb_sym. tauto. }
  induction k; cbn [has_char repeat_char]; [reflexivity|]. now rewrite Hz, IHk.
Qed.

Lemma format_0d_clean (w : nat) (n : Z) : has_char c (format_0d w n) = false.
Proof.
  assert (Hm : Ascii.eqb "-"%char c = false).
  { unfold is_num_char in c_not_num. simpl in c_not_num.
    repeat (apply orb_false_elim in c_not_num; destruct c_not_num as [? c_not_num]).
    rewrite Ascii.eqb_sym; assumption. }
  unfold format_0d, zfill_left.
  destruct (n <? 0)%Z; cbn [has_char];
    rewrite ?Hm, has_char_app, repeat_zero_clean, str_clean; reflexivity.
Qed.

End DecimalText.

(* ===================================================================== *)
(** * Run-number stamping ([builders.py])                                 *)
(* ===================================================================== *)

Lemma underscore_not_num : is_num_char underscore = false.
Proof. reflexivity. Qed.

Lemma backslash_not_num : is_num_char backslash = false.
Proof. reflexivity. Qed.

Lemma newline_not_num : is_num_char newline = false.
Proof. reflexivity. Qed.

(** Stamping a clean field list and splitting the joined text again gives
    the stamped list back. *)
Lemma split_join_update (sep : ascii) (fields : list string) (i : nat) (n : Z) :
  is_num_char sep = false ->
  fields <> [] ->
  Forall (fun f => has_char sep f = false) fields ->
  split sep (join (String sep "") (update fields i (str n))) = update fields i (str n).
Proof.
  intros Hs Hn Hf. apply split_join.
  - now apply update_not_nil.
  - apply update_Forall; [assumption | now apply str_clean].
Qed.

(** C4: [build_sent_filename] on a name of at least five underscore fields
    returns the name whose field list is the old one with position 4
    replaced by [str n], every other field and the field count kept, and
    stamping the result again with the same number returns it unchanged; on
    a name of fewer than five fields it raises [IndexError]. *)
Theorem build_sent_filename_stamps_field_4 (filename : string) (n : Z) :
  let fields := split underscore filename in
  (5 <= List.length fields ->
   exists out,
     build_sent_filename filename n = Ok out
     /\ split underscore out = update fields 4 (str n)
     /\ nth_error (split underscore out) 4 = Some (str n)
     /\ (forall i, i <> 4 -> nth_error (split underscore out) i = nth_error fields i)
     /\ List.length (split underscore out) = List.length fields
     /\ build_sent_filename out n = Ok out)
  /\ (List.length fields < 5 ->
      build_sent_filename filename n
      = Raise (IndexError "list assignment index out of range")).
Proof.
  intros fields. split.
  - intros Hlen.
    assert (Hsplit : split underscore (join "_" (update fields 4 (str n)))
                     = update fields 4 (str n)).
    { apply (split_join_update underscore); auto using underscore_not_num.
      - apply split_not_nil.
      - apply split_fields_clean. }
    exists (join "_" (update fields 4 (str n))).
    unfold build_sent_filename. fold fields.
    rewrite set_item_ok by lia. cbn [bind].
    rewrite Hsplit. repeat split.
    + apply update_nth_same; lia.
    + intros i Hi. now apply update_nth_other.
    + apply update_length.
    + rewrite set_item_ok by (rewrite update_length; lia). cbn [bind].
      now rewrite update_idem.
  - intros Hlen. unfold build_sent_filename. fold fields.
    rewrite set_item_out_of_range by lia. reflexivity.
Qed.

Lemma build_sent_filename_stamps_field_4_witness :
  (exists out,
     build_sent_filename "CHIEF_LIVE_SPIRE_licenceData_7_202401011030" 8 = Ok out
     /\ split underscore out
        = update (split underscore "CHIEF_LIVE_SPIRE_licenceData_7_202401011030") 4 (str 8)
     /\ nth_error (split underscore out) 4 = Some (str 8)
     /\ (forall i, i <> 4 ->
         nth_error (split underscore out) i
         = nth_error (split underscore "CHIEF_LIVE_SPIRE_licenceData_7_202401011030") i)
     /\ List.length (split underscore out)
        = List.length (split underscore "CHIEF_LIVE_SPIRE_licenceData_7_202401011030")
     /\ build_sent_filename out 8 = Ok out)
  /\ build_sent_filename "a_b_c_d" 8
     = Raise (IndexError "list assignment index out of range").
Proof.
  split.
  - apply (proj1 (build_sent_filename_stamps_field_4
                    "CHIEF_LIVE_SPIRE_licenceData_7_202401011030" 8)).
    vm_compute. repeat constructor.
  - apply (proj2 (build_sent_filename_stamps_field_4 "a_b_c_d" 8)).
    vm_compute. repeat constructor.
Defined.

(** The first line of a text: what precedes its first newline. *)
Definition first_line (content : string) : string :=
  hd EmptyString (split_once newline content).

(** C3 (as stated, refuted): a one-line content whose first line has seven
    backslash fields is not stamped; the operation raises. *)
Lemma build_sent_file_data_one_line_counterexample :
  7 <= List.length (split backslash (first_line "a\b\c\d\e\f\g"))
  /\ build_sent_file_data "a\b\c\d\e\f\g" 5
     = Raise (IndexError "list index out of range").
Proof. split; [vm_compute; repeat constructor | reflexivity]. Qed.

(** C3 (amended): for a content that contains a newline and whose first
    line has at least seven backslash fields, [build_sent_file_data]
    returns the first line with field 6 replaced by [str n], a newline, and
    the remainder of the input unchanged; the first line of the result has
    the old fields at every position but 6. *)
Theorem build_sent_file_data_stamps_field_6 (content : string) (n : Z) :
  has_char newline content = true ->
  7 <= List.length (split backslash (first_line content)) ->
  exists rest out,
    content = first_line content ++ String newline rest
    /\ build_sent_file_data content n = Ok out
    /\ out = join "\" (update (split backslash (first_line content)) 6 (str n))
               ++ String newline rest
    /\ split_once newline out = [first_line out; rest]
    /\ split backslash (first_line out)
       = update (split backslash (first_line content)) 6 (str n)
    /\ nth_error (split backslash (first_line out)) 6 = Some (str n)
    /\ (forall i, i <> 6 ->
        nth_error (split backslash (first_line out)) i
        = nth_error (split backslash (first_line content)) i).
Proof.
  intros Hnl Hlen.
  destruct (split_once_found newline content Hnl) as (line & rest & E & Hc & Hline).
  assert (Hfl : first_line content = line) by (unfold first_line; now rewrite E).
  rewrite Hfl in *.
  set (fields := split backslash line) in *.
  set (line' := join "\" (update fields 6 (str n))).
  assert (Hclean : has_char newline line' = false).
  { assert (Hj : join "\" fields = line) by apply join_split.
    assert (Hall : forall l, Forall (fun f => has_char newline f = false) l ->
                             has_char newline (join "\" l) = false).
    { induction 1 as [|x t Hx Ht IH]; [reflexivity|].
      destruct t; [exact Hx|].
      change (join "\" (x :: s :: t)) with (x ++ String backslash (join "\" (s :: t))).
      rewrite has_char_app, Hx. cbn [has_char orb]. exact IH. }
    apply Hall. apply update_Forall.
    - clear -Hline. subst fields.
      induction line as [|c s IH]; cbn [split]; [repeat constructor|].
      cbn [has_char] in Hline. apply orb_false_elim in Hline.
      destruct Hline as [Hc Hs]. specialize (IH Hs).
      destruct (Ascii.eqb c backslash).
      + constructor; [reflexivity | assumption].
      + destruct (split backslash s) as [|h t]; constructor.
        * cbn [has_char]. now rewrite Hc.
        * constructor.
        * cbn [has_char]. inversion IH; subst. now rewrite Hc.
        * now inversion IH.
    - apply str_clean. apply newline_not_num. }
  assert (Hout : split_once newline (line' ++ String newline rest) = [line'; rest])
    by now apply split_once_app_sep.
  assert (Hfl' : first_line (line' ++ String newline rest) = line')
    by (unfold first_line; now rewrite Hout).
  assert (Hsplit : split backslash line' = update fields 6 (str n)).
  { apply (split_join_update backslash); auto using backslash_not_num.
    - apply split_not_nil.
    - apply split_fields_clean. }
  exists rest, (line' ++ String newline rest).
  rewrite Hfl', Hsplit. repeat split.
  - exact Hc.
  - unfold build_sent_file_data. rewrite E. cbn [get_item nth_error bind].
    fold fields. rewrite set_item_ok by lia. reflexivity.
  - exact Hout.
  - apply update_nth_same; lia.
  - intros i Hi. now apply update_nth_other.
Qed.

Lemma build_sent_file_data_stamps_field_6_witness :
  exists rest out,
    "1\fileHeader\CHIEF\SPIRE\licenceData\202401011030\7\N
2\licence\GBSIEL/2024/0000001/P\insert"
    = first_line "1\fileHeader\CHIEF\SPIRE\licenceData\202401011030\7\N
2\licence\GBSIEL/2024/0000001/P\insert" ++ String newline rest
    /\ build_sent_file_data "1\fileHeader\CHIEF\SPIRE\licenceData\202401011030\7\N
2\licence\GBSIEL/2024/0000001/P\insert" 8 = Ok out
    /\ out = join "\" (update (split backslash (first_line
               "1\fileHeader\CHIEF\SPIRE\licenceData\202401011030\7\N
2\licence\GBSIEL/2024/0000001/P\insert")) 6 (str 8))
               ++ String newline rest
    /\ split_once newline out = [first_line out; rest]
    /\ split backslash (first_line out)
       = update (split backslash (first_line
           "1\fileHeader\CHIEF\SPIRE\licenceData\202401011030\7\N
2\licence\GBSIEL/2024/0000001/P\insert")) 6 (str 8)
    /\ nth_error (split backslash (first_line out)) 6 = Some (str 8)
    /\ (forall i, i <> 6 ->
        nth_error (split backslash (first_line out)) i
        = nth_error (split backslash (first_line
            "1\fileHeader\CHIEF\SPIRE\licenceData\202401011030\7\N
2\licence\GBSIEL/2024/0000001/P\insert")) i).
Proof.
  apply (build_sent_file_data_stamps_field_6
           "1\fileHeader\CHIEF\SPIRE\licenceData\202401011030\7\N
2\licence\GBSIEL/2024/0000001/P\insert" 8).
  - reflexivity.
  - vm_compute. repeat constructor.
Defined.

Example build_sent_file_data_ex :
  build_sent_file_data "1\fileHeader\CHIEF\SPIRE\licenceData\202401011030\7\N
2\licence\GBSIEL/2024/0000001/P\insert" 8
  = Ok "1\fileHeader\CHIEF\SPIRE\licenceData\202401011030\8\N
2\licence\GBSIEL/2024/0000001/P\insert".
Proof. reflexivity. Qed.

(** C9: on a content without a newline [build_sent_file_data] always
    raises [IndexError]; when the only line has seven fields or more, the
    error is the read of the missing second element at the re-join.  So a
    result is returned only for a content that has a newline. *)
Theorem build_sent_file_data_needs_newline (content : string) (n : Z) :
  (has_char newline content = false ->
   (exists msg, build_sent_file_data content n = Raise (IndexError msg))
   /\ (7 <= List.length (split backslash content) ->
       build_sent_file_data content n = Raise (IndexError "list index out of range")))
  /\ (is_ok (build_sent_file_data content n) = true -> has_char newline content = true).
Proof.
  assert (H : has_char newline content = false ->
              (exists msg, build_sent_file_data content n = Raise (IndexError msg))
              /\ (7 <= List.length (split backslash content) ->
                  build_sent_file_data content n
                  = Raise (IndexError "list index out of range"))).
  { intros Hnl. unfold build_sent_file_data.
    rewrite (split_once_clean newline content Hnl). cbn [get_item nth_error bind].
    destruct (Nat.ltb_spec 6 (List.length (split backslash content))) as [Hl|Hl].
    - rewrite set_item_ok by lia. cbn. split; eauto.
    - rewrite set_item_out_of_range by lia. cbn. split; [eauto | lia]. }
  split; [exact H|].
  intros Hok. destruct (has_char newline content) eqn:E; [reflexivity|].
  destruct (H eq_refl) as [[msg Hr] _]. rewrite Hr in Hok. discriminate.
Qed.

Lemma build_sent_file_data_needs_newline_witness :
  ((exists msg, build_sent_file_data "a\b\c\d\e\f\g" 5 = Raise (IndexError msg))
   /\ (7 <= List.length (split backslash "a\b\c\d\e\f\g") ->
       build_sent_file_data "a\b\c\d\e\f\g" 5
       = Raise (IndexError "list index out of range")))
  /\ has_char newline "a\b\c\d\e\f\g
z" = true.
Proof.
  split.
  - apply (proj1 (build_sent_file_data_needs_newline "a\b\c\d\e\f\g" 5)). reflexivity.
  - apply (proj2 (build_sent_file_data_needs_newline "a\b\c\d\e\f\g
z" 5)). reflexivity.
Defined.

(* ===================================================================== *)
(** * Building a licence batch ([build_licence_data_mail])                *)
(* ===================================================================== *)

(** The [yyyyMMddHHmm] text of [build_licence_data_file]. *)
Definition timestamp (now : datetime) : string :=
  format_0d 4 (year now) ++ format_0d 2 (month now) ++ format_0d 2 (day now)
    ++ format_0d 2 (hour now) ++ format_0d 2 (minute now).

Lemma timestamp_clean (now : datetime) : has_char underscore (timestamp now) = false.
Proof.
  unfold timestamp.
  rewrite !has_char_app, !(format_0d_clean underscore underscore_not_num).
  reflexivity.
Qed.

Lemma last_snoc {A : Type} (l : list A) (x : A) :
  last (map Some (l ++ [x])%list) None = Some x.
Proof.
  rewrite map_app. cbn [map]. generalize (map Some l). intros m.
  induction m as [|a m IH]; [reflexivity|].
  change ((a :: m) ++ [Some x])%list with (a :: (m ++ [Some x]))%list.
  destruct (m ++ [Some x])%list eqn:E.
  - destruct m; discriminate.
  - exact IH.
Qed.

Lemma licence_file_name_fields (run : Z) (now : datetime) :
  split underscore
    ("CHIEF_LIVE_SPIRE_licenceData_" ++ str run ++ "_" ++ timestamp now)
  = ["CHIEF"; "LIVE"; "SPIRE"; "licenceData"; str run; timestamp now].
Proof.
  change ("CHIEF_LIVE_SPIRE_licenceData_" ++ str run ++ "_" ++ timestamp now)
    with (join "_" ["CHIEF"; "LIVE"; "SPIRE"; "licenceData"; str run; timestamp now]).
  apply (split_join underscore); [discriminate|].
  repeat constructor.
  - apply str_clean, underscore_not_num.
  - apply timestamp_clean.
Qed.

(** C7: when the converter accepts the licences, [build_licence_data_mail]
    succeeds; the run number it stores is one more than that of the last
    licence-data row (1 when there is none), hence greater, and the next
    build will take one more again; the file name of the mail is
    [CHIEF_LIVE_SPIRE_licenceData_<run>_<yyyyMMddHHmm>], with the run number
    as underscore field 4 and the timestamp after it, and stamping that
    name with another run number changes that field only.  Run 7 at
    2024-01-01T10:30 gives [..._7_202401011030], restamped with 8
    [..._8_202401011030]. *)
Theorem build_licence_data_mail_run_number
    (ext : Externals) (now : datetime) (licences : list LicencePayload) (d : DB)
    (content : string) :
  licences_to_edifact ext licences (next_run_number (licence_datas d)) = Ok content ->
  let run := next_run_number (licence_datas d) in
  let name := "CHIEF_LIVE_SPIRE_licenceData_" ++ str run ++ "_" ++ timestamp now in
  exists mail d',
    build_licence_data_mail ext now licences d = Ok (mail, d')
    /\ run = match last (map Some (licence_datas d)) None with
             | Some l => (hmrc_run_number l + 1)%Z
             | None => 1%Z
             end
    /\ (forall l, last (map Some (licence_datas d)) None = Some l ->
                  (hmrc_run_number l < run)%Z)
    /\ last (map Some (licence_datas d')) None
       = Some (mkLicenceData (mail_id mail) run None LITE
                             (json_dumps ext (map reference licences)))
    /\ next_run_number (licence_datas d') = (run + 1)%Z
    /\ edi_filename mail = Some name
    /\ edi_data mail = Some content
    /\ split underscore name
       = ["CHIEF"; "LIVE"; "SPIRE"; "licenceData"; str run; timestamp now]
    /\ (forall m, build_sent_filename name m
                  = Ok ("CHIEF_LIVE_SPIRE_licenceData_" ++ str m ++ "_" ++ timestamp now))
    /\ (run = 7%Z -> now = mkDatetime 2024 1 1 10 30 ->
        name = "CHIEF_LIVE_SPIRE_licenceData_7_202401011030"
        /\ build_sent_filename name 8
           = Ok "CHIEF_LIVE_SPIRE_licenceData_8_202401011030").
Proof.
  intros Hconv run name.
  assert (Hstamp : forall m, build_sent_filename name m
             = Ok ("CHIEF_LIVE_SPIRE_licenceData_" ++ str m ++ "_" ++ timestamp now)).
  { intros m. unfold build_sent_filename, name.
    rewrite licence_file_name_fields. reflexivity. }
  eexists _, _. split.
  { unfold build_licence_data_mail, build_licence_data_file.
    rewrite Hconv. cbn [bind fst snd]. reflexivity. }
  cbn [licence_datas set_licence_datas set_mails edi_filename edi_data mail_id].
  repeat match goal with |- _ /\ _ => split end.
  - reflexivity.
  - intros l Hl. unfold run, next_run_number. rewrite Hl. lia.
  - apply last_snoc.
  - unfold next_run_number. rewrite last_snoc. reflexivity.
  - reflexivity.
  - reflexivity.
  - apply licence_file_name_fields.
  - exact Hstamp.
  - intros Hrun Hnow. split.
    + unfold name. rewrite Hrun, Hnow. reflexivity.
    + rewrite Hstamp, Hnow. reflexivity.
Qed.

Lemma build_licence_data_mail_run_number_witness :
  let ext := mkExternals (fun _ n => Ok ("1\fileHeader\" ++ str n)) (fun _ => "[]")
                         (fun s => s) (fun s => s) in
  let d := mkDB [] [mkLicenceData 1 6 None LITE "[]"] [] [] [] in
  let now := mkDatetime 2024 1 1 10 30 in
  exists mail d',
    build_licence_data_mail ext now [] d = Ok (mail, d')
    /\ edi_filename mail = Some "CHIEF_LIVE_SPIRE_licenceData_7_202401011030"
    /\ next_run_number (licence_datas d') = 8%Z.
Proof.
  intros ext d now.
  destruct (build_licence_data_mail_run_number ext now [] d ("1\fileHeader\" ++ str 7)
              eq_refl)
    as (mail & d' & Hb & _ & _ & _ & Hn & Hf & _).
  exists mail, d'. repeat split; assumption.
Defined.


(* ===================================================================== *)
(** * The single-flight guard and the retry policy ([tasks.py])           *)
(* ===================================================================== *)

Lemma ReceptionStatusEnum_eqb_eq (a b : ReceptionStatusEnum) :
  ReceptionStatusEnum_eqb a b = true <-> a = b.
Proof. destruct a, b; simpl; split; congruence. Qed.

Lemma pending_mail_blocks_slot (d : DB) (m : Mail) :
  In m (mails d) -> status m <> REPLY_SENT -> _is_email_slot_free d = false.
Proof.
  intros Hin Hst. unfold _is_email_slot_free, _get_pending_mail.
  assert (Hf : In m (filter (fun m => negb (ReceptionStatusEnum_eqb (status m) REPLY_SENT))
                            (mails d))).
  { apply filter_In. split; [assumption|].
    destruct (ReceptionStatusEnum_eqb (status m) REPLY_SENT) eqn:E; [|reflexivity].
    apply ReceptionStatusEnum_eqb_eq in E. contradiction. }
  destruct (filter _ (mails d)); [contradiction | reflexivity].
Qed.

(** C1: when some mail is not in status [REPLY_SENT], the task body returns
    [None] and leaves the database, the sent mails and the lock as they
    were: no mail or licence-data row is created, no pending licence is
    marked processed, nothing is sent. *)
Theorem send_licence_data_to_hmrc_single_flight
    (ext : Externals) (col : Collaborators) (now : datetime) (w : World) :
  (exists m, In m (mails (db w)) /\ status m <> REPLY_SENT) ->
  send_licence_data_to_hmrc ext col now w = (w, Ok RetNone).
Proof.
  intros (m & Hin & Hst). unfold send_licence_data_to_hmrc.
  now rewrite (pending_mail_blocks_slot _ m Hin Hst).
Qed.

Definition sample_mail (i : nat) (s : ReceptionStatusEnum) : Mail :=
  mkMail i LICENCE_DATA s (Some "CHIEF_LIVE_SPIRE_licenceData_7_202401011030")
         (Some "1\fileHeader") None None None None "See Licence Payload".

Definition sample_externals : Externals :=
  mkExternals (fun _ n => Ok ("1\fileHeader\" ++ str n)) (fun _ => "[]")
              (fun s => s) (fun s => s).

Definition sample_collaborators : Collaborators :=
  mkCollaborators
    (fun _ m => Ok (mkDto (Some 0%Z) None None (edi_filename m) None
                          (Some [edi_filename m; edi_data m]) None))
    (fun dto sent => Ok (sent ++ [dto])%list)
    (fun _ _ d => Ok d).

Definition sample_world (s : ReceptionStatusEnum) : World :=
  mkWorld (mkDB [sample_mail 1 REPLY_SENT; sample_mail 2 s]
                [mkLicenceData 2 7 None LITE "[]"]
                [mkLicencePayload "GBSIEL/2024/0000001/P" false false] [] [])
          [] true.

Lemma send_licence_data_to_hmrc_single_flight_witness :
  send_licence_data_to_hmrc sample_externals sample_collaborators
    (mkDatetime 2024 1 1 10 30) (sample_world REPLY_PENDING)
  = (sample_world REPLY_PENDING, Ok RetNone).
Proof.
  apply send_licence_data_to_hmrc_single_flight.
  exists (sample_mail 2 REPLY_PENDING). split; [simpl; auto | discriminate].
Defined.

(** With every mail acknowledged the same call builds, sends and commits. *)
Example send_licence_data_to_hmrc_free_slot :
  let r := send_licence_data_to_hmrc sample_externals sample_collaborators
             (mkDatetime 2024 1 1 10 30) (sample_world REPLY_SENT) in
  snd r = Ok RetTrue
  /\ List.length (mails (db (fst r))) = 3
  /\ List.length (outbox (fst r)) = 1
  /\ map is_processed (licence_payloads (db (fst r))) = [true].
Proof. vm_compute. repeat split. Qed.

Lemma json_plain_chars (s : string) : json_plain s = true -> json_chars s = s.
Proof.
  induction s as [|c s IH]; cbn [json_plain json_chars]; [reflexivity|].
  intros H.
  apply andb_true_iff in H. destruct H as [H Hs].
  apply andb_true_iff in H. destruct H as [H Hb].
  apply andb_true_iff in H. destruct H as [H Hq].
  apply andb_true_iff in H. destruct H as [H32 H126].
  rewrite (IH Hs). unfold json_escape.
  destruct (Ascii.eqb c dquote); [discriminate|].
  destruct (Ascii.eqb c backslash); [discriminate|].
  assert (Hn : forall k, k < 32 -> Nat.eqb (nat_of_ascii c) k = false).
  { intros k Hk. apply Nat.eqb_neq. apply Nat.leb_le in H32. lia. }
  rewrite !Hn by lia. rewrite H32, H126. reflexivity.
Qed.

(** For such an identifier the text the library stores is the text the
    code looks up. *)
Lemma json_plain_params (id : string) :
  json_plain id = true -> json_dumps_args id = task_params_of id.
Proof.
  intros H. unfold json_dumps_args, task_params_of. now rewrite json_plain_chars.
Qed.

Lemma tasks_of_snoc (id : string) (d : DB) (now : Z) :
  tasks_of id (set_tasks d (tasks d ++ [mkTask USAGE_FIGURES_QUEUE (task_params_of id) 0 now])%list)
  = (tasks_of id d ++ [mkTask USAGE_FIGURES_QUEUE (task_params_of id) 0 now])%list.
Proof.
  unfold tasks_of. cbn [tasks set_tasks]. rewrite filter_app. f_equal.
  cbn [filter queue task_params]. now rewrite !String.eqb_refl.
Qed.








Section RetryPolicy.

Variable settings : Settings.




End RetryPolicy.

Definition sample_settings : Settings :=
  mkSettings "lite-hmrc@example.com" "From: spire@example.com" 5.

Definition sample_task_db (made : Z) : DB :=
  mkDB [] [] [] []
       [mkTask LICENCE_DATA_TASK_QUEUE "[[], {}]" 0 0;
        mkTask USAGE_FIGURES_QUEUE (task_params_of "1e5a4fd0") made 100].




(* ===================================================================== *)
(** * Recording the upstream response ([save_response])                   *)
(* ===================================================================== *)

Lemma find_mail_id (i : nat) (ms : list Mail) (m : Mail) :
  find_mail i ms = Some m -> mail_id m = i /\ In m ms.
Proof.
  intros H. apply find_some in H. destruct H as [Hin He].
  apply Nat.eqb_eq in He. auto.
Qed.

Lemma find_mail_save_same (m' : Mail) (ms : list Mail) (m : Mail) :
  find_mail (mail_id m') ms = Some m ->
  find_mail (mail_id m') (save_mail m' ms) = Some m'.
Proof.
  unfold find_mail, save_mail. induction ms as [|r t IH]; cbn [find map]; [discriminate|].
  destruct (Nat.eqb_spec (mail_id r) (mail_id m')) as [E|E].
  - intros _. now rewrite Nat.eqb_refl.
  - destruct (Nat.eqb_spec (mail_id r) (mail_id m')); [contradiction | exact IH].
Qed.

Lemma find_mail_save_other (m' : Mail) (ms : list Mail) (j : nat) :
  j <> mail_id m' -> find_mail j (save_mail m' ms) = find_mail j ms.
Proof.
  intros Hj. unfold find_mail, save_mail.
  induction ms as [|r t IH]; cbn [find map]; [reflexivity|].
  destruct (Nat.eqb_spec (mail_id r) (mail_id m')) as [E|E].
  - destruct (Nat.eqb_spec (mail_id m') j); [congruence|].
    destruct (Nat.eqb_spec (mail_id r) j); [congruence | exact IH].
  - destruct (Nat.eqb_spec (mail_id r) j); [reflexivity | exact IH].
Qed.

Lemma save_usage_In (u : UsageData) (us : list UsageData) : In u (save_usage u us).
Proof.
  unfold save_usage. destruct (existsb _ us) eqn:E.
  - apply existsb_exists in E. destruct E as (r & Hin & He).
    unfold save_usage_data. apply in_map_iff. exists r. now rewrite He.
  - apply in_or_app. right. now left.
Qed.

Lemma save_usage_others (u r : UsageData) (us : list UsageData) :
  usage_id r <> usage_id u -> In r us -> In r (save_usage u us).
Proof.
  intros Hne Hin. unfold save_usage. destruct (existsb _ us).
  - unfold save_usage_data. apply in_map_iff. exists r.
    destruct (String.eqb_spec (usage_id r) (usage_id u)); [contradiction | auto].
  - apply in_or_app. now left.
Qed.

Lemma find_mail_none (i : nat) (ms : list Mail) :
  existsb (fun r => Nat.eqb (mail_id r) i) ms = false -> find_mail i ms = None.
Proof.
  unfold find_mail. induction ms as [|r t IH]; cbn [existsb find]; [reflexivity|].
  intros H. apply orb_false_elim in H. destruct H as [Hr Ht]. rewrite Hr. now apply IH.
Qed.

Lemma find_mail_snoc (i : nat) (ms : list Mail) (m : Mail) :
  find_mail i (ms ++ [m])%list
  = match find_mail i ms with
    | Some r => Some r
    | None => if Nat.eqb (mail_id m) i then Some m else None
    end.
Proof.
  unfold find_mail. induction ms as [|r t IH]; simpl; [reflexivity|].
  destruct (Nat.eqb (mail_id r) i); [reflexivity | exact IH].
Qed.

(** After [save()] of an instance the row of its key is the instance. *)
Lemma find_mail_saved (m : Mail) (ms : list Mail) :
  find_mail (mail_id m) (save_mail_instance m ms) = Some m.
Proof.
  unfold save_mail_instance.
  destruct (existsb (fun r => Nat.eqb (mail_id r) (mail_id m)) ms) eqn:E.
  - apply existsb_exists in E. destruct E as (r & Hin & He).
    destruct (find_mail (mail_id m) ms) as [r'|] eqn:Ef.
    + now apply (find_mail_save_same m ms r').
    + unfold find_mail in Ef. pose proof (find_none _ _ Ef r Hin) as Hn. congruence.
  - rewrite find_mail_snoc, (find_mail_none _ _ E). now rewrite Nat.eqb_refl.
Qed.

Lemma find_mail_saved_other (m : Mail) (ms : list Mail) (j : nat) :
  j <> mail_id m -> find_mail j (save_mail_instance m ms) = find_mail j ms.
Proof.
  intros Hj. unfold save_mail_instance.
  destruct (existsb (fun r => Nat.eqb (mail_id r) (mail_id m)) ms).
  - now apply find_mail_save_other.
  - rewrite find_mail_snoc. destruct (find_mail j ms); [reflexivity|].
    destruct (Nat.eqb_spec (mail_id m) j); [congruence | reflexivity].
Qed.

(** The [Mail] instance [save_response] saves when there is no SPIRE data:
    the related instance with its status set. *)
Definition with_status (m : Mail) (s : ReceptionStatusEnum) : Mail :=
  mkMail (mail_id m) (extract_type m) s (edi_filename m) (edi_data m) (sent_filename m)
         (sent_data m) (response_filename m) (response_data m) (raw_data m).

(** The usage-data row [save_response] saves. *)
Definition with_response (u : UsageData) (now : Z) (accepted rejected : list string)
    (response : string) : UsageData :=
  mkUsageData (usage_id u) (ud_mail u) (has_spire_data u) accepted rejected
              (Some now) (Some response) (lite_payload u).

(** C10: [save_response] on a usage-data instance whose mail can be had
    (it was loaded before, or its row exists) always stores the accepted
    and rejected lists, the sent time and the response on the usage-data
    row, and touches no other table but the mails.  With SPIRE data the
    mail table is left exactly as it was, whether the mail can be had or
    not; without, the related mail instance is saved with status
    [REPLY_RECEIVED]: the row of its key then holds that status and the
    other columns of the instance, and every other mail is unchanged. *)
Theorem save_response_mail_frame
    (now : Z) (u : UsageDataInstance) (accepted rejected : list string) (response : string)
    (d : DB) :
  let row := with_response (columns u) now accepted rejected response in
  (has_spire_data (columns u) = true ->
   save_response now u accepted rejected response d
   = Ok (set_usage_datas d (save_usage row (usage_datas d))))
  /\ (forall mail, related_mail u d = Ok mail ->
      exists d',
        save_response now u accepted rejected response d = Ok d'
        /\ usage_datas d' = save_usage row (usage_datas d)
        /\ In row (usage_datas d')
        /\ licence_datas d' = licence_datas d
        /\ licence_payloads d' = licence_payloads d
        /\ tasks d' = tasks d
        /\ (has_spire_data (columns u) = true -> mails d' = mails d)
        /\ (has_spire_data (columns u) = false ->
            mails d' = save_mail_instance (with_status mail REPLY_RECEIVED) (mails d)
            /\ find_mail (mail_id mail) (mails d') = Some (with_status mail REPLY_RECEIVED)
            /\ (forall j, j <> mail_id mail ->
                find_mail j (mails d') = find_mail j (mails d)))
        /\ (mails d' <> mails d -> has_spire_data (columns u) = false)).
Proof.
  intros row. unfold save_response.
  change (mkUsageData (usage_id (columns u)) (ud_mail (columns u))
                      (has_spire_data (columns u)) accepted rejected
                      (Some now) (Some response) (lite_payload (columns u)))
    with row.
  assert (Hs' : has_spire_data row = has_spire_data (columns u)) by reflexivity.
  clearbody row. rewrite Hs'. clear Hs'.
  split.
  - intros Hs. rewrite Hs. reflexivity.
  - intros mail Hm. destruct (has_spire_data (columns u)) eqn:Hs; cbn [negb bind].
    + eexists. split; [reflexivity|].
      cbn [usage_datas licence_datas licence_payloads tasks mails set_usage_datas].
      repeat match goal with |- _ /\ _ => split end; try reflexivity; try congruence.
      apply save_usage_In.
    + rewrite Hm. cbn [bind]. eexists. split; [reflexivity|].
      cbn [usage_datas licence_datas licence_payloads tasks mails set_usage_datas
           set_mails].
      fold (with_status mail REPLY_RECEIVED).
      repeat match goal with |- _ /\ _ => split end; try reflexivity; try congruence.
      * apply save_usage_In.
      * intros _. split; [reflexivity|]. split.
        -- apply (find_mail_saved (with_status mail REPLY_RECEIVED)).
        -- intros j Hj. now apply find_mail_saved_other.
Qed.

Definition sample_usage (spire : bool) : UsageData :=
  mkUsageData "1e5a4fd0" 2 spire [] [] None None None.

Definition sample_usage_db (spire : bool) : DB :=
  mkDB [sample_mail 1 REPLY_SENT; sample_mail 2 REPLY_PENDING] [] []
       [sample_usage spire] [].

(** The mail with key 2 as an instance read it before its row got a
    response file name. *)
Definition stale_mail : Mail :=
  mkMail 2 USAGE_DATA REPLY_PENDING (Some "usage") (Some "data") None None None None "".

Lemma save_response_mail_frame_witness :
  (save_response 1000 (mkUsageDataInstance (sample_usage true) None) ["GBSIEL/1"] []
                 "{}" (sample_usage_db true)
   = Ok (set_usage_datas (sample_usage_db true)
           [with_response (sample_usage true) 1000 ["GBSIEL/1"] [] "{}"]))
  /\ (exists d',
        save_response 1000 (mkUsageDataInstance (sample_usage false) None) ["GBSIEL/1"] []
                      "{}" (sample_usage_db false)
        = Ok d'
        /\ find_mail 2 (mails d') = Some (sample_mail 2 REPLY_RECEIVED))
  /\ (exists d',
        save_response 1000 (mkUsageDataInstance (sample_usage false) (Some stale_mail))
                      ["GBSIEL/1"] [] "{}" (sample_usage_db false)
        = Ok d'
        /\ find_mail 2 (mails d') = Some (with_status stale_mail REPLY_RECEIVED)).
Proof.
  split; [|split].
  - apply (proj1 (save_response_mail_frame 1000
                    (mkUsageDataInstance (sample_usage true) None) ["GBSIEL/1"] [] "{}"
                    (sample_usage_db true))).
    reflexivity.
  - destruct (proj2 (save_response_mail_frame 1000
                       (mkUsageDataInstance (sample_usage false) None) ["GBSIEL/1"] [] "{}"
                       (sample_usage_db false)) (sample_mail 2 REPLY_PENDING) eq_refl)
      as (d' & H & _ & _ & _ & _ & _ & _ & Hc & _).
    exists d'. split; [exact H | apply Hc; reflexivity].
  - destruct (proj2 (save_response_mail_frame 1000
                       (mkUsageDataInstance (sample_usage false) (Some stale_mail))
                       ["GBSIEL/1"] [] "{}" (sample_usage_db false)) stale_mail eq_refl)
      as (d' & H & _ & _ & _ & _ & _ & _ & Hc & _).
    exists d'. split; [exact H | apply Hc; reflexivity].
Defined.

(* ===================================================================== *)
(** * The outbound message ([build_email_message])                        *)
(* ===================================================================== *)

Definition CONTENT_TRANSFER_ENCODING : string := "Content-Transfer-Encoding".

(** The attachment part [build_email_message] makes for a file name, a
    subject and the transliterated content. *)
Definition attachment_part (filename subject : option string) (file : string) : Message :=
  mkMessage
    [("Content-Type", Some "application/octet-stream");
     ("MIME-Version", Some "1.0");
     (CONTENT_TRANSFER_ENCODING, Some "base64");
     ("Content-Disposition",
      Some ("attachment; filename=" ++ String dquote (fmt filename) ++ String dquote ""));
     (CONTENT_TRANSFER_ENCODING, Some "7bit");
     ("name", Some (match subject with
                    | Some s => s
                    | None => EmptyString
                    end))]
    (Text file).

Definition sample_dto (att : option (list (option string))) : EmailMessageDto :=
  mkDto (Some 1%Z) (Some "hmrc@example.com") (Some "spire@example.com")
        (Some "Some subject") None att (Some "").

(** C8 (as stated, refuted): on the DTO of the test fixture (ASCII content)
    the attachment part still carries the encoder's own
    [Content-Transfer-Encoding: base64] header, ahead of the added [7bit]
    one, so the header read from the part is not [7bit]; and a DTO whose
    attachment list holds no content passes the validation and then fails
    with another error, without a message. *)
Lemma build_email_message_counterexample :
  (exists msg preamble part,
     build_email_message sample_externals sample_settings
       (Some (sample_dto (Some [Some "some filename"; Some "30 km/h"]))) = Ok msg
     /\ payload msg = Parts [preamble; part]
     /\ get_all part CONTENT_TRANSFER_ENCODING = [Some "base64"; Some "7bit"]
     /\ get_header part CONTENT_TRANSFER_ENCODING <> Some (Some "7bit"))
  /\ (_validate_dto (Some (sample_dto (Some [None; None]))) = Ok tt
      /\ build_email_message sample_externals sample_settings
           (Some (sample_dto (Some [None; None])))
         = Raise (AttributeError "'NoneType' object has no attribute 'encode'")).
Proof.
  split.
  - eexists _, _, _. split; [reflexivity|]. split; [reflexivity|].
    split; [reflexivity | discriminate].
  - split; reflexivity.
Qed.

(** The attachment content of the test fixture of [build_email_message],
    ["30 \U0001d5c4\U0001d5c6/\U0001d5c1 \u5317\u4EB0"], as UTF-8 text. *)
Definition fixture_content : string := "30 𝗄𝗆/𝗁 北亰".

(** C8 (amended): without a DTO, or with a DTO without attachment list,
    [build_email_message] raises the [TypeError] of [_validate_dto].  For a
    DTO whose attachment list holds a file name and a content string it
    returns a message of two parts: the headers of the message are the
    multipart type, the MIME version, [From] = the configured [EMAIL_USER]
    whatever the sender of the DTO, [To], [Subject] and [name] from the
    DTO as they are; the first part is the plain-text preamble; the second
    part holds the transliterated content as it is, with the type, the
    MIME version, the encoder's [Content-Transfer-Encoding: base64], the
    [Content-Disposition] naming the file, the added
    [Content-Transfer-Encoding: 7bit] and [name] (empty for a DTO without
    subject), in that order.  So for the content of the test fixture, which
    the transliteration turns into [30 km/h Bei Jing ] with a space at its
    end, that text is the payload of the second part. *)
Theorem build_email_message_assembles (ext : Externals) (settings : Settings) :
  build_email_message ext settings None
  = Raise (TypeError "None email_message_dto received!")
  /\ (forall dto, attachment dto = None ->
        build_email_message ext settings (Some dto)
        = Raise (TypeError "None file attachment received!"))
  /\ (forall dto filename content more,
        attachment dto = Some (filename :: Some content :: more) ->
        build_email_message ext settings (Some dto)
        = Ok (mkMessage
                [("Content-Type", Some "multipart/mixed");
                 ("MIME-Version", Some "1.0");
                 ("From", Some (EMAIL_USER settings));
                 ("To", receiver dto);
                 ("Subject", subject dto);
                 ("name", subject dto)]
                (Parts [MIMEText_plain_latin1 (String newline (String newline ""));
                        attachment_part filename (subject dto)
                                        (unidecode ext content)]))
        /\ get_all (attachment_part filename (subject dto) (unidecode ext content))
                   CONTENT_TRANSFER_ENCODING
           = [Some "base64"; Some "7bit"]
        /\ get_header (attachment_part filename (subject dto) (unidecode ext content))
                      "Content-Disposition"
           = Some (Some ("attachment; filename=" ++ String dquote (fmt filename)
                           ++ String dquote "")))
  /\ (forall dto filename more,
        attachment dto = Some (filename :: Some fixture_content :: more) ->
        unidecode ext fixture_content = "30 km/h Bei Jing " ->
        exists msg preamble part,
          build_email_message ext settings (Some dto) = Ok msg
          /\ payload msg = Parts [preamble; part]
          /\ payload part = Text "30 km/h Bei Jing ").
Proof.
  assert (H : forall dto filename content more,
             attachment dto = Some (filename :: Some content :: more) ->
             build_email_message ext settings (Some dto)
             = Ok (mkMessage
                     [("Content-Type", Some "multipart/mixed");
                      ("MIME-Version", Some "1.0");
                      ("From", Some (EMAIL_USER settings));
                      ("To", receiver dto);
                      ("Subject", subject dto);
                      ("name", subject dto)]
                     (Parts [MIMEText_plain_latin1 (String newline (String newline ""));
                             attachment_part filename (subject dto)
                                             (unidecode ext content)]))).
  { intros dto filename content more Ha.
    unfold build_email_message, _validate_dto. rewrite Ha. reflexivity. }
  split; [reflexivity|]. split; [|split].
  - intros dto Ha. unfold build_email_message, _validate_dto. now rewrite Ha.
  - intros dto filename content more Ha.
    split; [exact (H dto filename content more Ha) | split; reflexivity].
  - intros dto filename more Ha Hu. eexists _, _, _.
    split; [exact (H dto filename fixture_content more Ha)|].
    split; [reflexivity|]. cbn [payload attachment_part]. now rewrite Hu.
Qed.

(** The transliteration of the test fixture, the identity elsewhere. *)
Definition fixture_externals : Externals :=
  mkExternals (fun _ n => Ok ("1\fileHeader\" ++ str n)) (fun _ => "[]")
              (fun s => if String.eqb s fixture_content then "30 km/h Bei Jing " else s)
              (fun s => s).

Lemma build_email_message_assembles_witness :
  build_email_message sample_externals sample_settings
    (Some (sample_dto (Some [Some "some filename"; Some "30 km/h"])))
  = Ok (mkMessage
          [("Content-Type", Some "multipart/mixed");
           ("MIME-Version", Some "1.0");
           ("From", Some "lite-hmrc@example.com");
           ("To", Some "spire@example.com");
           ("Subject", Some "Some subject");
           ("name", Some "Some subject")]
          (Parts [MIMEText_plain_latin1 (String newline (String newline ""));
                  attachment_part (Some "some filename") (Some "Some subject") "30 km/h"]))
  /\ build_email_message sample_externals sample_settings
       (Some (mkDto None None None None None (Some [None; Some "30 km/h"]) None))
     = Ok (mkMessage
             [("Content-Type", Some "multipart/mixed");
              ("MIME-Version", Some "1.0");
              ("From", Some "lite-hmrc@example.com");
              ("To", None);
              ("Subject", None);
              ("name", None)]
             (Parts [MIMEText_plain_latin1 (String newline (String newline ""));
                     mkMessage
                       [("Content-Type", Some "application/octet-stream");
                        ("MIME-Version", Some "1.0");
                        (CONTENT_TRANSFER_ENCODING, Some "base64");
                        ("Content-Disposition",
                         Some ("attachment; filename=" ++ String dquote "None"
                                 ++ String dquote ""));
                        (CONTENT_TRANSFER_ENCODING, Some "7bit");
                        ("name", Some EmptyString)]
                       (Text "30 km/h")]))
  /\ exists msg preamble part,
       build_email_message fixture_externals sample_settings
         (Some (sample_dto (Some [Some "some filename"; Some fixture_content]))) = Ok msg
       /\ payload msg = Parts [preamble; part]
       /\ payload part = Text "30 km/h Bei Jing ".
Proof.
  split; [|split].
  - apply (proj1 (proj2 (proj2 (build_email_message_assembles sample_externals
                                  sample_settings)))
             (sample_dto (Some [Some "some filename"; Some "30 km/h"]))
             (Some "some filename") "30 km/h" []).
    reflexivity.
  - apply (proj1 (proj2 (proj2 (build_email_message_assembles sample_externals
                                  sample_settings)))
             (mkDto None None None None None (Some [None; Some "30 km/h"]) None)
             None "30 km/h" []).
    reflexivity.
  - apply (proj2 (proj2 (proj2 (build_email_message_assembles fixture_externals
                                  sample_settings)))
             (sample_dto (Some [Some "some filename"; Some fixture_content]))
             (Some "some filename") []); reflexivity.
Defined.

(* ===================================================================== *)
(** * The deduplication ledger ([mailbox_service.py])                     *)
(* ===================================================================== *)

Lemma mapM_In {A B : Type} (f : A -> result B) (l : list A) (ys : list B) (y : B) :
  mapM f l = Ok ys -> In y ys -> exists x, In x l /\ f x = Ok y.
Proof.
  revert ys; induction l as [|a l IH]; intros ys; cbn [mapM].
  - intros [= <-] [].
  - destruct (f a) as [b|e] eqn:Ea; [|discriminate].
    destruct (mapM f l) as [bs|e]; [|discriminate].
    intros [= <-] [->|Hin].
    + exists a. split; [now left | assumption].
    + destruct (IH bs eq_refl Hin) as (x & Hx & Hf). exists x. split; [now right | assumption].
Qed.

Section Ledger.

Variable hlp : Helpers.
Variable settings : Settings.
Variable mbox : string.

(** The identifier has a row of the mailbox in status Read or
    Unprocessable. *)
Definition finalized (ledger : list MailReadStatus) (id : string) : Prop :=
  In id (get_read_messages mbox ledger).

Lemma finalized_iff (ledger : list MailReadStatus) (id : string) :
  finalized ledger id <->
  exists r, In r ledger /\ message_id r = id /\ mailbox r = mbox
            /\ is_final (read_status r) = true.
Proof.
  unfold finalized, get_read_messages. rewrite in_map_iff. split.
  - intros (r & Hid & Hf). apply filter_In in Hf. destruct Hf as [Hin Hb].
    apply andb_true_iff in Hb. destruct Hb as [Hm Hs]. apply String.eqb_eq in Hm.
    exists r. auto.
  - intros (r & Hin & Hid & Hm & Hs). exists r. split; [assumption|].
    apply filter_In. split; [assumption|].
    apply andb_true_iff. split; [now apply String.eqb_eq | assumption].
Qed.

Lemma snapshot_spec (rm : list string) (id : string) :
  existsb (String.eqb id) rm = true <-> In id rm.
Proof.
  rewrite existsb_exists. split.
  - intros (x & Hin & He). apply String.eqb_eq in He. now subst.
  - intros Hin. exists id. split; [assumption | apply String.eqb_refl].
Qed.

Lemma lookup_rows_spec (id num : string) (ledger : list MailReadStatus) (k i : nat)
    (r : MailReadStatus) :
  In (i, r) (lookup_rows id num mbox k ledger) ->
  k <= i /\ nth_error ledger (i - k) = Some r /\ same_key id num mbox r = true.
Proof.
  revert k; induction ledger as [|a t IH]; intros k; cbn [lookup_rows]; [intros []|].
  assert (Hrec : In (i, r) (lookup_rows id num mbox (S k) t) ->
                 k <= i /\ nth_error (a :: t) (i - k) = Some r
                 /\ same_key id num mbox r = true).
  { intros H. destruct (IH _ H) as (Hk & Hn & Hs).
    replace (i - k) with (S (i - S k)) by lia. cbn [nth_error]. repeat split; auto; lia. }
  destruct (same_key id num mbox a) eqn:Ea; [|exact Hrec].
  intros [[= <- <-]|H]; [|now apply Hrec].
  rewrite Nat.sub_diag. cbn [nth_error]. auto.
Qed.

Lemma same_key_spec (id num : string) (r : MailReadStatus) :
  same_key id num mbox r = true -> message_id r = id /\ mailbox r = mbox.
Proof.
  unfold same_key. intros H. apply andb_true_iff in H. destruct H as [H Hm].
  apply andb_true_iff in H. destruct H as [Hi _].
  split; now apply String.eqb_eq.
Qed.

(** [get_or_create] returns a row of the key at its position, and either
    leaves the table or appends that row, unread. *)
Lemma get_or_create_spec (id num : string) (ledger ledger1 : list MailReadStatus)
    (pk : nat) (row : MailReadStatus) :
  get_or_create id num mbox ledger = Ok (pk, row, ledger1) ->
  nth_error ledger1 pk = Some row /\ message_id row = id /\ mailbox row = mbox
  /\ (ledger1 = ledger
      \/ ledger1 = (ledger ++ [row])%list /\ read_status row = UNREAD).
Proof.
  unfold get_or_create.
  destruct (lookup_rows id num mbox 0 ledger) as [|[i r] [|? ?]] eqn:E.
  - intros [= <- <- <-]. rewrite nth_error_app2, Nat.sub_diag by lia.
    cbn. repeat split. right. auto.
  - intros [= <- <- <-].
    destruct (lookup_rows_spec id num ledger 0 i r) as (_ & Hn & Hs).
    { rewrite E. now left. }
    rewrite Nat.sub_0_r in Hn. destruct (same_key_spec _ _ _ Hs). auto.
  - discriminate.
Qed.

(** Rows of another identifier are exactly those of the table before. *)
Lemma get_or_create_others (id num : string) (ledger ledger1 : list MailReadStatus)
    (pk : nat) (row r : MailReadStatus) :
  get_or_create id num mbox ledger = Ok (pk, row, ledger1) ->
  message_id r <> id -> (In r ledger1 <-> In r ledger).
Proof.
  intros H Hne. destruct (get_or_create_spec _ _ _ _ _ _ H) as (_ & Hid & _ & [->|[-> _]]).
  - tauto.
  - rewrite in_app_iff. cbn [In]. split; [|tauto].
    intros [?|[<-|[]]]; [assumption | congruence].
Qed.

Lemma mark_status_others (ledger : list MailReadStatus) (pk : nat)
    (row r : MailReadStatus) (s : MailReadStatuses) :
  nth_error ledger pk = Some row -> message_id r <> message_id row ->
  (In r (mark_status pk row s ledger) <-> In r ledger).
Proof.
  intros Hn Hne. unfold mark_status. split.
  - intros H. apply update_In in H. destruct H as [->|H]; [|assumption].
    cbn in Hne. congruence.
  - intros H. destruct (update_In_inv ledger pk (set_status row s) r H) as [?|E];
      [assumption|]. congruence.
Qed.

Lemma mark_status_new (ledger : list MailReadStatus) (pk : nat)
    (row : MailReadStatus) (s : MailReadStatuses) :
  nth_error ledger pk = Some row -> In (set_status row s) (mark_status pk row s ledger).
Proof.
  intros Hn. apply update_In_new. apply nth_error_Some. congruence.
Qed.

End Ledger.

Section LoopBody.

Variable hlp : Helpers.
Variable mbox : string.
Variable conn : POP3.
Variable rm : list string.
Variable consume : EmailMessageDto -> reaction.

(** What the loop body did with a message it handled and went on from, and
    what it did to the table. *)
Inductive handled (l1 : list MailReadStatus) (id num : string) (pk : nat)
    (row : MailReadStatus) : event -> list MailReadStatus -> Prop :=
| handled_fetch_failed :
    pop3_retr conn num = Raise error_proto ->
    handled l1 id num pk row (FetchFailed id num pk row) l1
| handled_unprocessable m e :
    pop3_retr conn num = Ok m ->
    to_mail_message_dto hlp m = Raise e -> is_ValueError e = true ->
    handled l1 id num pk row (Unprocessable id num pk row)
            (mark_status pk row UNPROCESSABLE l1)
| handled_marked m dto s :
    pop3_retr conn num = Ok m -> to_mail_message_dto hlp m = Ok dto ->
    consume dto = Mark s ->
    handled l1 id num pk row (Yielded id num pk row dto (Mark s)) (mark_status pk row s l1)
| handled_left m dto :
    pop3_retr conn num = Ok m -> to_mail_message_dto hlp m = Ok dto ->
    consume dto = Leave ->
    handled l1 id num pk row (Yielded id num pk row dto Leave) l1.

Lemma loop_body_emit (item : option string * string)
    (ledger ledger2 : list MailReadStatus) (ev : event) :
  loop_body hlp conn mbox rm consume item ledger = Emit ev ledger2 ->
  exists id num pk row ledger1,
    item = (Some id, num) /\ ~ In id rm /\ event_id ev = id /\ event_num ev = num
    /\ get_or_create id num mbox ledger = Ok (pk, row, ledger1)
    /\ handled ledger1 id num pk row ev ledger2.
Proof.
  unfold loop_body. destruct item as [[id|] num]; [|discriminate].
  destruct (existsb (String.eqb id) rm) eqn:Erm; [discriminate|].
  assert (Hrm : ~ In id rm).
  { intros H. apply snapshot_spec in H. congruence. }
  destruct (get_or_create id num mbox ledger) as [[[pk row] ledger1]|e] eqn:Eg;
    [|discriminate].
  destruct (pop3_retr conn num) as [m|e] eqn:Er.
  - destruct (to_mail_message_dto hlp m) as [dto|e] eqn:Ed.
    + intros [= <- <-]. exists id, num, pk, row, ledger1.
      repeat split; auto.
      destruct (consume dto) eqn:Ec; econstructor; eassumption.
    + destruct (is_ValueError e) eqn:Ev; [|discriminate].
      intros [= <- <-]. exists id, num, pk, row, ledger1.
      repeat split; auto. econstructor; eassumption.
  - destruct e; try discriminate.
    intros [= <- <-]. exists id, num, pk, row, ledger1.
    repeat split; auto. now constructor.
Qed.

Lemma loop_body_abort (item : option string * string)
    (ledger ledger1 : list MailReadStatus) (ev : event) (e : exn) :
  loop_body hlp conn mbox rm consume item ledger = Abort ev ledger1 e ->
  exists id num,
    item = (Some id, num) /\ ~ In id rm /\ ev = Interrupted id num e
    /\ (ledger1 = ledger
        \/ exists pk row, get_or_create id num mbox ledger = Ok (pk, row, ledger1)).
Proof.
  unfold loop_body. destruct item as [[id|] num]; [|discriminate].
  destruct (existsb (String.eqb id) rm) eqn:Erm; [discriminate|].
  assert (Hrm : ~ In id rm).
  { intros H. apply snapshot_spec in H. congruence. }
  destruct (get_or_create id num mbox ledger) as [[[pk row] l1]|e0] eqn:Eg.
  - intros H. exists id, num.
    assert (ev = Interrupted id num e /\ l1 = ledger1) as [-> <-].
    { destruct (pop3_retr conn num) as [m|e1].
      - destruct (to_mail_message_dto hlp m) as [dto|e2]; [discriminate|].
        destruct (is_ValueError e2); [discriminate|]. now injection H as <- <- <-.
      - destruct e1; try discriminate; now injection H as <- <- <-. }
    repeat split; auto. right. now exists pk, row.
  - intros [= <- <- <-]. exists id, num. auto.
Qed.

Lemma loop_body_skip (item : option string * string) (ledger : list MailReadStatus) :
  loop_body hlp conn mbox rm consume item ledger = Skip ->
  forall id, fst item = Some id -> In id rm.
Proof.
  unfold loop_body. destruct item as [[id|] num]; cbn [fst]; [|discriminate].
  destruct (existsb (String.eqb id) rm) eqn:Erm.
  - intros _ ? [= <-]. now apply snapshot_spec.
  - destruct (get_or_create id num mbox ledger) as [[[pk row] l1]|e0]; [|discriminate].
    destruct (pop3_retr conn num) as [m|e1].
    + destruct (to_mail_message_dto hlp m) as [dto|e2]; [discriminate|].
      destruct (is_ValueError e2); discriminate.
    + destruct e1; discriminate.
Qed.

(** A handled message changes rows of its own identifier only. *)
Lemma handled_others (ledger ledger1 ledger2 : list MailReadStatus) (id num : string)
    (pk : nat) (row : MailReadStatus) (ev : event) (r : MailReadStatus) :
  get_or_create id num mbox ledger = Ok (pk, row, ledger1) ->
  handled ledger1 id num pk row ev ledger2 ->
  message_id r <> id -> (In r ledger2 <-> In r ledger).
Proof.
  intros Hg Hh Hne.
  destruct (get_or_create_spec mbox _ _ _ _ _ _ Hg) as (Hn & Hid & _ & _).
  rewrite <- (get_or_create_others mbox _ _ _ _ _ _ r Hg Hne).
  destruct Hh; try tauto; apply mark_status_others; congruence.
Qed.

Lemma finalized_others (ledger ledger2 : list MailReadStatus) (id : string) :
  (forall r, message_id r = id -> (In r ledger2 <-> In r ledger)) ->
  (finalized mbox ledger2 id <-> finalized mbox ledger id).
Proof.
  intros H. rewrite !finalized_iff.
  split; intros (r & Hin & Hid & Hrest); exists r; (split; [now apply (H r Hid)|auto]).
Qed.

Lemma handled_finalized_others (ledger ledger1 ledger2 : list MailReadStatus)
    (id num : string) (pk : nat) (row : MailReadStatus) (ev : event) (id' : string) :
  get_or_create id num mbox ledger = Ok (pk, row, ledger1) ->
  handled ledger1 id num pk row ev ledger2 ->
  id' <> id -> (finalized mbox ledger2 id' <-> finalized mbox ledger id').
Proof.
  intros Hg Hh Hne. apply finalized_others. intros r Hr.
  apply (handled_others _ _ _ _ _ _ _ _ _ Hg Hh). congruence.
Qed.

(** The identifier of a handled message ends up finalized exactly when the
    event is a finalizing one, if it was not finalized before. *)
Lemma handled_finalized_own (ledger ledger1 ledger2 : list MailReadStatus)
    (id num : string) (pk : nat) (row : MailReadStatus) (ev : event) :
  get_or_create id num mbox ledger = Ok (pk, row, ledger1) ->
  handled ledger1 id num pk row ev ledger2 ->
  ~ finalized mbox ledger id ->
  (finalized mbox ledger2 id <-> finalizing ev = true).
Proof.
  intros Hg Hh Hnf.
  destruct (get_or_create_spec mbox _ _ _ _ _ _ Hg) as (Hn & Hid & Hmb & Hl1).
  assert (Hnf1 : ~ finalized mbox ledger1 id).
  { intros Hf. apply Hnf. apply finalized_iff in Hf. apply finalized_iff.
    destruct Hf as (r & Hin & Hr & Hm & Hs). exists r. repeat split; auto.
    destruct Hl1 as [->|[-> Hu]]; [assumption|].
    apply in_app_iff in Hin. destruct Hin as [?|[<-|[]]]; [assumption|].
    rewrite Hu in Hs. discriminate. }
  assert (Hmark : forall s, finalized mbox (mark_status pk row s ledger1) id
                            <-> is_final s = true).
  { intros s. rewrite finalized_iff. split.
    - intros (r & Hin & Hr & Hm & Hs). unfold mark_status in Hin.
      apply update_In in Hin. destruct Hin as [->|Hin]; [exact Hs|].
      exfalso. apply Hnf1. apply finalized_iff. exists r. auto.
    - intros Hs. exists (set_status row s). split; [now apply mark_status_new|].
      cbn. auto. }
  destruct Hh; cbn [finalizing].
  - split; [contradiction | discriminate].
  - rewrite Hmark. reflexivity.
  - apply Hmark.
  - split; [contradiction | discriminate].
Qed.

(** An interrupted pass finalizes nothing. *)
Lemma abort_finalized (item : option string * string)
    (ledger ledger1 : list MailReadStatus) (ev : event) (e : exn) (id' : string) :
  loop_body hlp conn mbox rm consume item ledger = Abort ev ledger1 e ->
  (finalized mbox ledger1 id' <-> finalized mbox ledger id').
Proof.
  intros H.
  destruct (loop_body_abort _ _ _ _ _ H) as (id & num & _ & _ & _ & [->|(pk & row & Hg)]);
    [tauto|].
  destruct (get_or_create_spec mbox _ _ _ _ _ _ Hg) as (_ & _ & _ & [->|[-> Hu]]); [tauto|].
  rewrite !finalized_iff. split; intros (r & Hin & Hrest); exists r.
  - split; [|assumption]. apply in_app_iff in Hin. destruct Hin as [?|[<-|[]]]; [assumption|].
    rewrite Hu in Hrest. destruct Hrest as (_ & _ & ?). discriminate.
  - split; [|assumption]. apply in_app_iff. now left.
Qed.

End LoopBody.

(** The identifiers of a listing, in order. *)
Definition listed_ids (items : list (option string * string)) : list string :=
  flat_map (fun it => match fst it with Some id => [id] | None => [] end) items.

Lemma listed_ids_In (items : list (option string * string)) (id : string) :
  In id (listed_ids items) <-> exists num, In (Some id, num) items.
Proof.
  unfold listed_ids. rewrite in_flat_map. split.
  - intros ([[i|] num] & Hin & H); cbn in H; [|contradiction].
    destruct H as [->|[]]. now exists num.
  - intros (num & Hin). exists (Some id, num). split; [assumption | now left].
Qed.

(** How many events of a run moved the identifier to Read or
    Unprocessable. *)
Definition finalizations (id : string) (evs : list event) : nat :=
  List.length (filter (fun e => String.eqb (event_id e) id && finalizing e) evs).

Lemma finalizations_app (id : string) (evs1 evs2 : list event) :
  finalizations id (evs1 ++ evs2)%list = finalizations id evs1 + finalizations id evs2.
Proof.
  unfold finalizations. now rewrite filter_app, length_app.
Qed.

Lemma finalizations_absent (id : string) (evs : list event) :
  ~ In id (map event_id evs) -> finalizations id evs = 0.
Proof.
  unfold finalizations. induction evs as [|e evs IH]; cbn [filter map In]; [reflexivity|].
  intros H. destruct (String.eqb (event_id e) id) eqn:E.
  - apply String.eqb_eq in E. tauto.
  - cbn [andb]. apply IH. tauto.
Qed.

Lemma finalizations_NoDup (id : string) (evs : list event) :
  NoDup (map event_id evs) -> finalizations id evs <= 1.
Proof.
  induction evs as [|e evs IH]; cbn [map]; [cbn; lia|].
  intros H. apply NoDup_cons_iff in H. destruct H as [Hn Hd].
  unfold finalizations. cbn [filter].
  destruct (String.eqb (event_id e) id) eqn:E; cbn [andb]; [|now apply IH].
  apply String.eqb_eq in E. rewrite E in Hn.
  pose proof (finalizations_absent id evs Hn) as H0. unfold finalizations in H0.
  destruct (finalizing e); cbn [List.length]; lia.
Qed.

Lemma finalizations_pos (id : string) (evs : list event) :
  0 < finalizations id evs ->
  exists ev, In ev evs /\ event_id ev = id /\ finalizing ev = true.
Proof.
  unfold finalizations. intros H.
  destruct (filter (fun e => String.eqb (event_id e) id && finalizing e) evs)
    as [|ev t] eqn:E; [cbn in H; lia|].
  assert (Hin : In ev (filter (fun e => String.eqb (event_id e) id && finalizing e) evs)).
  { rewrite E. now left. }
  apply filter_In in Hin. destruct Hin as [Hin Hb].
  apply andb_true_iff in Hb. destruct Hb as [Hi Hf]. apply String.eqb_eq in Hi.
  exists ev. auto.
Qed.

(** What the session and the parser did for the message of an event. *)
Definition caused (hlp : Helpers) (conn : POP3) (consume : EmailMessageDto -> reaction)
    (ev : event) : Prop :=
  match ev with
  | FetchFailed _ num _ _ => pop3_retr conn num = Raise error_proto
  | Unprocessable _ num _ _ =>
      exists m e, pop3_retr conn num = Ok m /\ to_mail_message_dto hlp m = Raise e
                  /\ is_ValueError e = true
  | Yielded _ num _ _ dto r =>
      exists m, pop3_retr conn num = Ok m /\ to_mail_message_dto hlp m = Ok dto
                /\ r = consume dto
  | Interrupted _ num e =>
      e = MultipleObjectsReturned
      \/ (pop3_retr conn num = Raise e /\ e <> error_proto)
      \/ (exists m, pop3_retr conn num = Ok m /\ to_mail_message_dto hlp m = Raise e
                    /\ is_ValueError e = false)
  end.

Section Iterate.

Variable hlp : Helpers.
Variable mbox : string.
Variable conn : POP3.
Variable rm : list string.
Variable consume : EmailMessageDto -> reaction.

Local Abbreviation run := (iterate hlp conn mbox rm consume).
Local Abbreviation body := (loop_body hlp conn mbox rm consume).

Lemma iterate_cons (item : option string * string) (rest : list (option string * string))
    (ledger : list MailReadStatus) :
  run (item :: rest) ledger =
  match body item ledger with
  | Skip => run rest ledger
  | Abort ev l e => (l, [ev], Some e)
  | Emit ev l => then_event ev (run rest l)
  end.
Proof. reflexivity. Qed.

Lemma handled_caused (l1 l2 : list MailReadStatus) (id num : string) (pk : nat)
    (row : MailReadStatus) (ev : event) :
  handled hlp conn consume l1 id num pk row ev l2 -> caused hlp conn consume ev.
Proof.
  intros H. destruct H; cbn [caused]; eauto.
Qed.

Lemma loop_body_abort_caused (item : option string * string)
    (ledger ledger1 : list MailReadStatus) (ev : event) (e : exn) :
  body item ledger = Abort ev ledger1 e -> caused hlp conn consume ev.
Proof.
  unfold loop_body. destruct item as [[id|] num]; [|discriminate].
  destruct (existsb (String.eqb id) rm); [discriminate|].
  destruct (get_or_create id num mbox ledger) as [[[pk row] l1]|e0] eqn:Eg.
  - destruct (pop3_retr conn num) as [m|e1] eqn:Er.
    + destruct (to_mail_message_dto hlp m) as [dto|e2] eqn:Ed; [discriminate|].
      destruct (is_ValueError e2) eqn:Ev; [discriminate|].
      intros [= <- _ _]. cbn [caused]. right. right. now exists m.
    + intros H. assert (He : e1 <> error_proto) by (intros ->; discriminate).
      destruct e1; try discriminate; injection H as <- _ _; cbn [caused]; right; left;
        split; auto.
  - intros [= <- _ _]. cbn [caused]. left.
    unfold get_or_create in Eg.
    destruct (lookup_rows id num mbox 0 ledger) as [|[i r] [|? ?]]; congruence.
Qed.

(** Every event is the one of a listed pair of identifier and message
    number, outside the snapshot, and tells what was done for it. *)
Lemma iterate_events (items : list (option string * string))
    (ledger ledger' : list MailReadStatus) (evs : list event) (x : option exn) :
  run items ledger = (ledger', evs, x) ->
  forall ev, In ev evs ->
    ~ In (event_id ev) rm /\ In (Some (event_id ev), event_num ev) items
    /\ caused hlp conn consume ev.
Proof.
  revert ledger ledger' evs x.
  induction items as [|item rest IH]; intros ledger ledger' evs x.
  - intros [= <- <- <-] ev [].
  - rewrite iterate_cons. destruct (body item ledger) as [|ev0 l e|ev0 l] eqn:Eb.
    + intros H ev Hin. destruct (IH _ _ _ _ H ev Hin) as (H1 & H2 & H3).
      repeat split; auto. now right.
    + intros [= <- <- <-] ev [<-|[]].
      pose proof (loop_body_abort_caused _ _ _ _ _ Eb) as Hc.
      destruct (loop_body_abort _ _ _ _ _ _ _ _ _ _ Eb) as (id & num & -> & Hrm & -> & _).
      cbn [event_id event_num]. repeat split; auto. now left.
    + destruct (run rest l) as [[l' evs'] x'] eqn:Er. cbn [then_event].
      intros [= <- <- <-] ev [<-|Hin].
      * destruct (loop_body_emit _ _ _ _ _ _ _ _ _ Eb)
          as (id & num & pk & row & l1 & -> & Hrm & Hid & Hnum & _ & Hh).
        rewrite Hid, Hnum. repeat split; auto; [now left|].
        exact (handled_caused _ _ _ _ _ _ _ Hh).
      * destruct (IH _ _ _ _ Er ev Hin) as (H1 & H2 & H3).
        repeat split; auto. now right.
Qed.

Lemma iterate_events_listed (items : list (option string * string))
    (ledger ledger' : list MailReadStatus) (evs : list event) (x : option exn) :
  run items ledger = (ledger', evs, x) ->
  forall ev, In ev evs -> In (event_id ev) (listed_ids items).
Proof.
  intros H ev Hin. destruct (iterate_events _ _ _ _ _ H ev Hin) as (_ & Hl & _).
  apply listed_ids_In. now exists (event_num ev).
Qed.

(** An identifier without an event is finalized after the run exactly when
    it was before. *)
Lemma iterate_untouched (items : list (option string * string))
    (ledger ledger' : list MailReadStatus) (evs : list event) (x : option exn) :
  run items ledger = (ledger', evs, x) ->
  forall id, ~ In id (map event_id evs) ->
  (finalized mbox ledger' id <-> finalized mbox ledger id).
Proof.
  revert ledger ledger' evs x.
  induction items as [|item rest IH]; intros ledger ledger' evs x.
  - intros [= <- <- <-]. tauto.
  - rewrite iterate_cons. destruct (body item ledger) as [|ev0 l e|ev0 l] eqn:Eb.
    + apply IH.
    + intros [= <- <- <-] id _.
      exact (abort_finalized hlp mbox conn rm consume _ _ _ _ _ id Eb).
    + destruct (run rest l) as [[l' evs'] x'] eqn:Er. cbn [then_event].
      intros [= <- <- <-] id Hn. cbn [map In] in Hn.
      rewrite (IH _ _ _ _ Er id) by tauto.
      destruct (loop_body_emit _ _ _ _ _ _ _ _ _ Eb)
        as (id0 & num & pk & row & l1 & _ & _ & Hid & _ & Hg & Hh).
      eapply handled_finalized_others; [exact Hg | exact Hh |]. intros ->. tauto.
Qed.

(** A listing without repeated identifiers gives events without repeated
    identifiers. *)
Lemma iterate_NoDup (items : list (option string * string))
    (ledger ledger' : list MailReadStatus) (evs : list event) (x : option exn) :
  run items ledger = (ledger', evs, x) ->
  NoDup (listed_ids items) -> NoDup (map event_id evs).
Proof.
  revert ledger ledger' evs x.
  induction items as [|item rest IH]; intros ledger ledger' evs x.
  - intros [= <- <- <-] _. constructor.
  - rewrite iterate_cons. destruct (body item ledger) as [|ev0 l e|ev0 l] eqn:Eb.
    + intros H Hd. apply (IH _ _ _ _ H).
      unfold listed_ids in Hd. cbn [flat_map] in Hd. now apply NoDup_app_remove_l in Hd.
    + intros [= <- <- <-] _. repeat constructor. intros [].
    + destruct (run rest l) as [[l' evs'] x'] eqn:Er. cbn [then_event].
      intros [= <- <- <-] Hd.
      destruct (loop_body_emit _ _ _ _ _ _ _ _ _ Eb)
        as (id0 & num & pk & row & l1 & -> & _ & Hid & _).
      unfold listed_ids in Hd. cbn [flat_map fst] in Hd.
      change ([id0] ++ flat_map (fun it => match fst it with
                                          | Some id => [id]
                                          | None => []
                                          end) rest)%list
        with (id0 :: listed_ids rest) in Hd.
      apply NoDup_cons_iff in Hd. destruct Hd as [Hn Hd].
      cbn [map]. constructor; [|now apply (IH _ _ _ _ Er)].
      rewrite Hid. intros Hin. apply in_map_iff in Hin. destruct Hin as (ev & He & Hin).
      apply Hn. rewrite <- He. apply (iterate_events_listed _ _ _ _ _ Er ev Hin).
Qed.

(** With events of pairwise distinct identifiers, an identifier that was
    not finalized is finalized after the run exactly when its event is a
    finalizing one. *)
Lemma iterate_finalized (items : list (option string * string))
    (ledger ledger' : list MailReadStatus) (evs : list event) (x : option exn) :
  run items ledger = (ledger', evs, x) ->
  NoDup (map event_id evs) ->
  forall ev, In ev evs -> ~ finalized mbox ledger (event_id ev) ->
  (finalized mbox ledger' (event_id ev) <-> finalizing ev = true).
Proof.
  revert ledger ledger' evs x.
  induction items as [|item rest IH]; intros ledger ledger' evs x.
  - intros [= <- <- <-] _ ev [].
  - rewrite iterate_cons. destruct (body item ledger) as [|ev0 l e|ev0 l] eqn:Eb.
    + apply IH.
    + intros [= <- <- <-] _ ev [<-|[]] Hnf.
      rewrite (abort_finalized hlp mbox conn rm consume _ _ _ _ _ (event_id ev0) Eb).
      destruct (loop_body_abort _ _ _ _ _ _ _ _ _ _ Eb) as (id & num & _ & _ & -> & _).
      cbn [finalizing]. split; [contradiction | discriminate].
    + destruct (run rest l) as [[l' evs'] x'] eqn:Er. cbn [then_event].
      intros [= <- <- <-] Hd ev Hin Hnf. cbn [map] in Hd.
      apply NoDup_cons_iff in Hd. destruct Hd as [Hn Hd].
      destruct (loop_body_emit _ _ _ _ _ _ _ _ _ Eb)
        as (id0 & num & pk & row & l1 & _ & _ & Hid & _ & Hg & Hh).
      destruct Hin as [<-|Hin].
      * rewrite (iterate_untouched _ _ _ _ _ Er _ Hn). rewrite Hid in *.
        eapply handled_finalized_own; [exact Hg | exact Hh | exact Hnf].
      * assert (Hne : event_id ev <> id0).
        { intros E. apply Hn. rewrite Hid, <- E. now apply in_map. }
        apply (IH _ _ _ _ Er Hd ev Hin).
        intros Hf. apply Hnf.
        exact (proj1 (handled_finalized_others hlp mbox conn consume _ _ _ _ _ _ _ _ _
                        Hg Hh Hne) Hf).
Qed.

(** A run that ends without exception has an event for every listed pair
    whose identifier is outside the snapshot. *)
Lemma iterate_complete (items : list (option string * string))
    (ledger ledger' : list MailReadStatus) (evs : list event) :
  run items ledger = (ledger', evs, None) ->
  forall id num, In (Some id, num) items -> ~ In id rm ->
  exists ev, In ev evs /\ event_id ev = id /\ event_num ev = num.
Proof.
  revert ledger ledger' evs.
  induction items as [|item rest IH]; intros ledger ledger' evs.
  - intros _ id num [].
  - rewrite iterate_cons.
    destruct (body item ledger) as [|ev0 l e|ev0 l] eqn:Eb.
    + intros H id num [->|Hin] Hrm.
      * exfalso. apply Hrm.
        exact (loop_body_skip hlp mbox conn rm consume _ _ Eb id eq_refl).
      * apply (IH _ _ _ H id num Hin Hrm).
    + discriminate.
    + destruct (run rest l) as [[l' evs'] x'] eqn:Er. cbn [then_event].
      intros [= <- <- ->] id num Hin Hrm.
      destruct (loop_body_emit _ _ _ _ _ _ _ _ _ Eb)
        as (id0 & num0 & pk & row & l1 & -> & _ & Hid & Hnum & _).
      destruct Hin as [[= <- <-]|Hin].
      * exists ev0. repeat split; auto. now left.
      * destruct (IH _ _ _ Er id num Hin Hrm) as (ev & Hev & H1 & H2).
        exists ev. repeat split; auto. now right.
Qed.

(** The exception that ended a run is the one of its interrupted message. *)
Lemma iterate_interrupted (items : list (option string * string))
    (ledger ledger' : list MailReadStatus) (evs : list event) (x : option exn)
    (id num : string) (e : exn) :
  run items ledger = (ledger', evs, x) -> In (Interrupted id num e) evs -> x = Some e.
Proof.
  revert ledger ledger' evs x.
  induction items as [|item rest IH]; intros ledger ledger' evs x.
  - intros [= <- <- <-] [].
  - rewrite iterate_cons. destruct (body item ledger) as [|ev0 l e1|ev0 l] eqn:Eb.
    + apply IH.
    + intros [= <- <- <-] [E|[]].
      destruct (loop_body_abort _ _ _ _ _ _ _ _ _ _ Eb) as (? & ? & _ & _ & E' & _).
      rewrite E' in E. now injection E as _ _ ->.
    + destruct (run rest l) as [[l' evs'] x'] eqn:Er. cbn [then_event].
      intros [= <- <- <-] [E|Hin].
      * destruct (loop_body_emit _ _ _ _ _ _ _ _ _ Eb)
          as (? & ? & ? & ? & ? & _ & _ & _ & _ & _ & Hh).
        rewrite E in Hh. inversion Hh.
      * exact (IH _ _ _ _ Er Hin).
Qed.

End Iterate.

Section Polls.

Variable hlp : Helpers.
Variable settings : Settings.
Variable mbox : string.

(** The listing of the session gives pairwise distinct identifiers. *)
Definition distinct_listing (conn : POP3) : Prop :=
  forall ids, list_message_ids hlp settings conn = Ok ids -> NoDup (listed_ids ids).

Lemma event_id_In (evs : list event) (id : string) :
  In id (map event_id evs) <-> exists ev, In ev evs /\ event_id ev = id.
Proof.
  rewrite in_map_iff. split; intros (ev & H1 & H2); exists ev; auto.
Qed.

(** One poll of the mailbox. *)
Lemma poll_spec (conn : POP3) (consume : EmailMessageDto -> reaction)
    (ledger ledger' : list MailReadStatus) (evs : list event) (x : option exn) :
  get_message_iterator hlp settings conn mbox consume ledger = (ledger', evs, x) ->
  (forall ev, In ev evs ->
     ~ finalized mbox ledger (event_id ev) /\ caused hlp conn consume ev
     /\ exists ids, list_message_ids hlp settings conn = Ok ids
                    /\ In (Some (event_id ev), event_num ev) ids)
  /\ (forall id, finalized mbox ledger id -> finalized mbox ledger' id)
  /\ (distinct_listing conn ->
      NoDup (map event_id evs)
      /\ forall ev, In ev evs ->
           (finalized mbox ledger' (event_id ev) <-> finalizing ev = true))
  /\ (x = None ->
      forall ids id num, list_message_ids hlp settings conn = Ok ids ->
        In (Some id, num) ids -> ~ finalized mbox ledger id ->
        exists ev, In ev evs /\ event_id ev = id /\ event_num ev = num).
Proof.
  unfold get_message_iterator.
  destruct (list_message_ids hlp settings conn) as [ids|e] eqn:El.
  - cbv zeta. intros H.
    assert (H1 : forall ev, In ev evs -> ~ finalized mbox ledger (event_id ev)).
    { intros ev Hin. apply (iterate_events _ _ _ _ _ _ _ _ _ _ H ev Hin). }
    split; [|split; [|split]].
    + intros ev Hin. destruct (iterate_events _ _ _ _ _ _ _ _ _ _ H ev Hin) as (_ & Hl & Hc).
      repeat split; auto. now exists ids.
    + intros id Hf. apply (iterate_untouched _ _ _ _ _ _ _ _ _ _ H); [|assumption].
      intros Hin. apply event_id_In in Hin. destruct Hin as (ev & Hin & <-).
      now apply (H1 ev Hin).
    + intros Hd. specialize (Hd ids El).
      pose proof (iterate_NoDup _ _ _ _ _ _ _ _ _ _ H Hd) as Hn.
      split; [assumption|]. intros ev Hin.
      apply (iterate_finalized _ _ _ _ _ _ _ _ _ _ H Hn ev Hin). now apply H1.
    + intros -> ids' id num [= <-] Hin Hnf.
      apply (iterate_complete _ _ _ _ _ _ _ _ _ H id num Hin). exact Hnf.
  - intros [= <- <- <-]. split; [|split; [|split]].
    + intros ev [].
    + tauto.
    + intros _. split; [constructor | intros ev []].
    + discriminate.
Qed.

Lemma polls_cons (conn : POP3) (consume : EmailMessageDto -> reaction)
    (rest : list (POP3 * (EmailMessageDto -> reaction))) (ledger : list MailReadStatus) :
  polls hlp settings mbox ((conn, consume) :: rest) ledger =
  match get_message_iterator hlp settings conn mbox consume ledger with
  | (ledger', evs, _) =>
      (evs :: fst (polls hlp settings mbox rest ledger'),
       snd (polls hlp settings mbox rest ledger'))
  end.
Proof. reflexivity. Qed.

(** An identifier finalized before a sequence of polls stays finalized and
    has no event in any of them. *)
Lemma polls_excluded (sessions : list (POP3 * (EmailMessageDto -> reaction)))
    (ledger ledger' : list MailReadStatus) (evss : list (list event)) :
  polls hlp settings mbox sessions ledger = (evss, ledger') ->
  forall id, finalized mbox ledger id ->
    finalized mbox ledger' id /\ ~ In id (map event_id (List.concat evss)).
Proof.
  revert ledger ledger' evss.
  induction sessions as [|[conn consume] rest IH]; intros ledger ledger' evss.
  - intros [= <- <-] id Hf. split; [assumption | intros []].
  - rewrite polls_cons.
    destruct (get_message_iterator hlp settings conn mbox consume ledger)
      as [[l1 evs] x] eqn:E.
    destruct (polls hlp settings mbox rest l1) as [evss1 l2] eqn:Ep. cbn [fst snd].
    intros [= <- <-] id Hf.
    destruct (poll_spec _ _ _ _ _ _ E) as (H1 & H2 & _).
    destruct (IH _ _ _ Ep id (H2 id Hf)) as [Hf2 Hn]. split; [assumption|].
    cbn [List.concat]. rewrite map_app, in_app_iff. intros [Hin|Hin]; [|tauto].
    apply event_id_In in Hin. destruct Hin as (ev & Hin & <-).
    now apply (proj1 (H1 ev Hin)).
Qed.

(** With pairwise distinct identifiers in every listing, no identifier has
    two finalizing events in a sequence of polls. *)
Lemma polls_at_most_once (sessions : list (POP3 * (EmailMessageDto -> reaction)))
    (ledger ledger' : list MailReadStatus) (evss : list (list event)) :
  polls hlp settings mbox sessions ledger = (evss, ledger') ->
  (forall conn consume, In (conn, consume) sessions -> distinct_listing conn) ->
  forall id, finalizations id (List.concat evss) <= 1.
Proof.
  revert ledger ledger' evss.
  induction sessions as [|[conn consume] rest IH]; intros ledger ledger' evss.
  - intros [= <- <-] _ id. cbn. lia.
  - rewrite polls_cons.
    destruct (get_message_iterator hlp settings conn mbox consume ledger)
      as [[l1 evs] x] eqn:E.
    destruct (polls hlp settings mbox rest l1) as [evss1 l2] eqn:Ep. cbn [fst snd].
    intros [= <- <-] Hd id.
    destruct (poll_spec _ _ _ _ _ _ E) as (_ & _ & H3 & _).
    destruct (H3 (Hd conn consume (or_introl eq_refl))) as [Hn Hfin].
    assert (Hrest : finalizations id (List.concat evss1) <= 1).
    { apply (IH _ _ _ Ep). intros c k Hin. apply (Hd c k). now right. }
    cbn [List.concat]. rewrite finalizations_app.
    pose proof (finalizations_NoDup id evs Hn) as Hle.
    destruct (finalizations id evs) as [|n] eqn:En; [exact Hrest|].
    destruct (finalizations_pos id evs) as (ev & Hin & Hid & Hf); [lia|].
    assert (Hfd : finalized mbox l1 id).
    { rewrite <- Hid. now apply Hfin. }
    destruct (polls_excluded _ _ _ _ Ep id Hfd) as [_ Habs].
    rewrite (finalizations_absent id _ Habs). lia.
Qed.

End Polls.

(* ===================================================================== *)
(** * The trusted-sender filter ([get_message_id])                        *)
(* ===================================================================== *)

Section TrustedSender.

Variable hlp : Helpers.
Variable settings : Settings.

Lemma sender_line_present_In (msg_header : list string) :
  sender_line_present hlp settings msg_header = true
  <-> In (encode_utf8 hlp (SPIRE_FROM_ADDRESS settings)) msg_header.
Proof. unfold sender_line_present. apply snapshot_spec. Qed.

Lemma get_message_id_some (conn : POP3) (listing_msg id num : string) :
  get_message_id hlp settings conn listing_msg = Ok (Some id, num) ->
  exists msg_header,
    get_item (split_ws listing_msg) 0 = Ok num
    /\ pop3_top conn num = Ok msg_header
    /\ sender_line_present hlp settings msg_header = true.
Proof.
  unfold get_message_id.
  destruct (get_item (split_ws listing_msg) 0) as [n|e] eqn:En; cbn [bind]; [|discriminate].
  destruct (pop3_top conn n) as [h|e] eqn:Et; cbn [bind]; [|discriminate].
  destruct (sender_line_present hlp settings h) eqn:Es; cbn [negb]; [|discriminate].
  destruct (scan_headers hlp h 0 h None) as [m|e]; cbn [bind]; [|discriminate].
  intros [= -> <-]. exists h. auto.
Qed.

(** [get_message_id] on a header without the trusted sender line returns
    no identifier, whatever the scan of the header would have done; and an
    identifier is only ever returned for a header that holds that line. *)
Theorem get_message_id_untrusted_none (conn : POP3) (listing_msg : string) :
  (forall num msg_header,
     get_item (split_ws listing_msg) 0 = Ok num ->
     pop3_top conn num = Ok msg_header ->
     ~ In (encode_utf8 hlp (SPIRE_FROM_ADDRESS settings)) msg_header ->
     get_message_id hlp settings conn listing_msg = Ok (None, num))
  /\ (forall id num,
        get_message_id hlp settings conn listing_msg = Ok (Some id, num) ->
        exists msg_header,
          pop3_top conn num = Ok msg_header
          /\ In (encode_utf8 hlp (SPIRE_FROM_ADDRESS settings)) msg_header).
Proof.
  split.
  - intros num h Hn Ht Hs. unfold get_message_id. rewrite Hn. cbn [bind]. rewrite Ht.
    cbn [bind]. destruct (sender_line_present hlp settings h) eqn:E; [|reflexivity].
    apply sender_line_present_In in E. contradiction.
  - intros id num H. destruct (get_message_id_some _ _ _ _ H) as (h & _ & Ht & Hs).
    exists h. split; [assumption | now apply sender_line_present_In].
Qed.

(** The iterator passes only messages of the trusted sender on to the
    table, the fetch and the parser: every message with an event (fetched,
    parsed, yielded, or the one at which an exception ended the poll) was
    listed under its message number, and the header of that message number
    holds the trusted sender line; a listed message without identifier has
    no effect at all. *)
Theorem get_message_iterator_trusted_only (conn : POP3) (username : string)
    (consume : EmailMessageDto -> reaction) (ledger ledger' : list MailReadStatus)
    (evs : list event) (x : option exn) :
  get_message_iterator hlp settings conn username consume ledger = (ledger', evs, x) ->
  (forall ev, In ev evs ->
     exists mails m line msg_header,
       pop3_list conn = Ok mails /\ In m mails /\ decode_default hlp m = Ok line
       /\ get_message_id hlp settings conn line = Ok (Some (event_id ev), event_num ev)
       /\ pop3_top conn (event_num ev) = Ok msg_header
       /\ In (encode_utf8 hlp (SPIRE_FROM_ADDRESS settings)) msg_header)
  /\ (forall read_messages num l,
        loop_body hlp conn username read_messages consume (None, num) l = Skip).
Proof.
  intros H. split; [|reflexivity]. intros ev Hin. revert H.
  unfold get_message_iterator.
  destruct (list_message_ids hlp settings conn) as [ids|e] eqn:El;
    [|intros [= <- <- <-]; destruct Hin].
  cbv zeta. intros H.
  destruct (iterate_events _ _ _ _ _ _ _ _ _ _ H ev Hin) as (_ & Hl & _).
  unfold list_message_ids in El.
  destruct (pop3_list conn) as [mails|e] eqn:Em; cbn [bind] in El; [|discriminate].
  destruct (mapM_In _ _ _ _ El Hl) as (m & Hm & Hf).
  destruct (decode_default hlp m) as [line|e] eqn:Ed; cbn [bind] in Hf; [|discriminate].
  destruct (get_message_id_some _ _ _ _ Hf) as (h & _ & Ht & Hs).
  exists mails, m, line, h. repeat split; auto. now apply sender_line_present_In.
Qed.

End TrustedSender.

(** A mailbox of two messages from the trusted sender; a third header comes
    from elsewhere and ends in a folded, cut [Message-ID:] line. *)
Definition sample_helpers : Helpers :=
  mkHelpers (fun s => Ok s) (fun s => s) (fun s => Ok s)
            (fun m => if String.eqb m "garbled" then Raise (ValueError "no attachment")
                      else Ok (sample_dto None)).

Definition message_header (id : string) : list string :=
  ["From: spire@example.com"; "Message-ID: <" ++ id ++ "@example.com>"].

Definition untrusted_header : list string :=
  ["From: other@example.com"; "Message-ID:"].

Definition sample_session (first : result string) : POP3 :=
  mkPOP3 (Ok ["1 100"; "2 200"])
         (fun num => if String.eqb num "1" then Ok (message_header "a1")
                     else if String.eqb num "2" then Ok (message_header "b2")
                     else Ok untrusted_header)
         (fun num => if String.eqb num "1" then first else Ok "garbled").

Definition mark_read : EmailMessageDto -> reaction := fun _ => Mark READ.

Lemma get_message_id_untrusted_none_witness :
  (get_message_id sample_helpers sample_settings (sample_session (Ok "mail")) "3 300"
   = Ok (None, "3")
   /\ scan_headers sample_helpers untrusted_header 0 untrusted_header None
      = Raise (IndexError "list index out of range"))
  /\ exists msg_header,
       pop3_top (sample_session (Ok "mail")) "1" = Ok msg_header
       /\ In (encode_utf8 sample_helpers (SPIRE_FROM_ADDRESS sample_settings)) msg_header.
Proof.
  split; [split|].
  - apply (proj1 (get_message_id_untrusted_none sample_helpers sample_settings
                    (sample_session (Ok "mail")) "3 300") "3" untrusted_header).
    + reflexivity.
    + reflexivity.
    + cbn. intuition discriminate.
  - reflexivity.
  - apply (proj2 (get_message_id_untrusted_none sample_helpers sample_settings
                    (sample_session (Ok "mail")) "1 100") "a1" "1").
    reflexivity.
Defined.

Lemma get_message_iterator_trusted_only_witness :
  exists mails m line msg_header,
    pop3_list (sample_session (Ok "mail")) = Ok mails /\ In m mails
    /\ decode_default sample_helpers m = Ok line
    /\ get_message_id sample_helpers sample_settings (sample_session (Ok "mail")) line
       = Ok (Some "a1", "1")
    /\ pop3_top (sample_session (Ok "mail")) "1" = Ok msg_header
    /\ In (encode_utf8 sample_helpers (SPIRE_FROM_ADDRESS sample_settings)) msg_header.
Proof.
  apply (proj1 (get_message_iterator_trusted_only sample_helpers sample_settings
                  (sample_session (Ok "mail")) "lite-hmrc" mark_read []
                  [mkMailReadStatus "a1" "1" "lite-hmrc" READ;
                   mkMailReadStatus "b2" "2" "lite-hmrc" UNPROCESSABLE]
                  [Yielded "a1" "1" 0 (mkMailReadStatus "a1" "1" "lite-hmrc" UNREAD)
                           (sample_dto None) (Mark READ);
                   Unprocessable "b2" "2" 1
                                 (mkMailReadStatus "b2" "2" "lite-hmrc" UNREAD)]
                  None eq_refl)
           (Yielded "a1" "1" 0 (mkMailReadStatus "a1" "1" "lite-hmrc" UNREAD)
                    (sample_dto None) (Mark READ))).
  now left.
Defined.

(* ===================================================================== *)
(** * Polling a mailbox ([get_message_iterator])                          *)
(* ===================================================================== *)

(** The polls of a sequence run one after the other on the table the ones
    before left. *)
Lemma polls_app (hlp : Helpers) (settings : Settings) (mbox : string)
    (before after : list (POP3 * (EmailMessageDto -> reaction)))
    (ledger : list MailReadStatus) :
  polls hlp settings mbox (before ++ after) ledger
  = let r := polls hlp settings mbox before ledger in
    let r' := polls hlp settings mbox after (snd r) in
    ((fst r ++ fst r')%list, snd r').
Proof.
  revert ledger. induction before as [|[conn consume] before IH]; intros ledger.
  - change ([] ++ after)%list with after. cbn [polls fst snd].
    change ([] ++ fst (polls hlp settings mbox after ledger))%list
      with (fst (polls hlp settings mbox after ledger)).
    apply surjective_pairing.
  - change (((conn, consume) :: before) ++ after)%list
      with ((conn, consume) :: (before ++ after))%list.
    cbn [polls].
    destruct (get_message_iterator hlp settings conn mbox consume ledger) as [[l evs] x].
    rewrite IH. reflexivity.
Qed.

(** With the identifier in the list of read messages the body of the loop
    does nothing for a message of that identifier: no row is looked up or
    made, nothing is fetched or parsed. *)
Lemma loop_body_read (hlp : Helpers) (conn : POP3) (mbox : string) (rm : list string)
    (consume : EmailMessageDto -> reaction) (id num : string)
    (ledger : list MailReadStatus) :
  In id rm -> loop_body hlp conn mbox rm consume (Some id, num) ledger = Skip.
Proof.
  intros Hin. unfold loop_body.
  replace (existsb (String.eqb id) rm) with true; [reflexivity|].
  symmetry. apply existsb_exists. exists id. split; [assumption | apply String.eqb_refl].
Qed.

(** Over any sequence of polls of a mailbox, an identifier that has a row
    in status Read or Unprocessable when the sequence starts keeps one and
    is never fetched, parsed or yielded in any of the polls: no message
    with an event (the one at which an exception ended a poll included)
    has that identifier; and each poll of the sequence starts on a table
    where the identifier has such a row, so that the body of its loop
    skips every message of that identifier before the table, the fetch
    and the parser. *)
Theorem finalized_identifier_never_handled_again (hlp : Helpers) (settings : Settings)
    (mbox : string) (sessions : list (POP3 * (EmailMessageDto -> reaction)))
    (ledger ledger' : list MailReadStatus) (evss : list (list event)) (id : string) :
  polls hlp settings mbox sessions ledger = (evss, ledger') ->
  In id (get_read_messages mbox ledger) ->
  In id (get_read_messages mbox ledger')
  /\ (forall evs ev, In evs evss -> In ev evs -> event_id ev <> id)
  /\ (forall before conn consume after,
        sessions = (before ++ (conn, consume) :: after)%list ->
        let start := snd (polls hlp settings mbox before ledger) in
        polls hlp settings mbox sessions ledger
        = (let r := polls hlp settings mbox ((conn, consume) :: after) start in
           ((fst (polls hlp settings mbox before ledger) ++ fst r)%list, snd r))
        /\ In id (get_read_messages mbox start)
        /\ forall num l,
             loop_body hlp conn mbox (get_read_messages mbox start) consume (Some id, num) l
             = Skip).
Proof.
  intros H Hf. destruct (polls_excluded hlp settings mbox _ _ _ _ H id Hf) as [H1 H2].
  split; [exact H1|]. split.
  - intros evs ev Hevs Hev E. apply H2.
    apply in_map_iff. exists ev. split; [assumption|].
    apply in_concat. exists evs. auto.
  - intros before conn consume after -> start.
    assert (Hs : In id (get_read_messages mbox start)).
    { exact (proj1 (polls_excluded hlp settings mbox before ledger _ _
                      (surjective_pairing _) id Hf)). }
    split; [apply polls_app|]. split; [exact Hs|].
    intros num l. now apply loop_body_read.
Qed.

Lemma finalized_identifier_never_handled_again_witness :
  let ledger := [mkMailReadStatus "b2" "2" "lite-hmrc" UNPROCESSABLE] in
  let sessions := [(sample_session (Raise error_proto), mark_read);
                   (sample_session (Ok "mail"), mark_read)] in
  let r := polls sample_helpers sample_settings "lite-hmrc" sessions ledger in
  In "b2" (get_read_messages "lite-hmrc" (snd r))
  /\ (forall evs ev, In evs (fst r) -> In ev evs -> event_id ev <> "b2")
  /\ loop_body sample_helpers (sample_session (Ok "mail")) "lite-hmrc"
       (get_read_messages "lite-hmrc"
          (snd (polls sample_helpers sample_settings "lite-hmrc"
                  [(sample_session (Raise error_proto), mark_read)] ledger)))
       mark_read (Some "b2", "2") []
     = Skip.
Proof.
  intros ledger sessions r.
  destruct (finalized_identifier_never_handled_again sample_helpers sample_settings
              "lite-hmrc" sessions ledger (snd r) (fst r) "b2")
    as (H1 & H2 & H3).
  - apply surjective_pairing.
  - vm_compute. now left.
  - split; [exact H1|]. split; [exact H2|].
    destruct (H3 [(sample_session (Raise error_proto), mark_read)]
                 (sample_session (Ok "mail")) mark_read [] eq_refl) as (_ & _ & Hskip).
    apply Hskip.
Defined.

(** When every listing of a sequence of polls gives pairwise distinct
    identifiers, no identifier is moved to Read or Unprocessable more than
    once over the whole sequence. *)
Theorem identifier_finalized_at_most_once (hlp : Helpers) (settings : Settings)
    (mbox : string) (sessions : list (POP3 * (EmailMessageDto -> reaction)))
    (ledger ledger' : list MailReadStatus) (evss : list (list event)) (id : string) :
  polls hlp settings mbox sessions ledger = (evss, ledger') ->
  (forall conn consume, In (conn, consume) sessions ->
     forall ids, list_message_ids hlp settings conn = Ok ids -> NoDup (listed_ids ids)) ->
  finalizations id (List.concat evss) <= 1.
Proof.
  intros H Hd. exact (polls_at_most_once hlp settings mbox _ _ _ _ H Hd id).
Qed.

Ltac distinct_listing_by_computation :=
  let ids := fresh "ids" in
  let H := fresh "H" in
  intros ids H; vm_compute in H; injection H as <-;
  vm_compute; repeat constructor; cbn; intuition discriminate.

Lemma identifier_finalized_at_most_once_witness :
  let sessions := [(sample_session (Raise error_proto), mark_read);
                   (sample_session (Ok "mail"), mark_read)] in
  let r := polls sample_helpers sample_settings "lite-hmrc" sessions [] in
  finalizations "a1" (List.concat (fst r)) <= 1.
Proof.
  intros sessions r.
  apply (identifier_finalized_at_most_once sample_helpers sample_settings
           "lite-hmrc" sessions [] (snd r) (fst r) "a1").
  - apply surjective_pairing.
  - intros conn consume [[= <- <-]|[[= <- <-]|[]]]; distinct_listing_by_computation.
Defined.

(** The two polls of the sample: the first cannot fetch message 1 and
    cannot parse message 2; the second yields message 1 and skips
    message 2. *)
Example polls_ex :
  polls sample_helpers sample_settings "lite-hmrc"
        [(sample_session (Raise error_proto), mark_read);
         (sample_session (Ok "mail"), mark_read)] []
  = ([[FetchFailed "a1" "1" 0 (mkMailReadStatus "a1" "1" "lite-hmrc" UNREAD);
       Unprocessable "b2" "2" 1 (mkMailReadStatus "b2" "2" "lite-hmrc" UNREAD)];
      [Yielded "a1" "1" 0 (mkMailReadStatus "a1" "1" "lite-hmrc" UNREAD)
               (sample_dto None) (Mark READ)]],
     [mkMailReadStatus "a1" "1" "lite-hmrc" READ;
      mkMailReadStatus "b2" "2" "lite-hmrc" UNPROCESSABLE]).
Proof. reflexivity. Qed.

(** A parser that fails on the bytes of a message with a
    [UnicodeDecodeError]. *)
Definition undecodable_helpers : Helpers :=
  mkHelpers (fun s => Ok s) (fun s => s) (fun s => Ok s)
            (fun m => if String.eqb m "garbled" then Raise UnicodeDecodeError
                      else Ok (sample_dto None)).

(** [except ValueError] catches the [UnicodeDecodeError] of the parser:
    both messages are marked Unprocessable and the poll goes on to its
    end. *)
Example undecodable_ex :
  get_message_iterator undecodable_helpers sample_settings (sample_session (Ok "garbled"))
                       "lite-hmrc" mark_read []
  = ([mkMailReadStatus "a1" "1" "lite-hmrc" UNPROCESSABLE;
      mkMailReadStatus "b2" "2" "lite-hmrc" UNPROCESSABLE],
     [Unprocessable "a1" "1" 0 (mkMailReadStatus "a1" "1" "lite-hmrc" UNREAD);
      Unprocessable "b2" "2" 1 (mkMailReadStatus "b2" "2" "lite-hmrc" UNREAD)],
     None).
Proof. reflexivity. Qed.

(** One poll whose listing gives pairwise distinct identifiers.  A message
    has an event only if its identifier had no Read or Unprocessable row
    when the poll started.  A message whose fetch raised [error_proto] is
    skipped and its identifier still has no such row after the poll; one
    whose parse raised a [ValueError] (of any subclass) has one; a yielded
    one has one exactly when the consumer marked it Read or Unprocessable;
    and the message at which another exception ended the poll has none. *)
Theorem poll_outcomes (hlp : Helpers) (settings : Settings) (mbox : string)
    (conn : POP3) (consume : EmailMessageDto -> reaction)
    (ledger ledger' : list MailReadStatus) (evs : list event) (x : option exn)
    (ev : event) :
  get_message_iterator hlp settings conn mbox consume ledger = (ledger', evs, x) ->
  (forall ids, list_message_ids hlp settings conn = Ok ids -> NoDup (listed_ids ids)) ->
  In ev evs ->
  ~ In (event_id ev) (get_read_messages mbox ledger)
  /\ match ev with
     | FetchFailed id num _ _ =>
         pop3_retr conn num = Raise error_proto
         /\ ~ In id (get_read_messages mbox ledger')
     | Unprocessable id num _ _ =>
         (exists m e, pop3_retr conn num = Ok m /\ to_mail_message_dto hlp m = Raise e
                      /\ is_ValueError e = true)
         /\ In id (get_read_messages mbox ledger')
     | Yielded id num _ _ dto r =>
         (exists m, pop3_retr conn num = Ok m /\ to_mail_message_dto hlp m = Ok dto
                    /\ r = consume dto)
         /\ (In id (get_read_messages mbox ledger')
             <-> exists s, r = Mark s /\ is_final s = true)
     | Interrupted id num e =>
         x = Some e /\ ~ In id (get_read_messages mbox ledger')
     end.
Proof.
  intros H Hd Hin.
  destruct (poll_spec hlp settings mbox _ _ _ _ _ _ H) as (H1 & _ & H3 & H4).
  destruct (H3 Hd) as [_ Hfin]. specialize (Hfin ev Hin).
  destruct (H1 ev Hin) as (Hnf & Hc & _).
  split; [exact Hnf|]. unfold finalized in Hfin.
  destruct ev as [id num pk row|id num pk row|id num pk row dto r|id num e];
    cbn [event_id finalizing caused] in Hfin, Hc.
  - split; [exact Hc|]. intros Hf. apply Hfin in Hf. discriminate.
  - split; [exact Hc | now apply Hfin].
  - split; [exact Hc|]. rewrite Hfin. destruct r as [s|].
    + split; [intros Hs; now exists s | intros (s' & [= <-] & Hs); exact Hs].
    + split; [discriminate | intros (s' & [=] & _)].
  - split; [|intros Hf; apply Hfin in Hf; discriminate].
    revert H. unfold get_message_iterator.
    destruct (list_message_ids hlp settings conn) as [ids|e0];
      [|intros [= <- <- <-]; destruct Hin].
    cbv zeta. intros H. exact (iterate_interrupted _ _ _ _ _ _ _ _ _ _ _ _ _ H Hin).
Qed.

Lemma poll_outcomes_witness :
  let r := get_message_iterator sample_helpers sample_settings
             (sample_session (Raise error_proto)) "lite-hmrc" mark_read [] in
  ~ In "a1" (get_read_messages "lite-hmrc" (fst (fst r)))
  /\ In "b2" (get_read_messages "lite-hmrc" (fst (fst r))).
Proof.
  intros r. split.
  - apply (proj2 (poll_outcomes sample_helpers sample_settings "lite-hmrc"
                    (sample_session (Raise error_proto)) mark_read [] (fst (fst r))
                    (snd (fst r)) (snd r)
                    (FetchFailed "a1" "1" 0 (mkMailReadStatus "a1" "1" "lite-hmrc" UNREAD))
                    eq_refl ltac:(distinct_listing_by_computation)
                    ltac:(vm_compute; auto))).
  - apply (proj2 (poll_outcomes sample_helpers sample_settings "lite-hmrc"
                    (sample_session (Raise error_proto)) mark_read [] (fst (fst r))
                    (snd (fst r)) (snd r)
                    (Unprocessable "b2" "2" 1 (mkMailReadStatus "b2" "2" "lite-hmrc" UNREAD))
                    eq_refl ltac:(distinct_listing_by_computation)
                    ltac:(vm_compute; auto))).
Defined.

(** A poll that ends without an exception has an event of its own for
    every listed message of the trusted sender whose identifier had no Read
    or Unprocessable row when the poll started, message number by message
    number: each was fetched (or its fetch failed on the transport).  So a
    message left unread by a failed fetch is tried again by the next such
    poll that lists it. *)
Theorem poll_handles_every_unread (hlp : Helpers) (settings : Settings) (mbox : string)
    (conn : POP3) (consume : EmailMessageDto -> reaction)
    (ledger ledger' : list MailReadStatus) (evs : list event)
    (ids : list (option string * string)) (id num : string) :
  get_message_iterator hlp settings conn mbox consume ledger = (ledger', evs, None) ->
  list_message_ids hlp settings conn = Ok ids ->
  In (Some id, num) ids ->
  ~ In id (get_read_messages mbox ledger) ->
  exists ev,
    In ev evs /\ event_id ev = id /\ event_num ev = num
    /\ match ev with
       | FetchFailed _ _ _ _ => pop3_retr conn num = Raise error_proto
       | Unprocessable _ _ _ _ | Yielded _ _ _ _ _ _ => exists m, pop3_retr conn num = Ok m
       | Interrupted _ _ _ => False
       end.
Proof.
  intros H Hl Hin Hnf.
  destruct (poll_spec hlp settings mbox _ _ _ _ _ _ H) as (H1 & _ & _ & H4).
  destruct (H4 eq_refl ids id num Hl Hin Hnf) as (ev & Hev & Hid & Hnum).
  exists ev. repeat split; auto.
  destruct (H1 ev Hev) as (_ & Hc & _).
  destruct ev as [i n pk row|i n pk row|i n pk row dto r|i n e];
    cbn [event_num caused] in Hnum, Hc; subst n.
  - exact Hc.
  - destruct Hc as (m & e & Hm & _). now exists m.
  - destruct Hc as (m & Hm & _). now exists m.
  - revert H. unfold get_message_iterator. rewrite Hl. cbv zeta. intros H.
    pose proof (iterate_interrupted _ _ _ _ _ _ _ _ _ _ _ _ _ H Hev). discriminate.
Qed.

Lemma poll_handles_every_unread_witness :
  let ledger := [mkMailReadStatus "a1" "1" "lite-hmrc" UNREAD;
                 mkMailReadStatus "b2" "2" "lite-hmrc" UNPROCESSABLE] in
  exists ev,
    In ev (snd (fst (get_message_iterator sample_helpers sample_settings
                       (sample_session (Ok "mail")) "lite-hmrc" mark_read ledger)))
    /\ event_id ev = "a1" /\ event_num ev = "1"
    /\ match ev with
       | FetchFailed _ _ _ _ =>
           pop3_retr (sample_session (Ok "mail")) "1" = Raise error_proto
       | Unprocessable _ _ _ _ | Yielded _ _ _ _ _ _ =>
           exists m, pop3_retr (sample_session (Ok "mail")) "1" = Ok m
       | Interrupted _ _ _ => False
       end.
Proof.
  intros ledger.
  apply (poll_handles_every_unread sample_helpers sample_settings "lite-hmrc"
           (sample_session (Ok "mail")) mark_read ledger
           [mkMailReadStatus "a1" "1" "lite-hmrc" READ;
            mkMailReadStatus "b2" "2" "lite-hmrc" UNPROCESSABLE]
           _ [(Some "a1", "1"); (Some "b2", "2")] "a1" "1").
  - reflexivity.
  - reflexivity.
  - now left.
  - vm_compute. intuition discriminate.
Defined.

Section Frame.

Variable hlp : Helpers.
Variable mbox : string.
Variable conn : POP3.
Variable rm : list string.
Variable consume : EmailMessageDto -> reaction.

Lemma get_or_create_length (id num : string) (ledger ledger1 : list MailReadStatus)
    (pk : nat) (row : MailReadStatus) :
  get_or_create id num mbox ledger = Ok (pk, row, ledger1) ->
  List.length ledger <= List.length ledger1.
Proof.
  intros Hg.
  destruct (get_or_create_spec mbox _ _ _ _ _ _ Hg) as (_ & _ & _ & [->|[-> _]]);
    [lia | rewrite length_app; lia].
Qed.

Lemma get_or_create_frame (id num : string) (ledger ledger1 : list MailReadStatus)
    (pk : nat) (row r : MailReadStatus) :
  get_or_create id num mbox ledger = Ok (pk, row, ledger1) ->
  message_id r <> id \/ mailbox r <> mbox ->
  (In r ledger1 <-> In r ledger).
Proof.
  intros Hg Hr.
  destruct (get_or_create_spec mbox _ _ _ _ _ _ Hg) as (_ & Hid & Hmb & [->|[-> _]]).
  - tauto.
  - rewrite in_app_iff. cbn [In].
    split; [|tauto]. intros [?|[<-|[]]]; [assumption|]. tauto.
Qed.

Lemma mark_status_frame (ledger : list MailReadStatus) (pk : nat)
    (row r : MailReadStatus) (s : MailReadStatuses) :
  nth_error ledger pk = Some row ->
  message_id r <> message_id row \/ mailbox r <> mailbox row ->
  (In r (mark_status pk row s ledger) <-> In r ledger).
Proof.
  intros Hn Hr. unfold mark_status. split.
  - intros H. apply update_In in H. destruct H as [->|H]; [|assumption].
    cbn in Hr. tauto.
  - intros H. destruct (update_In_inv ledger pk (set_status row s) r H) as [?|E];
      [assumption|]. rewrite Hn in E. injection E as ->. tauto.
Qed.

Lemma handled_length (ledger1 ledger2 : list MailReadStatus) (id num : string)
    (pk : nat) (row : MailReadStatus) (ev : event) :
  handled hlp conn consume ledger1 id num pk row ev ledger2 ->
  List.length ledger2 = List.length ledger1.
Proof.
  intros Hh. destruct Hh; unfold mark_status; now rewrite ?update_length.
Qed.

Lemma handled_frame (ledger ledger1 ledger2 : list MailReadStatus) (id num : string)
    (pk : nat) (row : MailReadStatus) (ev : event) (r : MailReadStatus) :
  get_or_create id num mbox ledger = Ok (pk, row, ledger1) ->
  handled hlp conn consume ledger1 id num pk row ev ledger2 ->
  message_id r <> id \/ mailbox r <> mbox ->
  (In r ledger2 <-> In r ledger).
Proof.
  intros Hg Hh Hr.
  pose proof (get_or_create_frame _ _ _ _ _ _ r Hg Hr) as Hin.
  destruct (get_or_create_spec mbox _ _ _ _ _ _ Hg) as (Hn & Hid & Hmb & _).
  assert (Hr' : message_id r <> message_id row \/ mailbox r <> mailbox row)
    by (rewrite Hid, Hmb; exact Hr).
  destruct Hh; try exact Hin; rewrite <- Hin; now apply mark_status_frame.
Qed.

(** A run leaves every row of another mailbox and every row of an
    identifier that is not listed as it found it, and removes no row. *)
Lemma iterate_frame (items : list (option string * string))
    (ledger ledger' : list MailReadStatus) (evs : list event) (x : option exn) :
  iterate hlp conn mbox rm consume items ledger = (ledger', evs, x) ->
  List.length ledger <= List.length ledger'
  /\ forall r, mailbox r <> mbox \/ ~ In (message_id r) (listed_ids items) ->
       (In r ledger' <-> In r ledger).
Proof.
  revert ledger ledger' evs x.
  induction items as [|item rest IH]; intros ledger ledger' evs x.
  - intros [= <- <- <-]. split; [lia | tauto].
  - rewrite iterate_cons.
    assert (Hrest : forall r,
               mailbox r <> mbox \/ ~ In (message_id r) (listed_ids (item :: rest)) ->
               mailbox r <> mbox \/ ~ In (message_id r) (listed_ids rest)).
    { intros r [H|H]; [now left | right]. intros Hin. apply H.
      unfold listed_ids. cbn [flat_map]. apply in_app_iff. now right. }
    assert (Hhead : forall r id num, item = (Some id, num) ->
               mailbox r <> mbox \/ ~ In (message_id r) (listed_ids (item :: rest)) ->
               message_id r <> id \/ mailbox r <> mbox).
    { intros r id num -> [H|H]; [now right | left]. intros E. apply H.
      cbn. now left. }
    destruct (loop_body hlp conn mbox rm consume item ledger) as [|ev0 l e|ev0 l] eqn:Eb.
    + intros H. destruct (IH _ _ _ _ H) as [Hlen Hin].
      split; [assumption|]. intros r Hr. apply Hin. now apply Hrest.
    + intros [= <- <- <-].
      destruct (loop_body_abort _ _ _ _ _ _ _ _ _ _ Eb)
        as (id & num & Hitem & _ & _ & [->|(pk & row & Hg)]); [split; [lia|tauto]|].
      split; [exact (get_or_create_length _ _ _ _ _ _ Hg)|].
      intros r Hr.
      apply (get_or_create_frame _ _ _ _ _ _ r Hg (Hhead r id num Hitem Hr)).
    + destruct (iterate hlp conn mbox rm consume rest l) as [[l' evs'] x'] eqn:Er.
      cbn [then_event]. intros [= <- <- <-].
      destruct (IH _ _ _ _ Er) as [Hlen Hin].
      destruct (loop_body_emit _ _ _ _ _ _ _ _ _ Eb)
        as (id & num & pk & row & l1 & Hitem & _ & _ & _ & Hg & Hh).
      split.
      * pose proof (get_or_create_length _ _ _ _ _ _ Hg).
        pose proof (handled_length _ _ _ _ _ _ _ Hh). lia.
      * intros r Hr. rewrite (Hin r (Hrest r Hr)).
        apply (handled_frame _ _ _ _ _ _ _ _ r Hg Hh (Hhead r id num Hitem Hr)).
Qed.

End Frame.

(** A poll removes no row of the table and leaves alone every row of
    another mailbox and every row whose identifier the listing does not
    give. *)
Theorem get_message_iterator_frame (hlp : Helpers) (settings : Settings) (mbox : string)
    (conn : POP3) (consume : EmailMessageDto -> reaction)
    (ledger ledger' : list MailReadStatus) (evs : list event) (x : option exn) :
  get_message_iterator hlp settings conn mbox consume ledger = (ledger', evs, x) ->
  List.length ledger <= List.length ledger'
  /\ forall r,
       mailbox r <> mbox
       \/ (forall ids, list_message_ids hlp settings conn = Ok ids ->
             ~ In (message_id r) (listed_ids ids)) ->
       (In r ledger' <-> In r ledger).
Proof.
  unfold get_message_iterator.
  destruct (list_message_ids hlp settings conn) as [ids|e] eqn:El.
  - cbv zeta. intros H. destruct (iterate_frame _ _ _ _ _ _ _ _ _ _ H) as [Hlen Hin].
    split; [assumption|]. intros r [Hr|Hr]; apply Hin; [now left | right].
    now apply Hr.
  - intros [= <- <- <-]. split; [lia | tauto].
Qed.

Lemma get_message_iterator_frame_witness :
  let ledger := [mkMailReadStatus "a1" "1" "other-mailbox" UNREAD;
                 mkMailReadStatus "c3" "7" "lite-hmrc" UNREAD] in
  let r := get_message_iterator sample_helpers sample_settings
             (sample_session (Ok "mail")) "lite-hmrc" mark_read ledger in
  In (mkMailReadStatus "a1" "1" "other-mailbox" UNREAD) (fst (fst r))
  /\ In (mkMailReadStatus "c3" "7" "lite-hmrc" UNREAD) (fst (fst r)).
Proof.
  intros ledger r.
  destruct (get_message_iterator_frame sample_helpers sample_settings "lite-hmrc"
              (sample_session (Ok "mail")) mark_read ledger (fst (fst r))
              (snd (fst r)) (snd r) eq_refl) as [_ H].
  split.
  - apply H; [left; discriminate | now left].
  - apply H; [right | right; now left].
    distinct_listing_by_computation.
Defined.

Lemma lookup_rows_none (id num mbox : string) (k : nat) (ledger : list MailReadStatus) :
  (forall r, In r ledger -> same_key id num mbox r = false) ->
  lookup_rows id num mbox k ledger = [].
Proof.
  revert k; induction ledger as [|a t IH]; intros k H; cbn [lookup_rows]; [reflexivity|].
  rewrite (H a (or_introl eq_refl)). apply IH. intros r Hr. apply H. now right.
Qed.

Lemma same_key_other_id (id num mbox : string) (r : MailReadStatus) :
  message_id r <> id -> same_key id num mbox r = false.
Proof.
  intros H. unfold same_key. apply String.eqb_neq in H. now rewrite H.
Qed.

Lemma same_key_other_num (id num mbox : string) (r : MailReadStatus) :
  message_num r <> num -> same_key id num mbox r = false.
Proof.
  intros H. unfold same_key. apply String.eqb_neq in H. rewrite H.
  now rewrite andb_false_r.
Qed.

Lemma update_app_last {A : Type} (l : list A) (x y : A) :
  update (l ++ [x])%list (List.length l) y = (l ++ [y])%list.
Proof.
  induction l as [|h t IH]; cbn; [reflexivity | now rewrite IH].
Qed.

Lemma not_read_before (mbox id : string) (ledger : list MailReadStatus) :
  (forall r, In r ledger -> message_id r <> id) ->
  existsb (String.eqb id) (get_read_messages mbox ledger) = false.
Proof.
  intros H. destruct (existsb (String.eqb id) (get_read_messages mbox ledger)) eqn:E;
    [|reflexivity].
  apply snapshot_spec in E. apply (finalized_iff mbox) in E.
  destruct E as (r & Hin & Hid & _). now destruct (H r Hin).
Qed.

(** The identifiers already read are looked up once, before the loop: when
    a listing gives the same identifier under two message numbers and the
    table has no row of it yet, both messages are yielded in the same
    poll, and the consumer that marks each one Read finalizes the
    identifier twice. *)
Theorem listed_twice_yielded_twice (hlp : Helpers) (settings : Settings) (mbox : string)
    (conn : POP3) (consume : EmailMessageDto -> reaction)
    (ledger : list MailReadStatus) (id n1 n2 m1 m2 : string) (d1 d2 : EmailMessageDto) :
  list_message_ids hlp settings conn = Ok [(Some id, n1); (Some id, n2)] ->
  n1 <> n2 ->
  (forall r, In r ledger -> message_id r <> id) ->
  pop3_retr conn n1 = Ok m1 -> to_mail_message_dto hlp m1 = Ok d1 ->
  pop3_retr conn n2 = Ok m2 -> to_mail_message_dto hlp m2 = Ok d2 ->
  consume d1 = Mark READ -> consume d2 = Mark READ ->
  let evs :=
    [Yielded id n1 (List.length ledger) (mkMailReadStatus id n1 mbox UNREAD) d1 (Mark READ);
     Yielded id n2 (S (List.length ledger)) (mkMailReadStatus id n2 mbox UNREAD) d2
             (Mark READ)] in
  get_message_iterator hlp settings conn mbox consume ledger
  = ((ledger ++ [mkMailReadStatus id n1 mbox READ; mkMailReadStatus id n2 mbox READ])%list,
     evs, None)
  /\ finalizations id evs = 2.
Proof.
  intros Hl Hn Hfresh Hr1 Hd1 Hr2 Hd2 Hc1 Hc2 evs. split.
  - unfold get_message_iterator. rewrite Hl. cbv zeta.
    cbn [iterate]. unfold loop_body at 1.
    rewrite (not_read_before mbox id ledger Hfresh).
    unfold get_or_create at 1. rewrite lookup_rows_none
      by (intros r Hr; apply same_key_other_id; now apply Hfresh).
    rewrite Hr1, Hd1. cbv zeta. rewrite Hc1.
    unfold mark_status at 1. rewrite update_app_last. cbn [set_status message_id
      message_num mailbox]. cbn [then_event].
    unfold loop_body. rewrite (not_read_before mbox id ledger Hfresh).
    unfold get_or_create. rewrite lookup_rows_none.
    + rewrite Hr2, Hd2. cbv zeta. rewrite Hc2. unfold mark_status.
      rewrite length_app. cbn [List.length]. rewrite Nat.add_1_r.
      replace (S (List.length ledger))
        with (List.length (ledger ++ [mkMailReadStatus id n1 mbox READ])%list)
        by (rewrite length_app; cbn; lia).
      rewrite update_app_last. rewrite <- app_assoc. cbn [app set_status message_id
        message_num mailbox]. rewrite length_app. cbn [List.length].
      rewrite Nat.add_1_r. reflexivity.
    + intros r Hr. apply in_app_iff in Hr. destruct Hr as [Hr|[<-|[]]].
      * apply same_key_other_id. now apply Hfresh.
      * apply same_key_other_num. exact Hn.
  - unfold finalizations, evs. cbn [filter event_id finalizing is_final].
    rewrite String.eqb_refl. reflexivity.
Qed.

Definition twice_listed_session : POP3 :=
  mkPOP3 (Ok ["1 100"; "2 100"]) (fun _ => Ok (message_header "a1")) (fun _ => Ok "mail").

Lemma listed_twice_yielded_twice_witness :
  get_message_iterator sample_helpers sample_settings twice_listed_session "lite-hmrc"
                       mark_read []
  = ([mkMailReadStatus "a1" "1" "lite-hmrc" READ;
      mkMailReadStatus "a1" "2" "lite-hmrc" READ],
     [Yielded "a1" "1" 0 (mkMailReadStatus "a1" "1" "lite-hmrc" UNREAD) (sample_dto None)
              (Mark READ);
      Yielded "a1" "2" 1 (mkMailReadStatus "a1" "2" "lite-hmrc" UNREAD) (sample_dto None)
              (Mark READ)],
     None).
Proof.
  apply (proj1 (listed_twice_yielded_twice sample_helpers sample_settings "lite-hmrc"
                  twice_listed_session mark_read [] "a1" "1" "2" "mail" "mail"
                  (sample_dto None) (sample_dto None) eq_refl
                  ltac:(discriminate) ltac:(intros r []) eq_refl eq_refl eq_refl eq_refl
                  eq_refl eq_refl)).
Defined.

(* ===================================================================== *)
(** * The ledger over a sequence of polls, and the sender filter          *)
(* ===================================================================== *)

(** C2 (as stated, refuted): the identifiers already read are looked up
    once, before the loop.  When a listing gives one identifier under two
    message numbers, the first message is yielded and the consumer marks
    it Read; the identifier then has a row in status Read, and the second
    message is yielded all the same, in the same poll, and marked Read
    too: the identifier is finalized twice. *)
Lemma identifier_yielded_again_counterexample :
  let first := mkMailReadStatus "a1" "1" "lite-hmrc" UNREAD in
  let second := mkMailReadStatus "a1" "2" "lite-hmrc" UNREAD in
  let ledger1 := [mkMailReadStatus "a1" "1" "lite-hmrc" READ] in
  list_message_ids sample_helpers sample_settings twice_listed_session
  = Ok [(Some "a1", "1"); (Some "a1", "2")]
  /\ loop_body sample_helpers twice_listed_session "lite-hmrc"
       (get_read_messages "lite-hmrc" []) mark_read (Some "a1", "1") []
     = Emit (Yielded "a1" "1" 0 first (sample_dto None) (Mark READ)) ledger1
  /\ In "a1" (get_read_messages "lite-hmrc" ledger1)
  /\ loop_body sample_helpers twice_listed_session "lite-hmrc"
       (get_read_messages "lite-hmrc" []) mark_read (Some "a1", "2") ledger1
     = Emit (Yielded "a1" "2" 1 second (sample_dto None) (Mark READ))
            [mkMailReadStatus "a1" "1" "lite-hmrc" READ;
             mkMailReadStatus "a1" "2" "lite-hmrc" READ]
  /\ finalizations "a1"
       (snd (fst (get_message_iterator sample_helpers sample_settings twice_listed_session
                    "lite-hmrc" mark_read [])))
     = 2.
Proof.
  intros first second ledger1.
  split; [reflexivity|]. split; [reflexivity|]. split; [now left|].
  split; reflexivity.
Qed.

(** C2 (amended): over any sequence of polls of one mailbox, with a
    consumer that reacts to each yielded pair before it resumes the
    iterator.  An identifier that has a row in status Read or Unprocessable
    when the sequence starts keeps one and no message of it is fetched,
    parsed or yielded in any of the polls.  When every listing gives
    pairwise distinct identifiers, no identifier is moved to Read or
    Unprocessable more than once.  In a poll with such a listing, a message
    whose fetch raised [error_proto] is skipped, its identifier has no Read
    or Unprocessable row after the poll, and the next poll, when it runs to
    its end and lists the identifier, handles that message again; a message
    whose parse raised a [ValueError] leaves its identifier with an
    Unprocessable row, which it keeps to the end, and no later poll
    fetches, parses or yields a message of it. *)
Theorem deduplication_ledger (hlp : Helpers) (settings : Settings) (mbox : string)
    (sessions : list (POP3 * (EmailMessageDto -> reaction)))
    (ledger ledger' : list MailReadStatus) (evss : list (list event)) :
  polls hlp settings mbox sessions ledger = (evss, ledger') ->
  (forall id, In id (get_read_messages mbox ledger) ->
     In id (get_read_messages mbox ledger')
     /\ forall evs ev, In evs evss -> In ev evs -> event_id ev <> id)
  /\ ((forall conn consume, In (conn, consume) sessions ->
         forall ids, list_message_ids hlp settings conn = Ok ids -> NoDup (listed_ids ids)) ->
      forall id, finalizations id (List.concat evss) <= 1)
  /\ (forall before conn consume after l1 evs x,
        sessions = (before ++ (conn, consume) :: after)%list ->
        (forall ids, list_message_ids hlp settings conn = Ok ids -> NoDup (listed_ids ids)) ->
        get_message_iterator hlp settings conn mbox consume
          (snd (polls hlp settings mbox before ledger)) = (l1, evs, x) ->
        forall id num pk row,
          (In (FetchFailed id num pk row) evs ->
           pop3_retr conn num = Raise error_proto
           /\ ~ In id (get_read_messages mbox l1)
           /\ forall conn' consume' rest l2 evs' ids' num',
                after = (conn', consume') :: rest ->
                get_message_iterator hlp settings conn' mbox consume' l1 = (l2, evs', None) ->
                list_message_ids hlp settings conn' = Ok ids' ->
                In (Some id, num') ids' ->
                exists ev, In ev evs' /\ event_id ev = id /\ event_num ev = num')
          /\ (In (Unprocessable id num pk row) evs ->
              (exists m e, pop3_retr conn num = Ok m /\ to_mail_message_dto hlp m = Raise e
                           /\ is_ValueError e = true)
              /\ In id (get_read_messages mbox l1)
              /\ In id (get_read_messages mbox ledger')
              /\ forall evs' ev', In evs' (fst (polls hlp settings mbox after l1)) ->
                   In ev' evs' -> event_id ev' <> id)).
Proof.
  intros H. split; [|split].
  - intros id Hf.
    destruct (polls_excluded hlp settings mbox _ _ _ _ H id Hf) as [H1 H2].
    split; [exact H1|]. intros evs ev Hevs Hev E. apply H2.
    apply in_map_iff. exists ev. split; [assumption|].
    apply in_concat. exists evs. auto.
  - intros Hd id. exact (polls_at_most_once hlp settings mbox _ _ _ _ H Hd id).
  - intros before conn consume after l1 evs x Hs Hd E id num pk row.
    destruct (poll_spec hlp settings mbox _ _ _ _ _ _ E) as (H1 & _ & H3 & _).
    destruct (H3 Hd) as [_ Hfin].
    split; intros Hin; destruct (H1 _ Hin) as (_ & Hc & _); specialize (Hfin _ Hin);
      cbn [event_id finalizing caused] in Hfin, Hc; unfold finalized in Hfin.
    + split; [exact Hc|].
      assert (Hnf : ~ In id (get_read_messages mbox l1))
        by (intros Hf; apply Hfin in Hf; discriminate).
      split; [exact Hnf|].
      intros conn' consume' rest l2 evs' ids' num' _ E' Hl Hi.
      destruct (poll_spec hlp settings mbox _ _ _ _ _ _ E') as (_ & _ & _ & H4).
      exact (H4 eq_refl ids' id num' Hl Hi Hnf).
    + assert (Hf : In id (get_read_messages mbox l1)) by now apply Hfin.
      split; [exact Hc|]. split; [exact Hf|].
      destruct (polls_excluded hlp settings mbox after l1 _ _ (surjective_pairing _) id Hf)
        as [Hend Hno].
      split.
      * rewrite Hs, polls_app in H. cbv zeta in H. rewrite polls_cons, E in H.
        cbn [snd] in H. injection H as _ <-. exact Hend.
      * intros evs' ev' Hevs Hev Heq. apply Hno.
        apply in_map_iff. exists ev'. split; [assumption|].
        apply in_concat. exists evs'. auto.
Qed.

Lemma deduplication_ledger_witness :
  let sessions := [(sample_session (Raise error_proto), mark_read);
                   (sample_session (Ok "mail"), mark_read)] in
  let r := polls sample_helpers sample_settings "lite-hmrc" sessions [] in
  finalizations "a1" (List.concat (fst r)) <= 1
  /\ (~ In "a1" (get_read_messages "lite-hmrc"
                   [mkMailReadStatus "a1" "1" "lite-hmrc" UNREAD;
                    mkMailReadStatus "b2" "2" "lite-hmrc" UNPROCESSABLE])
      /\ exists ev,
           In ev [Yielded "a1" "1" 0 (mkMailReadStatus "a1" "1" "lite-hmrc" UNREAD)
                          (sample_dto None) (Mark READ)]
           /\ event_id ev = "a1" /\ event_num ev = "1")
  /\ In "b2" (get_read_messages "lite-hmrc" (snd r)).
Proof.
  intros sessions r.
  destruct (deduplication_ledger sample_helpers sample_settings "lite-hmrc" sessions []
              (snd r) (fst r) (surjective_pairing _)) as (_ & Honce & Hpoll).
  split; [|split].
  - apply Honce.
    intros conn consume [[= <- <-]|[[= <- <-]|[]]]; distinct_listing_by_computation.
  - destruct (Hpoll [] (sample_session (Raise error_proto)) mark_read
                    [(sample_session (Ok "mail"), mark_read)]
                    [mkMailReadStatus "a1" "1" "lite-hmrc" UNREAD;
                     mkMailReadStatus "b2" "2" "lite-hmrc" UNPROCESSABLE]
                    [FetchFailed "a1" "1" 0 (mkMailReadStatus "a1" "1" "lite-hmrc" UNREAD);
                     Unprocessable "b2" "2" 1
                                   (mkMailReadStatus "b2" "2" "lite-hmrc" UNREAD)]
                    None eq_refl ltac:(distinct_listing_by_computation) eq_refl
                    "a1" "1" 0 (mkMailReadStatus "a1" "1" "lite-hmrc" UNREAD))
      as [Hfetch _].
    destruct (Hfetch ltac:(now left)) as (_ & Hnf & Hnext).
    split; [exact Hnf|].
    apply (Hnext (sample_session (Ok "mail")) mark_read []
                 [mkMailReadStatus "a1" "1" "lite-hmrc" READ;
                  mkMailReadStatus "b2" "2" "lite-hmrc" UNPROCESSABLE]
                 _ [(Some "a1", "1"); (Some "b2", "2")] "1" eq_refl eq_refl eq_refl).
    now left.
  - destruct (Hpoll [] (sample_session (Raise error_proto)) mark_read
                    [(sample_session (Ok "mail"), mark_read)]
                    [mkMailReadStatus "a1" "1" "lite-hmrc" UNREAD;
                     mkMailReadStatus "b2" "2" "lite-hmrc" UNPROCESSABLE]
                    [FetchFailed "a1" "1" 0 (mkMailReadStatus "a1" "1" "lite-hmrc" UNREAD);
                     Unprocessable "b2" "2" 1
                                   (mkMailReadStatus "b2" "2" "lite-hmrc" UNREAD)]
                    None eq_refl ltac:(distinct_listing_by_computation) eq_refl
                    "b2" "2" 1 (mkMailReadStatus "b2" "2" "lite-hmrc" UNREAD))
      as [_ Hparse].
    destruct (Hparse ltac:(right; now left)) as (_ & _ & Hend & _). exact Hend.
Defined.

(** C6: a message whose header lines do not hold the configured sender
    line gets no identifier from [get_message_id], which returns before
    the scan for [Message-ID:] (whatever that scan would have done with
    the header); an identifier is only returned for a header that holds
    the line; and only messages with an identifier go on in the iterator:
    every message that is fetched, parsed or yielded has a header with the
    line, and a listed message without identifier is skipped. *)
Theorem get_message_id_trusted_sender_only (hlp : Helpers) (settings : Settings)
    (conn : POP3) :
  (forall listing_msg num msg_header,
     get_item (split_ws listing_msg) 0 = Ok num ->
     pop3_top conn num = Ok msg_header ->
     ~ In (encode_utf8 hlp (SPIRE_FROM_ADDRESS settings)) msg_header ->
     get_message_id hlp settings conn listing_msg = Ok (None, num)
     /\ forall e, scan_headers hlp msg_header 0 msg_header None = Raise e ->
                  get_message_id hlp settings conn listing_msg <> Raise e)
  /\ (forall listing_msg id num,
        get_message_id hlp settings conn listing_msg = Ok (Some id, num) ->
        exists msg_header,
          get_item (split_ws listing_msg) 0 = Ok num
          /\ pop3_top conn num = Ok msg_header
          /\ In (encode_utf8 hlp (SPIRE_FROM_ADDRESS settings)) msg_header)
  /\ (forall username consume ledger ledger' evs x,
        get_message_iterator hlp settings conn username consume ledger = (ledger', evs, x) ->
        forall ev, In ev evs ->
          exists msg_header,
            pop3_top conn (event_num ev) = Ok msg_header
            /\ In (encode_utf8 hlp (SPIRE_FROM_ADDRESS settings)) msg_header)
  /\ (forall username read_messages consume num l,
        loop_body hlp conn username read_messages consume (None, num) l = Skip).
Proof.
  assert (Hnone : forall listing_msg num msg_header,
             get_item (split_ws listing_msg) 0 = Ok num ->
             pop3_top conn num = Ok msg_header ->
             ~ In (encode_utf8 hlp (SPIRE_FROM_ADDRESS settings)) msg_header ->
             get_message_id hlp settings conn listing_msg = Ok (None, num)).
  { intros listing_msg num h Hn Ht Hs. unfold get_message_id. rewrite Hn. cbn [bind].
    rewrite Ht. cbn [bind].
    destruct (sender_line_present hlp settings h) eqn:E; [|reflexivity].
    apply sender_line_present_In in E. contradiction. }
  split; [|split; [|split]].
  - intros listing_msg num h Hn Ht Hs. split; [now apply (Hnone _ _ h)|].
    intros e _. rewrite (Hnone _ _ h Hn Ht Hs). discriminate.
  - intros listing_msg id num H.
    destruct (get_message_id_some _ _ _ _ _ _ H) as (h & Hn & Ht & Hs).
    exists h. split; [assumption|]. split; [assumption|].
    now apply sender_line_present_In.
  - intros username consume ledger ledger' evs x H ev Hin.
    destruct (poll_spec hlp settings username _ _ _ _ _ _ H) as (H1 & _).
    destruct (H1 ev Hin) as (_ & _ & ids & Hl & Hi).
    unfold list_message_ids in Hl.
    destruct (pop3_list conn) as [mails|e] eqn:Em; cbn [bind] in Hl; [|discriminate].
    destruct (mapM_In _ _ _ _ Hl Hi) as (m & Hm & Hf).
    destruct (decode_default hlp m) as [line|e] eqn:Ed; cbn [bind] in Hf; [|discriminate].
    destruct (get_message_id_some _ _ _ _ _ _ Hf) as (h & _ & Ht & Hs).
    exists h. split; [assumption | now apply sender_line_present_In].
  - reflexivity.
Qed.

Lemma get_message_id_trusted_sender_only_witness :
  get_message_id sample_helpers sample_settings (sample_session (Ok "mail")) "3 300"
  = Ok (None, "3")
  /\ get_message_id sample_helpers sample_settings (sample_session (Ok "mail")) "3 300"
     <> Raise (IndexError "list index out of range")
  /\ exists msg_header,
       pop3_top (sample_session (Ok "mail")) "2" = Ok msg_header
       /\ In (encode_utf8 sample_helpers (SPIRE_FROM_ADDRESS sample_settings)) msg_header.
Proof.
  destruct (get_message_id_trusted_sender_only sample_helpers sample_settings
              (sample_session (Ok "mail"))) as (Hnone & Hsome & _).
  destruct (Hnone "3 300" "3" untrusted_header eq_refl eq_refl
                  ltac:(cbn; intuition discriminate)) as [H1 H2].
  split; [exact H1|]. split; [exact (H2 _ eq_refl)|].
  destruct (Hsome "2 200" "b2" "2" eq_refl) as (h & _ & Ht & Hs).
  exists h. split; assumption.
Defined.

(* ===================================================================== *)
(** * Errors of the identity derivation ([get_message_id])                *)
(* ===================================================================== *)

(** A text of white space only. *)
Fixpoint blank (s : string) : bool :=
  match s with
  | EmptyString => true
  | String c s' => is_space c && blank s'
  end.

Lemma split_ws_blank (s : string) : blank s = true -> split_ws s = [].
Proof.
  unfold split_ws. induction s as [|c s IH]; cbn [blank split_ws_aux]; [reflexivity|].
  intros H. apply andb_true_iff in H. destruct H as [Hc Hs]. rewrite Hc. now apply IH.
Qed.

Lemma mapM_raises {A B : Type} (f : A -> result B) (l : list A) (x : A) (e0 : exn) :
  In x l -> f x = Raise e0 -> exists e, mapM f l = Raise e.
Proof.
  induction l as [|a l IH]; [intros []|]. intros [->|Hin] Hf; cbn [mapM].
  - rewrite Hf. now exists e0.
  - destruct (f a) as [b|e]; [|now exists e].
    destruct (IH Hin Hf) as (e & ->). now exists e.
Qed.

Section ScanHeaders.

Variable hlp : Helpers.

(** Every line of the header can be decoded. *)
Definition decodable (msg_header : list string) : Prop :=
  forall item, In item msg_header -> exists line, decode_utf8 hlp item = Ok line.

(** The header ends in a line that is [Message-ID:] alone: the folded form,
    with the line holding the value missing. *)
Definition cut_message_id (msg_header : list string) : Prop :=
  exists pre item, msg_header = (pre ++ [item])%list
                   /\ decode_utf8 hlp item = Ok MESSAGE_ID_FIELD.

Lemma single_field_line (line f0 : string) : split " " line = [f0] -> line = f0.
Proof.
  intros H. rewrite <- (join_split " " line), H. reflexivity.
Qed.

Lemma local_part_ok (value : string) : exists mid, get_item (split "@" value) 0 = Ok mid.
Proof.
  unfold get_item. pose proof (split_not_nil "@" value) as H.
  destruct (split "@" value) as [|h t]; [congruence|]. now exists h.
Qed.

Lemma get_item_next {A : Type} (pre : list A) (item next : A) (rest : list A) :
  get_item (pre ++ item :: next :: rest)%list (List.length pre + 1) = Ok next.
Proof.
  unfold get_item. rewrite nth_error_app2 by lia.
  replace (List.length pre + 1 - List.length pre) with 1 by lia. reflexivity.
Qed.

Lemma get_item_past_end {A : Type} (pre : list A) (item : A) :
  get_item (pre ++ [item])%list (List.length pre + 1)
  = Raise (IndexError "list index out of range").
Proof.
  unfold get_item.
  destruct (nth_error (pre ++ [item])%list (List.length pre + 1)) eqn:E; [|reflexivity].
  assert (H : nth_error (pre ++ [item])%list (List.length pre + 1) <> None) by congruence.
  apply nth_error_Some in H. rewrite length_app in H. cbn in H. lia.
Qed.

(** One pass of the loop over a line that is not a cut [Message-ID:] goes
    on to the next line. *)
Lemma scan_headers_step (pre : list string) (item : string) (rest : list string)
    (acc : option string) :
  decodable (pre ++ item :: rest)%list ->
  rest <> [] \/ decode_utf8 hlp item <> Ok MESSAGE_ID_FIELD ->
  exists acc',
    scan_headers hlp (pre ++ item :: rest)%list (List.length pre) (item :: rest) acc
    = scan_headers hlp (pre ++ item :: rest)%list (S (List.length pre)) rest acc'.
Proof.
  intros Hdec Hnot. cbn [scan_headers].
  destruct (Hdec item) as (line & Hline); [apply in_app_iff; right; now left|].
  rewrite Hline. cbn [bind].
  destruct (split " " line) as [|f0 [|f1 [|f2 t]]] eqn:Es; try (now exists acc).
  - destruct (String.eqb f0 MESSAGE_ID_FIELD) eqn:Ef; [|now exists acc].
    apply String.eqb_eq in Ef. apply single_field_line in Es. subst f0 line.
    destruct rest as [|next rest]; [destruct Hnot as [H|H]; congruence|].
    rewrite get_item_next. cbn [bind].
    destruct (Hdec next) as (value & Hvalue);
      [apply in_app_iff; right; right; now left|].
    rewrite Hvalue. cbn [bind].
    destruct (local_part_ok (strip " " (remove_char ">" (remove_char "<" value))))
      as (mid & ->).
    cbn [bind]. now exists (Some mid).
  - destruct (String.eqb f0 MESSAGE_ID_FIELD); [|now exists acc].
    destruct (local_part_ok (remove_char ">" (remove_char "<" f1))) as (mid & ->).
    cbn [bind]. now exists (Some mid).
Qed.

Lemma scan_headers_ok (rest pre : list string) (acc : option string) :
  decodable (pre ++ rest)%list -> ~ cut_message_id (pre ++ rest)%list ->
  exists r, scan_headers hlp (pre ++ rest)%list (List.length pre) rest acc = Ok r.
Proof.
  revert pre acc. induction rest as [|item rest IH]; intros pre acc Hdec Hcut.
  - now exists acc.
  - destruct (scan_headers_step pre item rest acc Hdec) as (acc' & ->).
    + destruct rest as [|next rest]; [right | left; discriminate].
      intros H. apply Hcut. now exists pre, item.
    + specialize (IH (pre ++ [item])%list acc').
      rewrite <- app_assoc, length_app, Nat.add_1_r in IH. cbn [app] in IH.
      now apply IH.
Qed.

Lemma scan_headers_cut (mid pre : list string) (item : string) (acc : option string) :
  decodable (pre ++ mid ++ [item])%list ->
  decode_utf8 hlp item = Ok MESSAGE_ID_FIELD ->
  scan_headers hlp (pre ++ mid ++ [item])%list (List.length pre) (mid ++ [item])%list acc
  = Raise (IndexError "list index out of range").
Proof.
  revert pre acc. induction mid as [|a mid IH]; intros pre acc Hdec Hitem.
  - change ([] ++ [item])%list with [item]. cbn [scan_headers].
    rewrite Hitem. cbn [bind].
    change (split " " MESSAGE_ID_FIELD) with [MESSAGE_ID_FIELD]. cbv beta iota.
    rewrite String.eqb_refl, get_item_past_end. reflexivity.
  - change ((a :: mid) ++ [item])%list with (a :: (mid ++ [item]))%list in *.
    destruct (scan_headers_step pre a (mid ++ [item])%list acc Hdec) as (acc' & ->).
    + left. destruct mid; discriminate.
    + specialize (IH (pre ++ [a])%list acc').
      rewrite <- app_assoc, length_app, Nat.add_1_r in IH. cbn [app] in IH.
      now apply IH.
Qed.

End ScanHeaders.

(** A listing line of white space only has no message number:
    [get_message_id] raises [IndexError]. *)
Theorem get_message_id_blank_listing (hlp : Helpers) (settings : Settings) (conn : POP3)
    (listing_msg : string) :
  blank listing_msg = true ->
  get_message_id hlp settings conn listing_msg
  = Raise (IndexError "list index out of range").
Proof.
  intros H. unfold get_message_id. now rewrite (split_ws_blank _ H).
Qed.

Lemma get_message_id_blank_listing_witness :
  get_message_id sample_helpers sample_settings (sample_session (Ok "mail")) "  "
  = Raise (IndexError "list index out of range").
Proof.
  apply (get_message_id_blank_listing sample_helpers sample_settings
           (sample_session (Ok "mail")) "  ").
  reflexivity.
Defined.

(** On a header of the trusted sender whose lines all decode,
    [get_message_id] fails in exactly one case: the header ends in a line
    that is [Message-ID:] alone, and then with [IndexError]; otherwise it
    returns the message number with an identifier or none. *)
Theorem get_message_id_cut_header (hlp : Helpers) (settings : Settings) (conn : POP3)
    (listing_msg num : string) (msg_header : list string) :
  get_item (split_ws listing_msg) 0 = Ok num ->
  pop3_top conn num = Ok msg_header ->
  In (encode_utf8 hlp (SPIRE_FROM_ADDRESS settings)) msg_header ->
  decodable hlp msg_header ->
  (cut_message_id hlp msg_header ->
   get_message_id hlp settings conn listing_msg
   = Raise (IndexError "list index out of range"))
  /\ (~ cut_message_id hlp msg_header ->
      exists message_id,
        get_message_id hlp settings conn listing_msg = Ok (message_id, num)).
Proof.
  intros Hn Ht Hs Hdec. apply sender_line_present_In in Hs.
  unfold get_message_id. rewrite Hn. cbn [bind]. rewrite Ht. cbn [bind].
  rewrite Hs. cbn [negb]. split.
  - intros (pre & item & -> & Hitem).
    pose proof (scan_headers_cut hlp pre [] item None Hdec Hitem) as H.
    change (scan_headers hlp (pre ++ [item])%list 0 (pre ++ [item])%list None
            = Raise (IndexError "list index out of range")) in H.
    now rewrite H.
  - intros Hcut.
    destruct (scan_headers_ok hlp msg_header [] None Hdec Hcut) as (r & Hr).
    change (scan_headers hlp msg_header 0 msg_header None = Ok r) in Hr.
    rewrite Hr. cbn [bind]. now exists r.
Qed.

Definition cut_session : POP3 :=
  mkPOP3 (Ok ["1 100"]) (fun _ => Ok ["From: spire@example.com"; "Message-ID:"])
         (fun _ => Ok "mail").

Lemma get_message_id_cut_header_witness :
  get_message_id sample_helpers sample_settings cut_session "1 100"
  = Raise (IndexError "list index out of range")
  /\ exists message_id,
       get_message_id sample_helpers sample_settings (sample_session (Ok "mail")) "1 100"
       = Ok (message_id, "1").
Proof.
  split.
  - apply (proj1 (get_message_id_cut_header sample_helpers sample_settings cut_session
                    "1 100" "1" ["From: spire@example.com"; "Message-ID:"]
                    eq_refl eq_refl ltac:(now left)
                    ltac:(intros item _; now exists item))).
    now exists ["From: spire@example.com"], "Message-ID:".
  - apply (proj2 (get_message_id_cut_header sample_helpers sample_settings
                    (sample_session (Ok "mail")) "1 100" "1" (message_header "a1")
                    eq_refl eq_refl ltac:(now left)
                    ltac:(intros item _; now exists item))).
    intros (pre & item & H & Hitem). cbn in Hitem. injection Hitem as ->.
    destruct pre as [|a [|b [|c pre]]]; cbn in H; discriminate.
Defined.

(** The identities of all listed messages are derived before the loop
    starts: when the derivation fails for one listing line (a failed [TOP],
    a line that does not decode, a cut header), the poll ends with an
    exception before any message is fetched and the table is left as it
    was. *)
Theorem failing_listing_line_aborts_poll (hlp : Helpers) (settings : Settings)
    (conn : POP3) (username : string) (consume : EmailMessageDto -> reaction)
    (ledger : list MailReadStatus) (mails : list string) (m : string) (e0 : exn) :
  pop3_list conn = Ok mails ->
  In m mails ->
  (line <- decode_default hlp m ;; get_message_id hlp settings conn line) = Raise e0 ->
  exists e,
    get_message_iterator hlp settings conn username consume ledger = (ledger, [], Some e).
Proof.
  intros Hl Hin Hf. unfold get_message_iterator, list_message_ids. rewrite Hl.
  cbn [bind].
  destruct (mapM_raises
              (fun m => line <- decode_default hlp m ;; get_message_id hlp settings conn line)
              mails m e0 Hin Hf) as (e & ->).
  now exists e.
Qed.

Definition failing_top_session : POP3 :=
  mkPOP3 (Ok ["1 100"; "2 200"])
         (fun num => if String.eqb num "2" then Raise error_proto
                     else Ok (message_header "a1"))
         (fun _ => Ok "mail").

Lemma failing_listing_line_aborts_poll_witness :
  exists e,
    get_message_iterator sample_helpers sample_settings failing_top_session "lite-hmrc"
                         mark_read []
    = ([], [], Some e).
Proof.
  apply (failing_listing_line_aborts_poll sample_helpers sample_settings
           failing_top_session "lite-hmrc" mark_read [] ["1 100"; "2 200"] "2 200"
           error_proto eq_refl ltac:(right; now left) eq_refl).
Defined.

(* ===================================================================== *)
(** * mail/libraries/mailbox_service.py: the last three mails             *)
(* ===================================================================== *)

Module MailboxReaders.

Section WithHelpers.

Variable hlp : Helpers.
Variable settings : Settings.

(** The body of [for message_id, message_num in message_ids] of
    [read_last_three_emails]: a transport failure of [RETR] is raised again
    as a plain [Exception]. *)
Definition retrieve (pop3connection : POP3) (item : option string * string)
    : result string :=
  match pop3_retr pop3connection (snd item) with
  | Raise error_proto =>
      Raise (Exception_ ("Unable to RETR message num " ++ snd item
                         ++ " with Message-ID " ++ fmt (fst item)))
  | r => r
  end.

Definition read_last_three_emails (pop3connection : POP3)
    : result (list EmailMessageDto) :=
  mails <- pop3_list pop3connection ;;
  let reversed_mails := List.rev mails in
  let last_three_mails := firstn 3 reversed_mails in
  message_ids <-
    mapM (fun line => line <- decode_default hlp line ;;
                      get_message_id hlp settings pop3connection line)
         last_three_mails ;;
  emails <- mapM (retrieve pop3connection) message_ids ;;
  mapM (to_mail_message_dto hlp) emails.

End WithHelpers.

End MailboxReaders.

Export MailboxReaders.

Lemma mapM_Forall2 {A B : Type} (f : A -> result B) (l : list A) (ys : list B) :
  mapM f l = Ok ys -> Forall2 (fun x y => f x = Ok y) l ys.
Proof.
  revert ys; induction l as [|a l IH]; intros ys; cbn [mapM].
  - intros [= <-]. constructor.
  - destruct (f a) as [b|e] eqn:Ea; [|discriminate].
    destruct (mapM f l) as [bs|e]; [|discriminate].
    intros [= <-]. constructor; [assumption | now apply IH].
Qed.

Lemma Forall2_nth {A B : Type} (R : A -> B -> Prop) (l : list A) (ys : list B) :
  Forall2 R l ys ->
  List.length l = List.length ys
  /\ forall i y, nth_error ys i = Some y -> exists x, nth_error l i = Some x /\ R x y.
Proof.
  induction 1 as [|a b l ys Hab H IH].
  - split; [reflexivity|]. intros [|i] y; discriminate.
  - destruct IH as [Hlen Hnth]. split; [cbn; now rewrite Hlen|].
    intros [|i] y; cbn [nth_error].
    + intros [= <-]. now exists a.
    + apply Hnth.
Qed.

Lemma nth_error_last_three {A : Type} (l : list A) (i : nat) (x : A) :
  nth_error (firstn 3 (List.rev l)) i = Some x ->
  i < 3 /\ i < List.length l /\ nth_error l (List.length l - 1 - i) = Some x.
Proof.
  intros H.
  assert (Hi : i < List.length (firstn 3 (List.rev l))).
  { apply nth_error_Some. congruence. }
  rewrite length_firstn, length_rev in Hi.
  rewrite nth_error_firstn in H.
  destruct (Nat.ltb_spec i 3) as [H3|H3]; [|discriminate].
  repeat split; [assumption | lia |].
  rewrite nth_error_rev in H.
  destruct (Nat.ltb_spec i (List.length l)) as [Hl|Hl]; [|lia].
  replace (List.length l - 1 - i) with (List.length l - S i) by lia. exact H.
Qed.

Lemma mapM_first_failure {A B : Type} (f : A -> result B) (pre post : list A) (x : A)
    (e : exn) :
  (forall a, In a pre -> exists b, f a = Ok b) -> f x = Raise e ->
  mapM f (pre ++ x :: post)%list = Raise e.
Proof.
  intros Hpre Hx. induction pre as [|a pre IH]; simpl.
  - now rewrite Hx.
  - destruct (Hpre a (or_introl eq_refl)) as (b & ->).
    rewrite IH; [reflexivity|]. intros a' Ha'. apply Hpre. now right.
Qed.

(** When [read_last_three_emails] returns, it returns one DTO for each of
    the last three listed messages (for all of them when there are fewer),
    the newest first: the DTO at position [i] is the parsed message whose
    number stands on the [i]-th listing line from the end.  The sender of a
    message plays no part: the identifier may be absent. *)
Theorem read_last_three_emails_newest_first (hlp : Helpers) (settings : Settings)
    (conn : POP3) (mails : list string) (dtos : list EmailMessageDto) :
  pop3_list conn = Ok mails ->
  read_last_three_emails hlp settings conn = Ok dtos ->
  List.length dtos = Nat.min 3 (List.length mails)
  /\ forall i dto, nth_error dtos i = Some dto ->
       exists raw line message_id num m,
         nth_error mails (List.length mails - 1 - i) = Some raw
         /\ decode_default hlp raw = Ok line
         /\ get_message_id hlp settings conn line = Ok (message_id, num)
         /\ pop3_retr conn num = Ok m
         /\ to_mail_message_dto hlp m = Ok dto.
Proof.
  intros Hl. unfold read_last_three_emails. rewrite Hl. cbn [bind]. cbv zeta.
  destruct (mapM _ (firstn 3 (List.rev mails))) as [ids|e] eqn:Eids; cbn [bind];
    [|discriminate].
  destruct (mapM (retrieve conn) ids) as [emails|e] eqn:Eem; cbn [bind]; [|discriminate].
  intros Hd.
  destruct (Forall2_nth _ _ _ (mapM_Forall2 _ _ _ Eids)) as [Hlen1 Hn1].
  destruct (Forall2_nth _ _ _ (mapM_Forall2 _ _ _ Eem)) as [Hlen2 Hn2].
  destruct (Forall2_nth _ _ _ (mapM_Forall2 _ _ _ Hd)) as [Hlen3 Hn3].
  split.
  - rewrite <- Hlen3, <- Hlen2, <- Hlen1, length_firstn, length_rev. reflexivity.
  - intros i dto Hi.
    destruct (Hn3 i dto Hi) as (m & Hm & Hdto).
    destruct (Hn2 i m Hm) as ([message_id num] & Hid & Hretr).
    destruct (Hn1 i _ Hid) as (raw & Hraw & Hline).
    destruct (decode_default hlp raw) as [line|e] eqn:Edec; cbn [bind] in Hline;
      [|discriminate].
    apply nth_error_last_three in Hraw. destruct Hraw as (_ & _ & Hraw).
    exists raw, line, message_id, num, m. repeat split; auto.
    unfold retrieve in Hretr. cbn [snd] in Hretr.
    destruct (pop3_retr conn num) as [m'|e]; [assumption|]. destruct e; discriminate.
Qed.

Definition four_mail_session : POP3 :=
  mkPOP3 (Ok ["1 100"; "2 200"; "3 300"; "4 400"])
         (fun num => if String.eqb num "4" then Ok untrusted_header
                     else Ok (message_header num))
         (fun num => Ok ("mail " ++ num)).

Definition echo_helpers : Helpers :=
  mkHelpers (fun s => Ok s) (fun s => s) (fun s => Ok s)
            (fun m => Ok (mkDto None None None (Some m) None None (Some m))).

Lemma read_last_three_emails_newest_first_witness :
  List.length [mkDto None None None (Some "mail 4") None None (Some "mail 4");
               mkDto None None None (Some "mail 3") None None (Some "mail 3");
               mkDto None None None (Some "mail 2") None None (Some "mail 2")]
  = Nat.min 3 (List.length ["1 100"; "2 200"; "3 300"; "4 400"])
  /\ exists raw line message_id num m,
       nth_error ["1 100"; "2 200"; "3 300"; "4 400"] (4 - 1 - 0) = Some raw
       /\ decode_default echo_helpers raw = Ok line
       /\ get_message_id echo_helpers sample_settings four_mail_session line
          = Ok (message_id, num)
       /\ pop3_retr four_mail_session num = Ok m
       /\ to_mail_message_dto echo_helpers m
          = Ok (mkDto None None None (Some "mail 4") None None (Some "mail 4")).
Proof.
  destruct (read_last_three_emails_newest_first echo_helpers sample_settings
              four_mail_session ["1 100"; "2 200"; "3 300"; "4 400"]
              [mkDto None None None (Some "mail 4") None None (Some "mail 4");
               mkDto None None None (Some "mail 3") None None (Some "mail 3");
               mkDto None None None (Some "mail 2") None None (Some "mail 2")]
              eq_refl eq_refl) as [Hlen Hnth].
  split; [exact Hlen|]. exact (Hnth 0 _ eq_refl).
Defined.

(** The messages are all retrieved before any is parsed: when the
    retrieval of one of the last three fails on the transport and those
    before it (newer ones) were retrieved, [read_last_three_emails] raises
    a plain [Exception] naming the message number and the identifier,
    [None] for a message that is not from the trusted sender, whatever the
    retrieved messages hold. *)
Theorem read_last_three_emails_transport_failure (hlp : Helpers) (settings : Settings)
    (conn : POP3) (mails : list string) (pre post : list (option string * string))
    (message_id : option string) (message_num : string) :
  pop3_list conn = Ok mails ->
  mapM (fun line => line <- decode_default hlp line ;;
                    get_message_id hlp settings conn line)
       (firstn 3 (List.rev mails))
  = Ok (pre ++ (message_id, message_num) :: post)%list ->
  (forall item, In item pre -> exists m, pop3_retr conn (snd item) = Ok m) ->
  pop3_retr conn message_num = Raise error_proto ->
  read_last_three_emails hlp settings conn
  = Raise (Exception_ ("Unable to RETR message num " ++ message_num
                       ++ " with Message-ID " ++ fmt message_id)).
Proof.
  intros Hl Hids Hpre Hfail. unfold read_last_three_emails.
  rewrite Hl. cbn [bind]. cbv zeta. rewrite Hids. cbn [bind].
  rewrite (mapM_first_failure (retrieve conn) pre post (message_id, message_num)
             (Exception_ ("Unable to RETR message num " ++ message_num
                          ++ " with Message-ID " ++ fmt message_id))).
  - reflexivity.
  - intros item Hin. destruct (Hpre item Hin) as (m & Hm). exists m.
    unfold retrieve. now rewrite Hm.
  - unfold retrieve. cbn [fst snd]. now rewrite Hfail.
Qed.

Definition lost_mail_session : POP3 :=
  mkPOP3 (Ok ["1 100"; "2 200"; "3 300"; "4 400"])
         (fun num => if String.eqb num "3" then Ok untrusted_header
                     else Ok (message_header num))
         (fun num => if String.eqb num "3" then Raise error_proto else Ok "garbled").

Lemma read_last_three_emails_transport_failure_witness :
  read_last_three_emails sample_helpers sample_settings lost_mail_session
  = Raise (Exception_ "Unable to RETR message num 3 with Message-ID None").
Proof.
  apply (read_last_three_emails_transport_failure sample_helpers sample_settings
           lost_mail_session ["1 100"; "2 200"; "3 300"; "4 400"]
           [(Some "4", "4")] [(Some "2", "2")] None "3" eq_refl eq_refl).
  - intros item [<-|[]]. now exists "garbled".
  - reflexivity.
Defined.

(* ===================================================================== *)
(** * Stamping twice ([build_sent_filename], [build_sent_file_data])      *)
(* ===================================================================== *)

Lemma update_update {A : Type} (l : list A) (i : nat) (x y : A) :
  update (update l i x) i y = update l i y.
Proof.
  revert i; induction l as [|h t IH]; intros [|i]; simpl; auto. now rewrite IH.
Qed.

Lemma split_keeps_clean (c sep : ascii) (s : string) :
  has_char c s = false -> Forall (fun f => has_char c f = false) (split sep s).
Proof.
  induction s as [|a s IH]; cbn [split has_char]; [repeat constructor|].
  intros H. apply orb_false_elim in H. destruct H as [Ha Hs]. specialize (IH Hs).
  destruct (Ascii.eqb a sep).
  - constructor; [reflexivity | assumption].
  - destruct (split sep s) as [|h t]; constructor.
    + cbn [has_char]. now rewrite Ha.
    + constructor.
    + cbn [has_char]. inversion IH; subst. now rewrite Ha.
    + now inversion IH.
Qed.

Lemma join_keeps_clean (c sep : ascii) (l : list string) :
  Ascii.eqb sep c = false ->
  Forall (fun f => has_char c f = false) l ->
  has_char c (join (String sep "") l) = false.
Proof.
  intros Hsep. induction 1 as [|x t Hx Ht IH]; [reflexivity|].
  destruct t as [|y t]; [exact Hx|].
  change (join (String sep "") (x :: y :: t))
    with (x ++ String sep (join (String sep "") (y :: t))).
  rewrite has_char_app, Hx. cbn [has_char orb]. now rewrite Hsep.
Qed.

(** How [build_sent_file_data] works on a content that has a newline. *)
Lemma build_sent_file_data_shape (content : string) (n : Z) :
  has_char newline content = true ->
  exists line rest,
    content = line ++ String newline rest
    /\ has_char newline line = false
    /\ build_sent_file_data content n
       = (fields <- set_item (split backslash line) 6 (str n) ;;
          Ok (join "\" fields ++ String newline rest)).
Proof.
  intros Hnl.
  destruct (split_once_found newline content Hnl) as (line & rest & E & Hc & Hline).
  exists line, rest. repeat split; try assumption.
  unfold build_sent_file_data. rewrite E. cbn [get_item nth_error bind].
  destruct (set_item (split backslash line) 6 (str n)); reflexivity.
Qed.

Lemma stamped_line_clean (line : string) (n : Z) :
  has_char newline line = false ->
  has_char newline (join "\" (update (split backslash line) 6 (str n))) = false.
Proof.
  intros H. apply (join_keeps_clean newline backslash); [reflexivity|].
  apply update_Forall; [now apply split_keeps_clean|].
  apply str_clean. apply newline_not_num.
Qed.

(** Whether [build_sent_file_data] returns depends on the shape of the
    content only, never on the run number: it returns exactly for a content
    that has a newline and at least seven backslash fields on its first
    line. *)
Theorem build_sent_file_data_returns_iff (content : string) (n : Z) :
  is_ok (build_sent_file_data content n) = true
  <-> has_char newline content = true
      /\ 7 <= List.length (split backslash (first_line content)).
Proof.
  destruct (has_char newline content) eqn:Hnl.
  - destruct (build_sent_file_data_shape content n Hnl) as (line & rest & Hc & Hline & ->).
    assert (Hfl : first_line content = line).
    { unfold first_line. rewrite Hc. now rewrite split_once_app_sep. }
    rewrite Hfl.
    destruct (Nat.ltb_spec 6 (List.length (split backslash line))) as [Hl|Hl].
    + rewrite set_item_ok by lia. cbn [bind is_ok]. split; [split; [reflexivity | lia] | auto].
    + rewrite set_item_out_of_range by lia. cbn [bind is_ok].
      split; [discriminate | intros [_ H]; lia].
  - unfold build_sent_file_data.
    rewrite (split_once_clean newline content Hnl). cbn [get_item nth_error bind].
    destruct (set_item (split backslash content) 6 (str n)); cbn [bind is_ok];
      (split; [discriminate | intros [H _]; discriminate]).
Qed.

(** Stamping a stamped content again: the number stamped last is the one
    that stays, as if the first stamp had not been made. *)
Theorem build_sent_file_data_last_stamp_wins (content stamped : string) (m n : Z) :
  build_sent_file_data content m = Ok stamped ->
  build_sent_file_data stamped n = build_sent_file_data content n.
Proof.
  intros H.
  assert (Hnl : has_char newline content = true).
  { destruct (has_char newline content) eqn:E; [reflexivity|].
    unfold build_sent_file_data in H.
    rewrite (split_once_clean newline content E) in H.
    cbn [get_item nth_error bind] in H.
    destruct (set_item (split backslash content) 6 (str m)); discriminate. }
  destruct (build_sent_file_data_shape content m Hnl) as (line & rest & Hc & Hline & Hm).
  destruct (build_sent_file_data_shape content n Hnl) as (line' & rest' & Hc' & Hline' & Hn).
  assert (E : [line'; rest'] = [line; rest]).
  { rewrite <- (split_once_app_sep newline line' rest' Hline'), <- Hc', Hc.
    now apply split_once_app_sep. }
  injection E as -> ->. rewrite Hn. clear Hn Hc' Hline'.
  rewrite H in Hm.
  destruct (Nat.ltb_spec 6 (List.length (split backslash line))) as [Hl|Hl];
    [|rewrite set_item_out_of_range in Hm by lia; discriminate].
  rewrite set_item_ok in Hm by lia. cbn [bind] in Hm. injection Hm as ->.
  rewrite set_item_ok by lia. cbn [bind].
  unfold build_sent_file_data.
  rewrite split_once_app_sep by now apply stamped_line_clean.
  cbn [get_item nth_error bind].
  rewrite (split_join_update backslash)
    by (auto using backslash_not_num, split_not_nil, split_fields_clean).
  rewrite set_item_ok by (rewrite update_length; lia). cbn [bind].
  now rewrite update_update.
Qed.

Lemma build_sent_file_data_last_stamp_wins_witness :
  build_sent_file_data "1\fileHeader\CHIEF\SPIRE\licenceData\202401011030\8\N
2\licence" 9
  = build_sent_file_data "1\fileHeader\CHIEF\SPIRE\licenceData\202401011030\7\N
2\licence" 9.
Proof.
  apply (build_sent_file_data_last_stamp_wins
           "1\fileHeader\CHIEF\SPIRE\licenceData\202401011030\7\N
2\licence" _ 8 9).
  reflexivity.
Defined.

(** The same for the file name: stamping a stamped name again gives what
    stamping the first name with the last number gives. *)
Theorem build_sent_filename_last_stamp_wins (filename stamped : string) (m n : Z) :
  build_sent_filename filename m = Ok stamped ->
  build_sent_filename stamped n = build_sent_filename filename n.
Proof.
  unfold build_sent_filename.
  destruct (Nat.ltb_spec 4 (List.length (split underscore filename))) as [Hl|Hl];
    [|rewrite set_item_out_of_range by lia; discriminate].
  rewrite !set_item_ok by lia. cbn [bind]. intros [= <-].
  change "_" with (String underscore "").
  rewrite (split_join_update underscore)
    by (auto using underscore_not_num, split_not_nil, split_fields_clean).
  rewrite set_item_ok by (rewrite update_length; lia).
  rewrite (set_item_ok (split underscore filename)) by lia. cbn [bind].
  now rewrite update_update.
Qed.

Lemma build_sent_filename_last_stamp_wins_witness :
  build_sent_filename "CHIEF_LIVE_SPIRE_licenceData_8_202401011030" 9
  = build_sent_filename "CHIEF_LIVE_SPIRE_licenceData_7_202401011030" 9.
Proof.
  apply (build_sent_filename_last_stamp_wins
           "CHIEF_LIVE_SPIRE_licenceData_7_202401011030" _ 8 9).
  reflexivity.
Defined.

(* ===================================================================== *)
(** * The width of the time stamp ([build_licence_data_file])             *)
(* ===================================================================== *)

Lemma format_0d_width_checked (w : nat) (bound : Z) :
  forallb (fun i => Nat.eqb (String.length (format_0d w (Z.of_nat i))) w)
          (seq 0 (Z.to_nat bound)) = true ->
  forall n, (0 <= n < bound)%Z -> String.length (format_0d w n) = w.
Proof.
  intros H n Hn. rewrite forallb_forall in H. specialize (H (Z.to_nat n)).
  rewrite Z2Nat.id in H by lia. apply Nat.eqb_eq, H, in_seq. lia.
Qed.

Lemma format_0d_four_digits (n : Z) :
  (0 <= n < 10000)%Z -> String.length (format_0d 4 n) = 4.
Proof. apply format_0d_width_checked. vm_compute. reflexivity. Qed.

Lemma format_0d_two_digits (n : Z) :
  (0 <= n < 100)%Z -> String.length (format_0d 2 n) = 2.
Proof. apply format_0d_width_checked. vm_compute. reflexivity. Qed.

Lemma length_append (a b : string) :
  String.length (a ++ b) = String.length a + String.length b.
Proof. induction a as [|c a IH]; cbn; [reflexivity | now rewrite IH]. Qed.

(** For a date of the years 0 to 9999 the file name
    [build_licence_data_file] makes ends in a time stamp of exactly twelve
    characters, after the prefix, the run number and an underscore; years
    beyond give a longer stamp. *)
Theorem build_licence_data_file_stamp_width
    (ext : Externals) (now : datetime) (licences : list LicencePayload) (run : Z)
    (file_name file_content : string) :
  build_licence_data_file ext now licences run = Ok (file_name, file_content) ->
  (0 <= year now < 10000)%Z ->
  (0 <= month now < 100)%Z -> (0 <= day now < 100)%Z ->
  (0 <= hour now < 100)%Z -> (0 <= minute now < 100)%Z ->
  file_name = "CHIEF_LIVE_SPIRE_licenceData_" ++ str run ++ "_" ++ timestamp now
  /\ String.length (timestamp now) = 12
  /\ String.length file_name = 30 + String.length (str run) + 12
  /\ licences_to_edifact ext licences run = Ok file_content.
Proof.
  unfold build_licence_data_file.
  destruct (licences_to_edifact ext licences run) as [c|e]; cbn [bind]; [|discriminate].
  intros H Hy Hmo Hd Hh Hmi.
  assert (Hname : file_name
                  = "CHIEF_LIVE_SPIRE_licenceData_" ++ str run ++ "_" ++ timestamp now)
    by (injection H as <- _; reflexivity).
  assert (Hts : String.length (timestamp now) = 12).
  { unfold timestamp. rewrite !length_append, format_0d_four_digits by assumption.
    now rewrite !format_0d_two_digits by assumption. }
  split; [exact Hname|]. split; [exact Hts|]. split; [|injection H as _ <-; reflexivity].
  rewrite Hname, !length_append, Hts. cbn [String.length]. lia.
Qed.

Lemma build_licence_data_file_stamp_width_witness :
  String.length (timestamp (mkDatetime 2024 1 1 10 30)) = 12
  /\ String.length (timestamp (mkDatetime 10000 1 1 10 30)) = 13.
Proof.
  split; [|reflexivity].
  apply (build_licence_data_file_stamp_width sample_externals
           (mkDatetime 2024 1 1 10 30) [] 7 _ _ eq_refl); cbn; lia.
Defined.

(* ===================================================================== *)
(** * Scheduling and sending, twice ([tasks.py])                          *)
(* ===================================================================== *)

(** For a usage-data identifier that JSON writes as it is (a UUID is
    one), scheduling its usage figures is idempotent: after a first call, a
    second one, at any time, stores nothing.  For every identifier a call
    adds at most one task and touches no other table. *)
Theorem schedule_licence_usage_figures_idempotent (now now' : Z) (id : string) (d : DB) :
  let d1 := schedule_licence_usage_figures_for_lite_api now id d in
  (json_plain id = true -> schedule_licence_usage_figures_for_lite_api now' id d1 = d1)
  /\ (exists new, tasks d1 = (tasks d ++ new)%list /\ List.length new <= 1)
  /\ mails d1 = mails d /\ licence_datas d1 = licence_datas d
  /\ licence_payloads d1 = licence_payloads d /\ usage_datas d1 = usage_datas d.
Proof.
  intros d1.
  assert (Hcase : (tasks_of id d = []
                   /\ d1 = send_licence_usage_figures_to_lite_api now id 0 d)
                  \/ (tasks_of id d <> [] /\ d1 = d)).
  { subst d1. unfold schedule_licence_usage_figures_for_lite_api.
    destruct (tasks_of id d); [left | right]; split; congruence. }
  clearbody d1. destruct Hcase as [[E ->]|[E ->]].
  - split; [|split; [|repeat split]].
    + intros Hp. unfold schedule_licence_usage_figures_for_lite_api,
        send_licence_usage_figures_to_lite_api.
      rewrite (json_plain_params id Hp). now rewrite tasks_of_snoc, E.
    + eexists. split; [reflexivity | cbn; lia].
  - split; [|split; [|repeat split]].
    + intros _. unfold schedule_licence_usage_figures_for_lite_api.
      destruct (tasks_of id d); [congruence | reflexivity].
    + exists []. split; [now rewrite app_nil_r | cbn; lia].
Qed.

Lemma schedule_licence_usage_figures_idempotent_witness :
  let d1 := schedule_licence_usage_figures_for_lite_api 0
              "963d810e-c573-ef26-4ac0-151572b3524b" (sample_task_db 1) in
  schedule_licence_usage_figures_for_lite_api 9 "963d810e-c573-ef26-4ac0-151572b3524b" d1
  = d1.
Proof.
  intros d1.
  apply (proj1 (schedule_licence_usage_figures_idempotent 0 9
                  "963d810e-c573-ef26-4ac0-151572b3524b" (sample_task_db 1))).
  reflexivity.
Defined.

Section SendLicenceData.

Variable ext : Externals.
Variable col : Collaborators.

Lemma world_eta (w : World) : mkWorld (db w) (outbox w) (lock_free w) = w.
Proof. now destruct w. Qed.

Lemma marked_processed (l : list LicencePayload) :
  filter unprocessed
         (map (fun l => if unprocessed l then mkLicencePayload (reference l) true (skip l)
                        else l) l) = [].
Proof.
  induction l as [|a l IH]; [reflexivity|]. cbn [map filter].
  destruct (unprocessed a) eqn:Ea.
  - unfold unprocessed at 1. cbn. exact IH.
  - rewrite Ea. exact IH.
Qed.

(** The block commits only at its end, with every pending licence
    marked. *)
Lemma atomic_block_commit (now : datetime) (w : World) (sent : list EmailMessageDto)
    (d : DB) :
  atomic_block ext col now w = (sent, Ok (d, true)) ->
  filter unprocessed (licence_payloads d) = [].
Proof.
  unfold atomic_block. destruct (negb (lock_free w)); [discriminate|].
  destruct (filter unprocessed (licence_payloads (db w))); [discriminate|].
  destruct (build_licence_data_mail ext now _ (db w)) as [[mail d0]|e]; [|discriminate].
  destruct (build_request_mail_message_dto col d0 mail) as [dto|e]; [|discriminate].
  destruct (send col dto (outbox w)) as [s|e]; [|discriminate].
  destruct (update_mail col mail dto d0) as [d1|e]; [|discriminate].
  intros [= _ <-]. cbn [licence_payloads set_licence_payloads]. apply marked_processed.
Qed.

Lemma atomic_block_nothing (now : datetime) (w : World) (sent : list EmailMessageDto)
    (d : DB) :
  atomic_block ext col now w = (sent, Ok (d, false)) -> sent = outbox w /\ d = db w.
Proof.
  unfold atomic_block. destruct (negb (lock_free w)); [discriminate|].
  destruct (filter unprocessed (licence_payloads (db w))); [now intros [= <- <-]|].
  destruct (build_licence_data_mail ext now _ (db w)) as [[mail d0]|e]; [|discriminate].
  destruct (build_request_mail_message_dto col d0 mail) as [dto|e]; [|discriminate].
  destruct (send col dto (outbox w)) as [s|e]; [|discriminate].
  destruct (update_mail col mail dto d0) as [d1|e]; discriminate.
Qed.

Lemma atomic_block_idle (now : datetime) (w : World) :
  filter unprocessed (licence_payloads (db w)) = [] ->
  atomic_block ext col now w = (outbox w, Ok (db w, false))
  \/ atomic_block ext col now w = (outbox w, Raise DatabaseError).
Proof.
  intros H. unfold atomic_block. rewrite H. destruct (negb (lock_free w)); auto.
Qed.

Lemma send_idle (now : datetime) (w : World) :
  filter unprocessed (licence_payloads (db w)) = [] ->
  send_licence_data_to_hmrc ext col now w = (w, Ok RetNone).
Proof.
  intros H. unfold send_licence_data_to_hmrc.
  destruct (negb (_is_email_slot_free (db w))); [reflexivity|].
  destruct (atomic_block_idle now w H) as [-> | ->]; now rewrite world_eta.
Qed.

Lemma send_outcome (now : datetime) (w : World) :
  let r := send_licence_data_to_hmrc ext col now w in
  lock_free (fst r) = lock_free w
  /\ (snd r = Ok RetNone \/ snd r = Ok RetTrue \/ snd r = Raise EdifactValidationError)
  /\ (snd r <> Ok RetTrue -> db (fst r) = db w)
  /\ (snd r = Ok RetTrue -> filter unprocessed (licence_payloads (db (fst r))) = []).
Proof.
  intros r. subst r. unfold send_licence_data_to_hmrc.
  destruct (negb (_is_email_slot_free (db w))).
  - cbn [fst snd]. repeat split; auto; discriminate.
  - destruct (atomic_block ext col now w) as [sent [[d [|]]|e]] eqn:E.
    + cbn [fst snd db lock_free]. repeat split; auto; [congruence|].
      intros _. apply (atomic_block_commit now w sent d E).
    + cbn [fst snd db lock_free]. destruct (atomic_block_nothing now w sent d E) as [_ ->].
      repeat split; auto; discriminate.
    + destruct e; cbn [fst snd db lock_free]; repeat split; auto; discriminate.
Qed.

End SendLicenceData.

(** The database changes only when [send_licence_data_to_hmrc] returns
    [True], and then no licence is left pending; of the exceptions of the
    block only [EdifactValidationError] leaves the task, every other one is
    swallowed and rolls the database back; with no licence pending nothing
    at all changes. *)
Theorem send_licence_data_to_hmrc_atomic (ext : Externals) (col : Collaborators)
    (now : datetime) (w : World) :
  let r := send_licence_data_to_hmrc ext col now w in
  (snd r = Ok RetNone \/ snd r = Ok RetTrue \/ snd r = Raise EdifactValidationError)
  /\ (snd r <> Ok RetTrue -> db (fst r) = db w)
  /\ (snd r = Ok RetTrue -> filter unprocessed (licence_payloads (db (fst r))) = [])
  /\ (filter unprocessed (licence_payloads (db w)) = [] -> r = (w, Ok RetNone)).
Proof.
  intros r. destruct (send_outcome ext col now w) as (_ & H1 & H2 & H3).
  repeat split; try assumption. apply send_idle.
Qed.

Definition refusing_collaborators : Collaborators :=
  mkCollaborators
    (fun _ m => Ok (mkDto (Some 0%Z) None None (edi_filename m) None
                          (Some [edi_filename m; edi_data m]) None))
    (fun dto sent => Ok (sent ++ [dto])%list)
    (fun _ _ _ => Raise (ValueError "cannot update")).

Lemma send_licence_data_to_hmrc_atomic_witness :
  let failed := send_licence_data_to_hmrc sample_externals refusing_collaborators
                  (mkDatetime 2024 1 1 10 30) (sample_world REPLY_SENT) in
  let done := send_licence_data_to_hmrc sample_externals sample_collaborators
                (mkDatetime 2024 1 1 10 30) (sample_world REPLY_SENT) in
  (db (fst failed) = db (sample_world REPLY_SENT) /\ List.length (outbox (fst failed)) = 1)
  /\ filter unprocessed (licence_payloads (db (fst done))) = []
  /\ send_licence_data_to_hmrc sample_externals sample_collaborators
       (mkDatetime 2024 1 1 10 30)
       (mkWorld (mkDB [] [] [mkLicencePayload "GBSIEL/1" true false] [] []) [] true)
     = (mkWorld (mkDB [] [] [mkLicencePayload "GBSIEL/1" true false] [] []) [] true,
        Ok RetNone).
Proof.
  intros failed done. split; [split|split].
  - apply (proj1 (proj2 (send_licence_data_to_hmrc_atomic sample_externals
                           refusing_collaborators (mkDatetime 2024 1 1 10 30)
                           (sample_world REPLY_SENT)))).
    discriminate.
  - reflexivity.
  - apply (proj1 (proj2 (proj2 (send_licence_data_to_hmrc_atomic sample_externals
                                  sample_collaborators (mkDatetime 2024 1 1 10 30)
                                  (sample_world REPLY_SENT))))).
    reflexivity.
  - apply (proj2 (proj2 (proj2 (send_licence_data_to_hmrc_atomic sample_externals
                                  sample_collaborators (mkDatetime 2024 1 1 10 30)
                                  (mkWorld (mkDB [] [] [mkLicencePayload "GBSIEL/1" true false]
                                                 [] []) [] true))))).
    reflexivity.
Defined.

(** A batch that was sent is not sent again: right after a run that
    returned [True], another run returns [None] and changes nothing. *)
Theorem send_licence_data_to_hmrc_not_repeated (ext : Externals) (col : Collaborators)
    (now now' : datetime) (w w' : World) :
  send_licence_data_to_hmrc ext col now w = (w', Ok RetTrue) ->
  send_licence_data_to_hmrc ext col now' w' = (w', Ok RetNone).
Proof.
  intros H. apply send_idle.
  destruct (send_outcome ext col now w) as (_ & _ & _ & H3).
  rewrite H in H3. cbn [fst snd] in H3. now apply H3.
Qed.

Lemma send_licence_data_to_hmrc_not_repeated_witness :
  let w' := fst (send_licence_data_to_hmrc sample_externals sample_collaborators
                   (mkDatetime 2024 1 1 10 30) (sample_world REPLY_SENT)) in
  send_licence_data_to_hmrc sample_externals sample_collaborators
    (mkDatetime 2024 1 1 10 31) w' = (w', Ok RetNone).
Proof.
  intros w'.
  apply (send_licence_data_to_hmrc_not_repeated sample_externals sample_collaborators
           (mkDatetime 2024 1 1 10 30) (mkDatetime 2024 1 1 10 31)
           (sample_world REPLY_SENT) w').
  reflexivity.
Defined.

(* ===================================================================== *)
(** * mail/libraries/mailbox_service.py: [find_mail_of]                   *)
(* ===================================================================== *)

Module MailLookup.

Definition ExtractTypeEnum_eqb (a b : ExtractTypeEnum) : bool :=
  match a, b with
  | LICENCE_DATA, LICENCE_DATA
  | LICENCE_REPLY, LICENCE_REPLY
  | USAGE_DATA, USAGE_DATA => true
  | _, _ => false
  end.

(** [Mail.objects.filter(status=reception_status,
    extract_type__in=extract_types)]. *)
Definition mails_of (extract_types : list ExtractTypeEnum)
    (reception_status : ReceptionStatusEnum) (d : DB) : list Mail :=
  filter (fun m => ReceptionStatusEnum_eqb (status m) reception_status
                   && existsb (ExtractTypeEnum_eqb (extract_type m)) extract_types)
         (mails d).

(** [find_mail_of]: [Mail.DoesNotExist] is caught and gives [None]; the
    error of [get] on several rows is not caught. *)
Definition find_mail_of (extract_types : list ExtractTypeEnum)
    (reception_status : ReceptionStatusEnum) (d : DB) : result (option Mail) :=
  match mails_of extract_types reception_status d with
  | [] => Ok None
  | [mail] => Ok (Some mail)
  | _ => Raise MultipleObjectsReturned
  end.

End MailLookup.

Export MailLookup.

Lemma ExtractTypeEnum_eqb_eq (a b : ExtractTypeEnum) :
  ExtractTypeEnum_eqb a b = true <-> a = b.
Proof. destruct a, b; simpl; split; congruence. Qed.

Lemma mails_of_In (extract_types : list ExtractTypeEnum) (s : ReceptionStatusEnum)
    (d : DB) (m : Mail) :
  In m (mails_of extract_types s d)
  <-> In m (mails d) /\ status m = s /\ In (extract_type m) extract_types.
Proof.
  unfold mails_of. rewrite filter_In, andb_true_iff, ReceptionStatusEnum_eqb_eq.
  rewrite existsb_exists. split.
  - intros (Hin & Hs & t & Ht & He). apply ExtractTypeEnum_eqb_eq in He. subst t. auto.
  - intros (Hin & Hs & Ht). repeat split; auto. exists (extract_type m).
    split; [assumption | now apply ExtractTypeEnum_eqb_eq].
Qed.

(** The mails of a status other than [REPLY_SENT] are among the pending
    ones. *)
Lemma mails_of_pending (extract_types : list ExtractTypeEnum) (s : ReceptionStatusEnum)
    (ms : list Mail) :
  s <> REPLY_SENT ->
  List.length
    (filter (fun m => ReceptionStatusEnum_eqb (status m) s
                      && existsb (ExtractTypeEnum_eqb (extract_type m)) extract_types) ms)
  <= List.length
       (filter (fun m => negb (ReceptionStatusEnum_eqb (status m) REPLY_SENT)) ms).
Proof.
  intros Hs. induction ms as [|m ms IH]; [cbn; lia|]. cbn [filter].
  destruct (ReceptionStatusEnum_eqb (status m) s) eqn:E; cbn [andb].
  - apply ReceptionStatusEnum_eqb_eq in E.
    assert (Hp : ReceptionStatusEnum_eqb (status m) REPLY_SENT = false).
    { destruct (ReceptionStatusEnum_eqb (status m) REPLY_SENT) eqn:E'; [|reflexivity].
      apply ReceptionStatusEnum_eqb_eq in E'. congruence. }
    rewrite Hp. cbn [negb].
    destruct (existsb _ extract_types); cbn [List.length]; lia.
  - destruct (negb _); cbn [List.length]; lia.
Qed.

(** [find_mail_of] returns the mail of the status and of one of the extract
    types when there is exactly one, [None] when there is none, and raises
    when there are several.  While at most one mail is pending (not in
    [REPLY_SENT]), as the guard of [send_licence_data_to_hmrc] keeps it, a
    lookup for a pending status never raises. *)
Theorem find_mail_of_single_flight (extract_types : list ExtractTypeEnum)
    (reception_status : ReceptionStatusEnum) (d : DB) :
  (forall mail, find_mail_of extract_types reception_status d = Ok (Some mail) ->
     In mail (mails d) /\ status mail = reception_status
     /\ In (extract_type mail) extract_types)
  /\ (find_mail_of extract_types reception_status d = Ok None ->
      forall m, In m (mails d) -> status m = reception_status ->
        ~ In (extract_type m) extract_types)
  /\ (find_mail_of extract_types reception_status d = Raise MultipleObjectsReturned
      <-> 2 <= List.length (mails_of extract_types reception_status d))
  /\ (List.length (_get_pending_mail d) <= 1 -> reception_status <> REPLY_SENT ->
      exists r, find_mail_of extract_types reception_status d = Ok r).
Proof.
  unfold find_mail_of. split; [|split; [|split; [split|]]].
  - destruct (mails_of extract_types reception_status d) as [|m [|m' t]] eqn:E;
      try discriminate.
    intros mail [= <-]. apply (mails_of_In extract_types reception_status d m).
    rewrite E. now left.
  - destruct (mails_of extract_types reception_status d) as [|m [|m' t]] eqn:E;
      try discriminate.
    intros _ m Hin Hs Ht.
    assert (H : In m (mails_of extract_types reception_status d))
      by (apply mails_of_In; auto).
    rewrite E in H. destruct H.
  - destruct (mails_of extract_types reception_status d) as [|m [|m' t]];
      try discriminate. intros _. cbn. lia.
  - destruct (mails_of extract_types reception_status d) as [|m [|m' t]];
      cbn [List.length]; intros H; try lia. reflexivity.
  - intros Hp Hs. unfold _get_pending_mail in Hp. rewrite length_map in Hp.
    pose proof (mails_of_pending extract_types reception_status (mails d) Hs) as Hle.
    fold (mails_of extract_types reception_status d) in Hle.
    destruct (mails_of extract_types reception_status d) as [|m [|m' t]];
      [eauto | eauto | cbn [List.length] in Hle; lia].
Qed.

Lemma find_mail_of_single_flight_witness :
  (In (sample_mail 2 REPLY_PENDING) (mails (db (sample_world REPLY_PENDING)))
   /\ status (sample_mail 2 REPLY_PENDING) = REPLY_PENDING
   /\ In (extract_type (sample_mail 2 REPLY_PENDING)) [LICENCE_DATA; USAGE_DATA])
  /\ (exists r, find_mail_of [LICENCE_DATA] REPLY_PENDING (db (sample_world REPLY_PENDING))
                = Ok r)
  /\ 2 <= List.length (mails_of [LICENCE_DATA] REPLY_SENT
                                (mkDB [sample_mail 1 REPLY_SENT; sample_mail 2 REPLY_SENT]
                                      [] [] [] [])).
Proof.
  split; [|split].
  - apply (proj1 (find_mail_of_single_flight [LICENCE_DATA; USAGE_DATA] REPLY_PENDING
                    (db (sample_world REPLY_PENDING)))).
    reflexivity.
  - apply (proj2 (proj2 (proj2 (find_mail_of_single_flight [LICENCE_DATA] REPLY_PENDING
                                  (db (sample_world REPLY_PENDING)))))).
    + cbn. lia.
    + discriminate.
  - apply (proj1 (proj2 (proj2 (find_mail_of_single_flight [LICENCE_DATA] REPLY_SENT
                                  (mkDB [sample_mail 1 REPLY_SENT; sample_mail 2 REPLY_SENT]
                                        [] [] [] []))))).
    reflexivity.
Defined.

(* ===================================================================== *)
(** * mail/libraries/builders.py: the request DTO                         *)
(* ===================================================================== *)

Module RequestDto.

(** The addresses [builders.py] reads from [conf.settings]. *)
Record Addresses : Type := mkAddresses {
  INCOMING_EMAIL_USER : string;
  OUTGOING_EMAIL_USER : string;
  HMRC_ADDRESS : string;
  SPIRE_ADDRESS : string
}.

(** What [build_request_mail_message_dto] takes from code that is not under
    study: the [spire_run_number] column of a usage-data row, and the two
    functions of [usage_data_decomposition] over blocks of EDIFACT lines. *)
Record UsageExternals (block : Type) : Type := mkUsageExternals {
  spire_run_number : UsageData -> Z;
  split_edi_data_by_id : option string -> result (list block * list block);
  build_edifact_file_from_data_blocks : list block -> result string
}.

Arguments spire_run_number {block} _ _.
Arguments split_edi_data_by_id {block} _ _.
Arguments build_edifact_file_from_data_blocks {block} _ _.

(** [Model.objects.get(...)] over the rows a filter keeps. *)
Definition objects_get {A : Type} (rows : list A) : result A :=
  match rows with
  | [] => Raise DoesNotExist
  | [row] => Ok row
  | _ => Raise MultipleObjectsReturned
  end.

(** A method called on a field that may hold [None]. *)
Definition not_none (method : string) (v : option string) : result string :=
  match v with
  | Some s => Ok s
  | None => Raise (AttributeError ("'NoneType' object has no attribute '" ++ method ++ "'"))
  end.

Section WithSettings.

Variable adr : Addresses.
Variable block : Type.
Variable uext : UsageExternals block.

(** The list [[build_sent_filename(...), build_sent_file_data(...)]]. *)
Definition stamped_attachment (filename file_data : option string) (run_number : Z)
    : result (list (option string)) :=
  filename <- not_none "split" filename ;;
  name <- build_sent_filename filename run_number ;;
  file_data <- not_none "split" file_data ;;
  data <- build_sent_file_data file_data run_number ;;
  Ok [Some name; Some data].

Definition build_request_mail_message_dto (mail : Mail) (d : DB) : result EmailMessageDto :=
  r <- match extract_type mail with
       | LICENCE_DATA =>
           licence_data <-
             objects_get (filter (fun l => Nat.eqb (ld_mail l) (mail_id mail))
                                 (licence_datas d)) ;;
           let run_number := hmrc_run_number licence_data in
           attachment <- stamped_attachment (edi_filename mail) (edi_data mail) run_number ;;
           Ok (Some (INCOMING_EMAIL_USER adr), Some (OUTGOING_EMAIL_USER adr),
               attachment, run_number)
       | USAGE_DATA =>
           update <-
             objects_get (filter (fun u => Nat.eqb (ud_mail u) (mail_id mail))
                                 (usage_datas d)) ;;
           let run_number := spire_run_number uext update in
           blocks <- split_edi_data_by_id uext (edi_data mail) ;;
           let spire_data := fst blocks in
           attachment <-
             (if Nat.ltb 2 (List.length spire_data) then
                file <- build_edifact_file_from_data_blocks uext spire_data ;;
                stamped_attachment (edi_filename mail) (Some file) run_number
              else Ok [None; None]) ;;
           Ok (Some (HMRC_ADDRESS adr), Some (SPIRE_ADDRESS adr), attachment, run_number)
       | _ => Ok (None, None, [None; None], 0%Z)
       end ;;
  match r with
  | (sender, receiver, attachment, run_number) =>
      subject <- get_item attachment 0 ;;
      Ok (mkDto (Some run_number) sender receiver subject None (Some attachment) None)
  end.

End WithSettings.

End RequestDto.

Lemma next_mail_id_fresh (ms : list Mail) (m : Mail) :
  In m ms -> mail_id m < next_mail_id ms.
Proof.
  unfold next_mail_id. induction ms as [|a ms IH]; [intros []|].
  cbn [map fold_right]. intros [->|H]; [lia|]. specialize (IH H). lia.
Qed.

(** Every licence-data row points to a mail of the table. *)
Definition licence_data_linked (d : DB) : Prop :=
  forall l, In l (licence_datas d) -> exists m, In m (mails d) /\ mail_id m = ld_mail l.

Lemma filter_none {A : Type} (f : A -> bool) (l : list A) :
  (forall x, In x l -> f x = false) -> filter f l = [].
Proof.
  induction l as [|a l IH]; intros H; [reflexivity|]. cbn [filter].
  rewrite (H a (or_introl eq_refl)). apply IH. intros x Hx. apply H. now right.
Qed.

(** The request DTO of a licence mail that [build_licence_data_mail] has
    just made: it carries the run number of the batch and the file name of
    the mail as it is, since that name was made with this run number; the
    file content is stamped with the run number, and the DTO is made only
    if that stamping succeeds. *)
Theorem build_request_mail_message_dto_of_built_mail
    (ext : Externals) (adr : RequestDto.Addresses) (block : Type)
    (uext : RequestDto.UsageExternals block) (now : datetime)
    (licences : list LicencePayload) (d d' : DB) (mail : Mail) :
  licence_data_linked d ->
  build_licence_data_mail ext now licences d = Ok (mail, d') ->
  exists name content,
    edi_filename mail = Some name /\ edi_data mail = Some content
    /\ RequestDto.build_request_mail_message_dto adr block uext mail d'
       = (data <- build_sent_file_data content (next_run_number (licence_datas d)) ;;
          Ok (mkDto (Some (next_run_number (licence_datas d)))
                    (Some (RequestDto.INCOMING_EMAIL_USER adr))
                    (Some (RequestDto.OUTGOING_EMAIL_USER adr))
                    (Some name) None (Some [Some name; Some data]) None)).
Proof.
  intros Hfk H. unfold build_licence_data_mail, build_licence_data_file in H.
  destruct (licences_to_edifact ext licences (next_run_number (licence_datas d)))
    as [content|e]; cbn [bind fst snd] in H; [|discriminate].
  set (run := next_run_number (licence_datas d)) in *.
  fold (timestamp now) in H.
  set (name := "CHIEF_LIVE_SPIRE_licenceData_" ++ str run ++ "_" ++ timestamp now) in H.
  assert (Hstamp : build_sent_filename name run = Ok name).
  { unfold build_sent_filename, name. rewrite licence_file_name_fields. reflexivity. }
  clearbody name. injection H as <- <-.
  exists name, content.
  split; [reflexivity|]. split; [reflexivity|].
  unfold RequestDto.build_request_mail_message_dto.
  cbn [extract_type mail_id licence_datas set_licence_datas set_mails edi_filename
       edi_data].
  rewrite filter_app. rewrite filter_none.
  - cbn [filter ld_mail]. rewrite Nat.eqb_refl.
    change ([] ++ [mkLicenceData (next_mail_id (mails d)) run None LITE
                                 (json_dumps ext (map reference licences))])%list
      with [mkLicenceData (next_mail_id (mails d)) run None LITE
                          (json_dumps ext (map reference licences))].
    cbn [RequestDto.objects_get bind hmrc_run_number].
    unfold RequestDto.stamped_attachment. cbn [RequestDto.not_none bind].
    rewrite Hstamp. cbn [bind].
    destruct (build_sent_file_data content run); reflexivity.
  - intros l Hl. destruct (Hfk l Hl) as (m & Hm & <-).
    apply Nat.eqb_neq. pose proof (next_mail_id_fresh _ _ Hm). lia.
Qed.

Definition sample_addresses : RequestDto.Addresses :=
  RequestDto.mkAddresses "incoming@example.com" "outgoing@example.com"
                         "hmrc@example.com" "spire@example.com".

Definition sample_usage_externals : RequestDto.UsageExternals string :=
  RequestDto.mkUsageExternals string (fun _ => 3%Z) (fun _ => Ok ([], [])) (fun _ => Ok "").

Definition edifact_externals : Externals :=
  mkExternals (fun _ n => Ok ("1\fileHeader\CHIEF\SPIRE\licenceData\202401011030\"
                              ++ str n ++ "\N" ++ String newline "2\fileTrailer\0"))
              (fun _ => "[]") (fun s => s) (fun s => s).

Lemma build_request_mail_message_dto_of_built_mail_witness :
  let d := mkDB [sample_mail 1 REPLY_SENT] [mkLicenceData 1 6 None LITE "[]"] [] [] [] in
  exists mail d',
    build_licence_data_mail edifact_externals (mkDatetime 2024 1 1 10 30) [] d
    = Ok (mail, d')
    /\ RequestDto.build_request_mail_message_dto sample_addresses string
         sample_usage_externals mail d'
       = Ok (mkDto (Some 7%Z) (Some "incoming@example.com") (Some "outgoing@example.com")
                   (Some "CHIEF_LIVE_SPIRE_licenceData_7_202401011030") None
                   (Some [Some "CHIEF_LIVE_SPIRE_licenceData_7_202401011030";
                          Some ("1\fileHeader\CHIEF\SPIRE\licenceData\202401011030\7\N"
                                ++ String newline "2\fileTrailer\0")])
                   None).
Proof.
  intros d. eexists _, _. split; [reflexivity|].
  match goal with
  | |- RequestDto.build_request_mail_message_dto _ _ _ ?m ?d' = _ =>
      destruct (build_request_mail_message_dto_of_built_mail edifact_externals
                  sample_addresses string sample_usage_externals
                  (mkDatetime 2024 1 1 10 30) [] d d' m)
        as (name & content & Hn & Hc & ->)
  end.
  - intros l [<-|[]]. exists (sample_mail 1 REPLY_SENT). split; [now left | reflexivity].
  - reflexivity.
  - injection Hc as <-. injection Hn as <-. reflexivity.
Defined.

(** A request DTO made for a mail that is neither licence data nor usage
    data, or for usage data with no more than two SPIRE blocks, has the
    attachment [[None, None]] and no subject: it passes [_validate_dto],
    and [build_email_message] then fails on the missing content with
    [AttributeError] instead of building a message. *)
Theorem request_dto_without_file_cannot_be_sent
    (ext : Externals) (settings : Settings) (adr : RequestDto.Addresses) (block : Type)
    (uext : RequestDto.UsageExternals block) (mail : Mail) (d : DB)
    (dto : EmailMessageDto) :
  RequestDto.build_request_mail_message_dto adr block uext mail d = Ok dto ->
  extract_type mail = LICENCE_REPLY
  \/ (extract_type mail = USAGE_DATA
      /\ exists blocks,
           RequestDto.split_edi_data_by_id uext (edi_data mail) = Ok blocks
           /\ List.length (fst blocks) <= 2) ->
  attachment dto = Some [None; None] /\ subject dto = None
  /\ _validate_dto (Some dto) = Ok tt
  /\ build_email_message ext settings (Some dto)
     = Raise (AttributeError "'NoneType' object has no attribute 'encode'").
Proof.
  intros H Hcase.
  assert (Hdto : attachment dto = Some [None; None] /\ subject dto = None).
  { unfold RequestDto.build_request_mail_message_dto in H.
    destruct Hcase as [E|(E & blocks & Hb & Hlen)]; rewrite E in H.
    - cbn [bind get_item nth_error] in H. injection H as <-. split; reflexivity.
    - destruct (RequestDto.objects_get _) as [update|e]; cbn [bind] in H; [|discriminate].
      rewrite Hb in H. cbn [bind] in H.
      destruct (Nat.ltb_spec 2 (List.length (fst blocks))) as [Hl|Hl]; [lia|].
      cbn [bind get_item nth_error] in H. injection H as <-. split; reflexivity. }
  destruct Hdto as [Ha Hs]. repeat split; try assumption.
  - unfold _validate_dto. now rewrite Ha.
  - unfold build_email_message, _validate_dto. rewrite Ha. reflexivity.
Qed.

Lemma request_dto_without_file_cannot_be_sent_witness :
  let mail := mkMail 3 LICENCE_REPLY REPLY_PENDING (Some "reply") (Some "data") None None
                     None None "" in
  exists dto,
    RequestDto.build_request_mail_message_dto sample_addresses string
      sample_usage_externals mail (mkDB [mail] [] [] [] []) = Ok dto
    /\ build_email_message sample_externals sample_settings (Some dto)
       = Raise (AttributeError "'NoneType' object has no attribute 'encode'").
Proof.
  intros mail. eexists. split; [reflexivity|].
  apply (request_dto_without_file_cannot_be_sent sample_externals sample_settings
           sample_addresses string sample_usage_externals mail (mkDB [mail] [] [] [] [])).
  - reflexivity.
  - now left.
Defined.

(* ===================================================================== *)
(** * The identifier [get_message_id] derives                             *)
(* ===================================================================== *)

Lemma remove_char_clean (c : ascii) (s : string) :
  has_char c s = false -> remove_char c s = s.
Proof.
  induction s as [|a s IH]; cbn [has_char remove_char]; [reflexivity|].
  intros H. apply orb_false_elim in H. destruct H as [Ha Hs].
  now rewrite Ha, (IH Hs).
Qed.

Section DerivedIdentifier.

Variable hlp : Helpers.

(** The line does not begin with the field [Message-ID:]. *)
Definition other_header (item : string) : Prop :=
  forall line, decode_utf8 hlp item = Ok line ->
    nth_error (split " " line) 0 <> Some MESSAGE_ID_FIELD.

Lemma scan_headers_others (all : list string) (rest : list string) (index : nat)
    (acc : option string) :
  decodable hlp rest -> Forall other_header rest ->
  scan_headers hlp all index rest acc = Ok acc.
Proof.
  revert index. induction rest as [|item rest IH]; intros index Hdec Hoth; [reflexivity|].
  cbn [scan_headers].
  destruct (Hdec item (or_introl eq_refl)) as (line & Hline). rewrite Hline. cbn [bind].
  assert (Hrest : scan_headers hlp all (S index) rest acc = Ok acc).
  { apply IH; [intros i Hi; apply Hdec; now right | now inversion Hoth]. }
  assert (Hfirst : nth_error (split " " line) 0 <> Some MESSAGE_ID_FIELD).
  { inversion Hoth as [|? ? Hitem _]; subst. now apply Hitem. }
  destruct (split " " line) as [|f0 [|f1 [|f2 t]]]; try exact Hrest;
    (destruct (String.eqb f0 MESSAGE_ID_FIELD) eqn:E; [|exact Hrest]);
    apply String.eqb_eq in E; subst f0; now destruct Hfirst.
Qed.

(** The lines before the last one never end the scan. *)
Lemma scan_headers_prefix (mid pre tail : list string) (acc : option string) :
  tail <> [] -> decodable hlp (pre ++ mid ++ tail)%list ->
  exists acc',
    scan_headers hlp (pre ++ mid ++ tail)%list (List.length pre) (mid ++ tail)%list acc
    = scan_headers hlp (pre ++ mid ++ tail)%list (List.length pre + List.length mid)
                   tail acc'.
Proof.
  intros Htail. revert pre acc. induction mid as [|a mid IH]; intros pre acc Hdec.
  - exists acc. now rewrite Nat.add_0_r.
  - change ((a :: mid) ++ tail)%list with (a :: (mid ++ tail))%list in *.
    destruct (scan_headers_step hlp pre a (mid ++ tail)%list acc Hdec) as (acc1 & ->).
    { left. destruct mid; [assumption | discriminate]. }
    specialize (IH (pre ++ [a])%list acc1).
    rewrite <- app_assoc, length_app, Nat.add_1_r in IH.
    change ([a] ++ mid ++ tail)%list with (a :: (mid ++ tail))%list in IH.
    destruct (IH Hdec) as (acc' & ->). exists acc'.
    cbn [List.length]. now rewrite Nat.add_succ_r.
Qed.

Lemma message_id_line_fields (value : string) :
  has_char " " value = false ->
  split " " ("Message-ID: " ++ value) = [MESSAGE_ID_FIELD; value].
Proof.
  intros H.
  change ("Message-ID: " ++ value) with (MESSAGE_ID_FIELD ++ String " " value).
  rewrite split_app_sep by reflexivity. now rewrite split_clean.
Qed.

Lemma local_part (local domain : string) :
  has_char "<" local = false -> has_char ">" local = false ->
  has_char "@" local = false ->
  get_item (split "@" (remove_char ">" (remove_char "<"
                         ("<" ++ local ++ "@" ++ domain ++ ">")))) 0
  = Ok local.
Proof.
  intros Hlt Hgt Hat.
  assert (E : remove_char ">" (remove_char "<" ("<" ++ local ++ "@" ++ domain ++ ">"))
              = local ++ String "@" (remove_char ">" (remove_char "<" (domain ++ ">")))).
  { change ("<" ++ local ++ "@" ++ domain ++ ">")
      with (String "<" (local ++ String "@" (domain ++ ">"))).
    cbn [remove_char]. rewrite Ascii.eqb_refl.
    clear Hat. induction local as [|a s IH]; cbn [append remove_char has_char] in *.
    - reflexivity.
    - apply orb_false_elim in Hlt. destruct Hlt as [Ha Hs].
      apply orb_false_elim in Hgt. destruct Hgt as [Ha' Hs'].
      rewrite Ha. cbn [remove_char]. rewrite Ha'. now rewrite (IH Hs Hs'). }
  rewrite E, split_app_sep by assumption. reflexivity.
Qed.

End DerivedIdentifier.

(** For a header of the trusted sender whose lines decode and whose last
    line beginning with [Message-ID:] reads [Message-ID: <local@domain>],
    [get_message_id] returns [local], the text before the at sign: the
    domain plays no part, so two messages whose identifiers differ in the
    domain only get the same identifier. *)
Theorem get_message_id_local_part (hlp : Helpers) (settings : Settings) (conn : POP3)
    (listing_msg num : string) (pre post : list string) (item local domain : string) :
  get_item (split_ws listing_msg) 0 = Ok num ->
  pop3_top conn num = Ok (pre ++ item :: post)%list ->
  In (encode_utf8 hlp (SPIRE_FROM_ADDRESS settings)) (pre ++ item :: post)%list ->
  decodable hlp (pre ++ item :: post)%list ->
  decode_utf8 hlp item = Ok ("Message-ID: <" ++ local ++ "@" ++ domain ++ ">") ->
  has_char " " local = false -> has_char "<" local = false ->
  has_char ">" local = false -> has_char "@" local = false ->
  has_char " " domain = false ->
  Forall (other_header hlp) post ->
  get_message_id hlp settings conn listing_msg = Ok (Some local, num).
Proof.
  intros Hn Ht Hs Hdec Hitem Hsp Hlt Hgt Hat Hspd Hpost.
  apply sender_line_present_In in Hs.
  unfold get_message_id. rewrite Hn. cbn [bind]. rewrite Ht. cbn [bind].
  rewrite Hs. cbn [negb].
  destruct (scan_headers_prefix hlp pre [] (item :: post) None) as (acc & Hpre);
    [discriminate | exact Hdec |].
  change (scan_headers hlp (pre ++ item :: post)%list 0 (pre ++ item :: post)%list None
          = scan_headers hlp (pre ++ item :: post)%list (List.length pre) (item :: post)
                         acc) in Hpre.
  rewrite Hpre. cbn [scan_headers]. rewrite Hitem. cbn [bind].
  change ("Message-ID: <" ++ local ++ "@" ++ domain ++ ">")
    with ("Message-ID: " ++ ("<" ++ local ++ "@" ++ domain ++ ">")).
  rewrite message_id_line_fields.
  - rewrite String.eqb_refl, local_part by assumption. cbn [bind].
    rewrite scan_headers_others; [reflexivity | | exact Hpost].
    intros i Hi. apply Hdec. apply in_app_iff. right. now right.
  - change ("<" ++ local ++ "@" ++ domain ++ ">")
      with (String "<" (local ++ String "@" (domain ++ ">"))).
    cbn [has_char]. rewrite !has_char_app, Hsp. cbn [has_char orb].
    rewrite has_char_app, Hspd. reflexivity.
Qed.

Lemma get_message_id_local_part_witness :
  get_message_id sample_helpers sample_settings (sample_session (Ok "mail")) "1 100"
  = Ok (Some "a1", "1")
  /\ get_message_id sample_helpers sample_settings
       (mkPOP3 (Ok ["1 100"])
               (fun _ => Ok ["From: spire@example.com"; "Message-ID: <a1@elsewhere.org>";
                             "Subject: usage"])
               (fun _ => Ok "mail")) "1 100"
     = Ok (Some "a1", "1").
Proof.
  split.
  - apply (get_message_id_local_part sample_helpers sample_settings
             (sample_session (Ok "mail")) "1 100" "1" ["From: spire@example.com"] []
             "Message-ID: <a1@example.com>" "a1" "example.com");
      try reflexivity; try (now left); try constructor.
    intros item _. now exists item.
  - apply (get_message_id_local_part sample_helpers sample_settings _ "1 100" "1"
             ["From: spire@example.com"] ["Subject: usage"]
             "Message-ID: <a1@elsewhere.org>" "a1" "elsewhere.org");
      try reflexivity; try (now left).
    + intros item _. now exists item.
    + constructor; [|constructor]. intros line [= <-]. vm_compute. discriminate.
Defined.
